(** * Firedrake's TSFC interface: kernel cache keys, the two-tier kernel
    cache, Real-space mangling and [compile_form].

    A shallow embedding of [firedrake/tsfc_interface.py].  Python values
    are modelled by the data the code inspects: strings are sequences of
    code points below 256, dicts are insertion-ordered association lists
    (their [str] shows the insertion order), the class-level
    [TSFCKernel._cache] and the on-disk store are finite maps. *)

From Stdlib Require Import ZArith List String Ascii Lia Bool Permutation Sorted.
From Stdlib Require Import DecimalString DecimalZ OrderedTypeEx.
From stdpp Require Import base option gmap strings.
Import ListNotations.

Local Open Scope string_scope.
Local Open Scope Z_scope.

(** ** hashlib.md5 (RFC 1321), on 32-bit words held in [Z] *)

Module MD5.

Definition w32 : Z := 4294967296.

Definition add32 (x y : Z) : Z := (x + y) mod w32.

Definition not32 (x : Z) : Z := Z.lxor x 4294967295.

Definition rotl32 (x c : Z) : Z :=
  Z.lor (Z.shiftl x c mod w32) (Z.shiftr x (32 - c)).

Definition shifts : list Z :=
  [7; 12; 17; 22; 7; 12; 17; 22; 7; 12; 17; 22; 7; 12; 17; 22;
   5; 9; 14; 20; 5; 9; 14; 20; 5; 9; 14; 20; 5; 9; 14; 20;
   4; 11; 16; 23; 4; 11; 16; 23; 4; 11; 16; 23; 4; 11; 16; 23;
   6; 10; 15; 21; 6; 10; 15; 21; 6; 10; 15; 21; 6; 10; 15; 21].

(** [K[i] = floor(2^32 * abs(sin(i + 1)))]. *)
Definition sines : list Z :=
  [3614090360; 3905402710; 606105819; 3250441966; 4118548399; 1200080426;
   2821735955; 4249261313; 1770035416; 2336552879; 4294925233; 2304563134;
   1804603682; 4254626195; 2792965006; 1236535329; 4129170786; 3225465664;
   643717713; 3921069994; 3593408605; 38016083; 3634488961; 3889429448;
   568446438; 3275163606; 4107603335; 1163531501; 2850285829; 4243563512;
   1735328473; 2368359562; 4294588738; 2272392833; 1839030562; 4259657740;
   2763975236; 1272893353; 4139469664; 3200236656; 681279174; 3936430074;
   3572445317; 76029189; 3654602809; 3873151461; 530742520; 3299628645;
   4096336452; 1126891415; 2878612391; 4237533241; 1700485571; 2399980690;
   4293915773; 2240044497; 1873313359; 4264355552; 2734768916; 1309151649;
   4149444226; 3174756917; 718787259; 3951481745].

Definition nthZ (l : list Z) (i : Z) : Z := nth (Z.to_nat i) l 0.

(** The four working registers. *)
Record regs := Regs { rA : Z; rB : Z; rC : Z; rD : Z }.

Definition init_regs : regs := Regs 1732584193 4023233417 2562383102 271733878.

(** One of the 64 operations on a 16-word block [m]. *)
Definition step (m : list Z) (r : regs) (i : Z) : regs :=
  let '(Regs a b c d) := r in
  let '(f, g) :=
    if i <? 16 then (Z.lor (Z.land b c) (Z.land (not32 b) d), i)
    else if i <? 32 then (Z.lor (Z.land d b) (Z.land (not32 d) c), (5 * i + 1) mod 16)
    else if i <? 48 then (Z.lxor (Z.lxor b c) d, (3 * i + 5) mod 16)
    else (Z.lxor c (Z.lor b (not32 d)), (7 * i) mod 16) in
  let f' := add32 (add32 (add32 f a) (nthZ sines i)) (nthZ m g) in
  Regs d (add32 b (rotl32 f' (nthZ shifts i))) b c.

Definition rounds : list Z := map Z.of_nat (seq 0 64).

Definition process_block (r : regs) (m : list Z) : regs :=
  let r' := fold_left (step m) rounds r in
  Regs (add32 (rA r) (rA r')) (add32 (rB r) (rB r'))
       (add32 (rC r) (rC r')) (add32 (rD r) (rD r')).

(** Little-endian bytes of a [k]-byte quantity. *)
Fixpoint le_bytes (k : nat) (x : Z) : list Z :=
  match k with
  | O => []
  | S k' => x mod 256 :: le_bytes k' (x / 256)
  end.

(** Padding: a one bit, zeros up to 56 mod 64, the bit length in 64 bits. *)
Definition pad (msg : list Z) : list Z :=
  let n := Z.of_nat (length msg) in
  let zeros := Z.to_nat ((55 - n) mod 64) in
  msg ++ 128 :: repeat 0 zeros ++ le_bytes 8 ((8 * n) mod 2 ^ 64).

(** Little-endian 32-bit words of a byte sequence. *)
Fixpoint words (fuel : nat) (bs : list Z) : list Z :=
  match fuel, bs with
  | S fuel', b0 :: b1 :: b2 :: b3 :: rest =>
      (b0 + 256 * (b1 + 256 * (b2 + 256 * b3))) :: words fuel' rest
  | _, _ => []
  end.

Fixpoint blocks (fuel : nat) (ws : list Z) : list (list Z) :=
  match fuel, ws with
  | S fuel', _ :: _ => firstn 16 ws :: blocks fuel' (skipn 16 ws)
  | _, _ => []
  end.

Definition hex_digit (x : Z) : ascii :=
  nth (Z.to_nat x) (list_ascii_of_string "0123456789abcdef") "0"%char.

Definition hex_byte (x : Z) : list ascii := [hex_digit (x / 16); hex_digit (x mod 16)].

Definition digest_regs (msg : list Z) : regs :=
  let p := pad msg in
  let ws := words (length p) p in
  fold_left process_block (blocks (length ws) ws) init_regs.

(** [md5(msg).hexdigest()]. *)
Definition hexdigest (msg : list Z) : string :=
  let '(Regs a b c d) := digest_regs msg in
  string_of_list_ascii
    (concat (map hex_byte (le_bytes 4 a ++ le_bytes 4 b ++ le_bytes 4 c ++ le_bytes 4 d))).

End MD5.

(** ** Python strings and [str.encode()] (UTF-8) *)

Definition code_points (s : string) : list Z :=
  map (fun c => Z.of_N (N_of_ascii c)) (list_ascii_of_string s).

Definition utf8 (c : Z) : list Z :=
  if c <? 128 then [c] else [192 + c / 64; 128 + c mod 64].

Definition encode (s : string) : list Z := concat (map utf8 (code_points s)).

Definition md5_hexdigest (s : string) : string := MD5.hexdigest (encode s).

(** ** Python values, dicts and their [str] / [repr] *)

Module Py.

(** The values a parameter dict holds. *)
Inductive value :=
| VNone
| VBool (b : bool)
| VInt (z : Z)
| VStr (s : string).

#[global] Instance value_eq_dec : EqDecision value.
Proof. solve_decision. Defined.

Definition str_int (z : Z) : string := NilZero.string_of_int (Z.to_int z).

Definition str_bool (b : bool) : string := if b then "True" else "False".

Definition squote : ascii := "'"%char.
Definition dquote : ascii := ascii_of_nat 34.
Definition backslash : ascii := "\"%char.

Fixpoint contains (c : ascii) (s : string) : bool :=
  match s with
  | EmptyString => false
  | String a s' => Ascii.eqb a c || contains c s'
  end.

(** [str.isprintable] on the code points below 256. *)
Definition printable (c : ascii) : bool :=
  let n := nat_of_ascii c in
  ((32 <=? n) && (n <? 127) || (161 <=? n) && negb (n =? 173))%nat.

Definition hex2 (c : ascii) : string :=
  let n := Z.of_nat (nat_of_ascii c) in
  String (MD5.hex_digit (n / 16)) (String (MD5.hex_digit (n mod 16)) EmptyString).

(** How [repr] writes one character inside the quotes [q]. *)
Definition repr_char (q c : ascii) : string :=
  if Ascii.eqb c q || Ascii.eqb c backslash then String backslash (String c EmptyString)
  else if Ascii.eqb c (ascii_of_nat 9) then "\t"
  else if Ascii.eqb c (ascii_of_nat 10) then "\n"
  else if Ascii.eqb c (ascii_of_nat 13) then "\r"
  else if printable c then String c EmptyString
  else "\x" ++ hex2 c.

Fixpoint repr_body (q : ascii) (s : string) : string :=
  match s with
  | EmptyString => EmptyString
  | String c s' => repr_char q c ++ repr_body q s'
  end.

(** Double quotes are chosen only for a string with a single quote and
    no double quote. *)
Definition quote_of (s : string) : ascii :=
  if contains squote s && negb (contains dquote s) then dquote else squote.

Definition repr_str (s : string) : string :=
  String (quote_of s) (repr_body (quote_of s) s ++ String (quote_of s) EmptyString).

Definition repr (v : value) : string :=
  match v with
  | VNone => "None"
  | VBool b => str_bool b
  | VInt z => str_int z
  | VStr s => repr_str s
  end.

Fixpoint join (sep : string) (l : list string) : string :=
  match l with
  | [] => ""
  | [x] => x
  | x :: l' => x ++ sep ++ join sep l'
  end.

(** A dict: its items in insertion order, keys pairwise distinct. *)
Abbreviation dict K V := (list (K * V)) (only parsing).

Definition keys {K V} (d : dict K V) : list K := map fst d.

Definition wf_dict {K V} (d : dict K V) : Prop := NoDup (keys d).

Section Dict.
Context {K V : Type} `{EqDecision K}.

Fixpoint get (d : dict K V) (k : K) : option V :=
  match d with
  | [] => None
  | (k', v) :: d' => if decide (k' = k) then Some v else get d' k
  end.

(** [d[k] = v]: an existing key keeps its position. *)
Fixpoint set (d : dict K V) (k : K) (v : V) : dict K V :=
  match d with
  | [] => [(k, v)]
  | (k', v') :: d' => if decide (k' = k) then (k, v) :: d' else (k', v') :: set d' k v
  end.

(** [d.update(u)]. *)
Definition update (d u : dict K V) : dict K V :=
  fold_left (fun acc kv => set acc (fst kv) (snd kv)) u d.

(** [d.copy()] builds a new dict with the same items. *)
Definition copy (d : dict K V) : dict K V := d.

(** The same keys with identical values (the same type and the same
    value), in any order.  This is finer than Python's [d1 == d2], which
    compares the values with [==] and so takes [True] for [1]. *)
Definition dict_eq (d1 d2 : dict K V) : Prop := forall k, get d1 k = get d2 k.

End Dict.

(** Python's [v1 == v2] on these values: [bool] is a subclass of [int],
    so [True == 1] and [False == 0]. *)
Definition as_int (v : value) : option Z :=
  match v with
  | VBool b => Some (if b then 1 else 0)
  | VInt z => Some z
  | _ => None
  end.

Definition py_eq (v1 v2 : value) : bool :=
  match v1, v2 with
  | VNone, VNone => true
  | VStr s1, VStr s2 => String.eqb s1 s2
  | _, _ =>
      match as_int v1, as_int v2 with
      | Some z1, Some z2 => z1 =? z2
      | _, _ => false
      end
  end.

(** Python's [d1 == d2]: the same keys, with values that are [==]. *)
Definition dict_py_eq {K} `{EqDecision K} (d1 d2 : dict K value) : Prop :=
  forall k,
    match get d1 k, get d2 k with
    | Some v1, Some v2 => py_eq v1 v2 = true
    | None, None => True
    | _, _ => False
    end.

(** [sorted(d.items())]: the keys of a dict are distinct, so comparing
    two items is comparing their keys, by code points. *)
Fixpoint insert_item {V} (kv : string * V) (l : list (string * V)) : list (string * V) :=
  match l with
  | [] => [kv]
  | kv' :: l' =>
      if String.ltb (fst kv) (fst kv') then kv :: l else kv' :: insert_item kv l'
  end.

Fixpoint sorted_items {V} (d : dict string V) : list (string * V) :=
  match d with
  | [] => []
  | kv :: d' => insert_item kv (sorted_items d')
  end.

(** [dict(pairs)]. *)
Definition of_pairs {K V} `{EqDecision K} (l : list (K * V)) : dict K V :=
  fold_left (fun acc kv => set acc (fst kv) (snd kv)) l [].

(** [sorted(d)]: the keys in increasing order. *)
Fixpoint insert_key (k : string) (l : list string) : list string :=
  match l with
  | [] => [k]
  | k' :: l' => if String.ltb k k' then k :: l else k' :: insert_key k l'
  end.

Definition sorted_keys {V} (d : dict string V) : list string :=
  fold_right insert_key [] (keys d).

(** [enumerate(l)]. *)
Definition enumerate {A} (l : list A) : list (Z * A) :=
  combine (map Z.of_nat (seq 0 (length l))) l.

Definition repr_item (kv : string * value) : string :=
  "(" ++ repr_str (fst kv) ++ ", " ++ repr (snd kv) ++ ")".

(** [str] of a list of [(key, value)] tuples. *)
Definition str_items (l : list (string * value)) : string :=
  "[" ++ join ", " (map repr_item l) ++ "]".

(** [str] of a dict from ints to ints. *)
Definition str_int_dict (d : dict Z Z) : string :=
  "{" ++ join ", " (map (fun kv => str_int (fst kv) ++ ": " ++ str_int (snd kv)) d) ++ "}".

Definition str_opt_int (o : option Z) : string :=
  match o with
  | None => "None"
  | Some z => str_int z
  end.

(** [str] of a tuple whose entries are ints or [None]. *)
Definition str_tuple (t : list (option Z)) : string :=
  match t with
  | [] => "()"
  | [x] => "(" ++ str_opt_int x ++ ",)"
  | _ => "(" ++ join ", " (map str_opt_int t) ++ ")"
  end.

End Py.

(** ** Exceptions *)

Inductive exn :=
| KeyError
| IndexError
| AssertionError
| RuntimeError
| OSError          (* [IOError] is the same class; [gzip.BadGzipFile] is a subclass *)
| EOFError
| UFLException
| UnpicklingError
| GeneratorError.  (* anything raised inside TSFC *)

(** The outcome of a call: a value, an exception, or a collective
    operation that never completes. *)
Inductive result (A : Type) :=
| Ok (a : A)
| Raise (e : exn)
| Blocked.

Arguments Ok {A} a.
Arguments Raise {A} e.
Arguments Blocked {A}.

Definition bind {A B} (r : result A) (k : A -> result B) : result B :=
  match r with
  | Ok a => k a
  | Raise e => Raise e
  | Blocked => Blocked
  end.

Notation "'let*' x := r 'in' k" := (bind r (fun x => k))
  (at level 10, x name, r at level 100, k at level 200, only parsing).

(** ** The part of UFL the interface consumes *)

Module UFL.

(** An MPI communicator as one process sees it: [py2f()] and [rank]. *)
Record Comm := { py2f : Z; rank : nat }.

Record Mesh := { mesh_id : nat; comm : Comm }.

Record FiniteElement := { family : string; degree : nat }.

Record FunctionSpace := { fs_mesh : Mesh; ufl_element : FiniteElement }.

(** Number 0 is the test function, number 1 the trial function. *)
Record Argument := { arg_function_space : FunctionSpace; number : nat }.

Record Coefficient := { coeff_function_space : FunctionSpace; count : nat }.

#[warnings="-register-all"]
Inductive Expr :=
| IntValue (z : Z)
| ArgumentT (a : Argument)
| CoefficientT (c : Coefficient)
| Operator (op : string) (operands : list Expr).

Record Integral := {
  integral_type : string;
  subdomain_id : Z;
  ufl_domain : Mesh;
  integrand : Expr;
  metadata : Py.dict string Py.value
}.

(** A form is the sum of its integrals. *)
Record Form := { integrals : list Integral }.

#[global] Instance Comm_eq_dec : EqDecision Comm.
Proof. solve_decision. Defined.
#[global] Instance Mesh_eq_dec : EqDecision Mesh.
Proof. solve_decision. Defined.
#[global] Instance FiniteElement_eq_dec : EqDecision FiniteElement.
Proof. solve_decision. Defined.
#[global] Instance FunctionSpace_eq_dec : EqDecision FunctionSpace.
Proof. solve_decision. Defined.
#[global] Instance Argument_eq_dec : EqDecision Argument.
Proof. solve_decision. Defined.
#[global] Instance Coefficient_eq_dec : EqDecision Coefficient.
Proof. solve_decision. Defined.

Fixpoint expr_arguments (e : Expr) : list Argument :=
  match e with
  | ArgumentT a => [a]
  | Operator _ es => flat_map expr_arguments es
  | _ => []
  end.

Fixpoint expr_coefficients (e : Expr) : list Coefficient :=
  match e with
  | CoefficientT c => [c]
  | Operator _ es => flat_map expr_coefficients es
  | _ => []
  end.

Fixpoint insert_by {A} (key : A -> nat) (x : A) (l : list A) : list A :=
  match l with
  | [] => [x]
  | y :: l' => if (key x <? key y)%nat then x :: l else y :: insert_by key x l'
  end.

Definition sort_by {A} (key : A -> nat) (l : list A) : list A :=
  fold_right (insert_by key) [] l.

(** [form.arguments()]: the distinct arguments of the form ordered by
    number; two different arguments with one number are an error. *)
Definition arguments (f : Form) : result (list Argument) :=
  let args := remove_dups (flat_map (fun i => expr_arguments (integrand i)) (integrals f)) in
  if decide (NoDup (map number args)) then Ok (sort_by number args)
  else Raise UFLException.

(** [form.coefficients()]: the distinct coefficients ordered by count. *)
Definition coefficients (f : Form) : list Coefficient :=
  sort_by count (remove_dups (flat_map (fun i => expr_coefficients (integrand i)) (integrals f))).

(** [form.ufl_domains()]: the distinct domains of the integrals. *)
Definition ufl_domains (f : Form) : list Mesh :=
  sort_by mesh_id (remove_dups (map ufl_domain (integrals f))).

(** [ufl.replace] on expressions: every occurrence of an argument that
    is a key of the mapping becomes the mapped expression. *)
Fixpoint replace_expr (m : Py.dict Argument Expr) (e : Expr) : Expr :=
  match e with
  | ArgumentT a => match Py.get m a with Some e' => e' | None => e end
  | Operator op es => Operator op (map (replace_expr m) es)
  | _ => e
  end.

Definition replace_integral (m : Py.dict Argument Expr) (i : Integral) : Integral :=
  {| integral_type := integral_type i; subdomain_id := subdomain_id i;
     ufl_domain := ufl_domain i; integrand := replace_expr m (integrand i);
     metadata := metadata i |}.

Definition replace (f : Form) (m : Py.dict Argument Expr) : Form :=
  {| integrals := map (replace_integral m) (integrals f) |}.

End UFL.

Import UFL.

(** Modelled from the spec: [TestFunction] of [firedrake/ufl_expr.py],
    which is not part of the sources at hand.  The spec calls its result
    a test-role argument on the given space: the argument numbered 0. *)
Definition TestFunction (function_space : FunctionSpace) : Argument :=
  {| arg_function_space := function_space; number := 0 |}.

(** ** [_real_mangle] *)

Definition is_real (x : Argument) : bool :=
  String.eqb (family (ufl_element (arg_function_space x))) "Real".

(** The loop filling [replacements] with [arg -> 1] for the Real arguments. *)
Definition real_replacements (a : list Argument) (reals : list bool) : Py.dict Argument Expr :=
  fold_left (fun (replacements : Py.dict Argument Expr) (ar : Argument * bool) =>
               if snd ar then Py.set replacements (fst ar) (IntValue 1) else replacements)
            (combine a reals) [].

Definition _real_mangle (form : Form) : result Form :=
  let* a := arguments form in
  let reals := map is_real a in
  if negb (existsb (fun r => r) reals) then Ok form
  else
    let replacements := real_replacements a reals in
    let replacements :=
      match decide (reals = [true; false]), nth_error a 1 with
      | left _, Some a1 =>
          Py.set replacements a1 (ArgumentT (TestFunction (arg_function_space a1)))
      | _, _ => replacements
      end in
    Ok (replace form replacements).

(** ** TSFC, pyop2 and the kernel records *)

(** The [interface] argument: [None] or a [KernelBuilder] class. *)
Inductive Interface :=
| NoInterface
| BuilderClass (qualname : string).

(** The name of [type(interface)]: a class is an instance of [type]. *)
Definition type_name (interface : Interface) : string :=
  match interface with
  | NoInterface => "NoneType"
  | BuilderClass _ => "type"
  end.

(** [str(type(interface))]. *)
Definition str_type (interface : Interface) : string :=
  "<class '" ++ type_name interface ++ "'>".

(** [str(idx)]: [idx] is [None] or a tuple of block indices. *)
Definition str_idx (idx : option (list (option Z))) : string :=
  match idx with
  | None => "None"
  | Some t => Py.str_tuple t
  end.

(** A kernel as TSFC's builder returns it. *)
Record TSFCKernelData := {
  ast_name : string;
  ast_body : string;
  k_integral_type : string;
  k_oriented : bool;
  k_subdomain_id : Z;
  k_domain_number : Z;
  coefficient_numbers : list Z;
  external_data_numbers : list Z;
  external_data_parts : list (option Z);
  k_needs_cell_sizes : bool
}.

(** [pyop2.op2.Kernel(ast, ast.name, opts=opts, requires_zeroed_output_arguments=True)]. *)
Record Kernel := {
  kernel_code : string;
  kernel_name : string;
  kernel_opts : Py.dict string Py.value;
  requires_zeroed_output_arguments : bool
}.

Record KernelInfo := {
  kernel : Kernel;
  ki_integral_type : string;
  oriented : bool;
  ki_subdomain_id : Z;
  domain_number : Z;
  coefficient_map : list Z;
  subspace_map : list Z;
  subspace_parts : list (option Z);
  needs_cell_facets : bool;
  pass_layer_arg : bool;
  needs_cell_sizes : bool
}.

Record SplitKernel := { indices : list (option Z); kinfo : KernelInfo }.

Abbreviation Subspace := Coefficient (only parsing).

(** What the interface calls and does not define: UFL's signature, the
    handle of [MPI.COMM_NULL], TSFC's parameter preprocessing, the
    lowering done by [compile_local_form] through TSFC's builder, and
    Firedrake's form splitter and subspace extraction. *)
Class Externals := {
  signature : Form -> string;
  COMM_NULL_py2f : Z;
  preprocess_parameters : Py.dict string Py.value -> Py.dict string Py.value;
  compile_local_form :
    Form -> string -> Py.dict string Py.value -> Interface -> bool -> bool ->
    result (list TSFCKernelData);
  split_form : Form -> bool -> result (list (list (option Z) * Form));
  extract_subspaces : Form -> list Subspace
}.

(** ** [TSFCKernel._cache_key] *)

Section CacheKey.
Context `{Externals}.

(** The string that is hashed.  [coffee_defaults] is the global
    [default_parameters["coffee"]]. *)
Definition key_string (coffee_defaults : Py.dict string Py.value)
    (form : Form) (name : string) (parameters : Py.dict string Py.value)
    (number_map subspace_number_map : Py.dict Z Z) (interface : Interface)
    (coffee diagonal : bool) (idx : option (list (option Z))) : string :=
  (signature form ++ name
   ++ Py.str_items (Py.sorted_items coffee_defaults)
   ++ Py.str_items (Py.sorted_items parameters)
   ++ Py.str_int_dict number_map
   ++ Py.str_int_dict subspace_number_map
   ++ str_type interface
   ++ Py.str_bool coffee
   ++ str_idx idx
   ++ Py.str_bool diagonal)%string.

Definition digest (coffee_defaults : Py.dict string Py.value)
    (form : Form) (name : string) (parameters : Py.dict string Py.value)
    (number_map subspace_number_map : Py.dict Z Z) (interface : Interface)
    (coffee diagonal : bool) (idx : option (list (option Z))) : string :=
  md5_hexdigest
    (key_string coffee_defaults form name parameters number_map subspace_number_map
                interface coffee diagonal idx).

(** The digest and the communicator of the form's first domain. *)
Definition _cache_key (coffee_defaults : Py.dict string Py.value)
    (form : Form) (name : string) (parameters : Py.dict string Py.value)
    (number_map subspace_number_map : Py.dict Z Z) (interface : Interface)
    (coffee diagonal : bool) (idx : option (list (option Z))) : result (string * Comm) :=
  let d := digest coffee_defaults form name parameters number_map subspace_number_map
                  interface coffee diagonal idx in
  match ufl_domains form with
  | [] => Raise IndexError
  | m :: _ => Ok (d, comm m)
  end.

End CacheKey.

(** ** Process state and the shared on-disk store *)

(** The [_key] attribute of a cached object: [Cached.__new__] sets the
    pair, [_cache_store] overwrites it with the digest on rank 0. *)
Inductive KeyAttr :=
| KeyWithComm (d : string) (c : Comm)
| KeyAlone (d : string).

(** A [TSFCKernel] object; [obj_id] is its identity. *)
Record TSFCKernel := {
  obj_id : nat;
  _key : KeyAttr;
  _initialized : bool;
  kernels : list KernelInfo
}.

(** The attributes [pickle] writes. *)
Record Pickled := {
  p_key : KeyAttr;
  p_initialized : bool;
  p_kernels : list KernelInfo
}.

Inductive Bytes :=
| PickleOf (p : Pickled)
| Garbage.          (* bytes that [pickle.loads] rejects *)

Inductive File :=
| Gzip (b : Bytes)  (* decompresses to [b] *)
| CorruptGzip       (* an invalid deflate stream: reading raises [zlib.error] *)
| NotGzip           (* no gzip header, or a wrong CRC or length at the end:
                       reading raises [gzip.BadGzipFile], an [OSError] *)
| Truncated.        (* the stream ends before its end marker: reading raises
                       [EOFError] *)

(** The cache root [_cachedir]: absent, or shard directories of files. *)
Abbreviation Disk := (option (gmap string (gmap string File))) (only parsing).

Inductive event :=
| EvDiskRead (key : string)
| EvDiskWrite (key : string)
| EvBcast
| EvBarrier
| EvSplitForm (f : Form)
| EvRealMangle (f : Form)
| EvCacheKey (f : Form)
| EvLower (f : Form) (prefix : string).

(** The key of [form._cache["firedrake_kernels"]]. *)
Abbreviation CompileKey :=
  (list (string * Py.value) * string * list (string * Py.value) * bool * bool)%type
  (only parsing).

(** A form object: its identity and its value. *)
Record FormObj := { form_id : nat; form_value : Form }.

Record World := {
  pid : nat;
  COMM_WORLD : Comm;
  heap : gmap nat (Py.dict string Py.value);   (* the dict objects *)
  next_loc : nat;
  _cache : gmap (string + string * Z) TSFCKernel;   (* [TSFCKernel._cache] *)
  next_obj : nat;
  form_caches : gmap nat (Py.dict CompileKey (list SplitKernel));
  trace : list event;
  disk : Disk
}.

(** The global [default_parameters["coffee"]] and
    [default_parameters["form_compiler"]] are dict objects too. *)
Definition coffee_loc : nat := 0.
Definition form_compiler_loc : nat := 1.

Definition M (A : Type) : Type := World -> result A * World.

Definition ret {A} (a : A) : M A := fun w => (Ok a, w).

Definition raise {A} (e : exn) : M A := fun w => (Raise e, w).

Definition lift {A} (r : result A) : M A := fun w => (r, w).

Definition mbind {A B} (m : M A) (k : A -> M B) : M B :=
  fun w =>
    match m w with
    | (Ok a, w') => k a w'
    | (Raise e, w') => (Raise e, w')
    | (Blocked, w') => (Blocked, w')
    end.

Notation "'let!' x := m 'in' k" := (mbind m (fun x => k))
  (at level 10, x name, m at level 100, k at level 200, only parsing).

(** [try: m except (e1, ...): handler]. *)
Definition try_except {A} (m : M A) (caught : exn -> bool) (handler : M A) : M A :=
  fun w =>
    match m w with
    | (Raise e, w') => if caught e then handler w' else (Raise e, w')
    | r => r
    end.

Definition log (e : event) : M unit :=
  fun w => (Ok tt,
            {| pid := pid w; COMM_WORLD := COMM_WORLD w; heap := heap w;
               next_loc := next_loc w; _cache := _cache w; next_obj := next_obj w;
               form_caches := form_caches w; trace := trace w ++ [e]; disk := disk w |}).

Definition set_disk (d : Disk) (w : World) : World :=
  {| pid := pid w; COMM_WORLD := COMM_WORLD w; heap := heap w;
     next_loc := next_loc w; _cache := _cache w; next_obj := next_obj w;
     form_caches := form_caches w; trace := trace w; disk := d |}.

Definition set_cache (c : gmap (string + string * Z) TSFCKernel) (w : World) : World :=
  {| pid := pid w; COMM_WORLD := COMM_WORLD w; heap := heap w;
     next_loc := next_loc w; _cache := c; next_obj := next_obj w;
     form_caches := form_caches w; trace := trace w; disk := disk w |}.

Definition set_form_caches (c : gmap nat (Py.dict CompileKey (list SplitKernel)))
    (w : World) : World :=
  {| pid := pid w; COMM_WORLD := COMM_WORLD w; heap := heap w;
     next_loc := next_loc w; _cache := _cache w; next_obj := next_obj w;
     form_caches := c; trace := trace w; disk := disk w |}.

(** A new object identity. *)
Definition fresh_obj : M nat :=
  fun w => (Ok (next_obj w),
            {| pid := pid w; COMM_WORLD := COMM_WORLD w; heap := heap w;
               next_loc := next_loc w; _cache := _cache w; next_obj := S (next_obj w);
               form_caches := form_caches w; trace := trace w; disk := disk w |}).

(** A new dict object holding [d]. *)
Definition alloc (d : Py.dict string Py.value) : M nat :=
  fun w => (Ok (next_loc w),
            {| pid := pid w; COMM_WORLD := COMM_WORLD w;
               heap := <[next_loc w := d]> (heap w);
               next_loc := S (next_loc w); _cache := _cache w; next_obj := next_obj w;
               form_caches := form_caches w; trace := trace w; disk := disk w |}).

Definition deref (w : World) (l : nat) : Py.dict string Py.value :=
  default [] (heap w !! l).

Definition read (l : nat) : M (Py.dict string Py.value) :=
  fun w => (Ok (deref w l), w).

Definition write (l : nat) (d : Py.dict string Py.value) : M unit :=
  fun w => (Ok tt,
            {| pid := pid w; COMM_WORLD := COMM_WORLD w; heap := <[l := d]> (heap w);
               next_loc := next_loc w; _cache := _cache w; next_obj := next_obj w;
               form_caches := form_caches w; trace := trace w; disk := disk w |}).

Fixpoint str_take (n : nat) (s : string) : string :=
  match n, s with
  | S n', String c s' => String c (str_take n' s')
  | _, _ => EmptyString
  end.

Fixpoint str_drop (n : nat) (s : string) : string :=
  match n, s with
  | S n', String _ s' => str_drop n' s'
  | _, _ => s
  end.

(** [key[:2]] and [key[2:]]. *)
Definition shard_of (key : string) : string := str_take 2 key.
Definition disk_key_of (key : string) : string := str_drop 2 key.

Definition lookup_file (d : Disk) (shard name : string) : option File :=
  match d with
  | None => None
  | Some shards =>
      match shards !! shard with
      | None => None
      | Some files => files !! name
      end
  end.

(** [makedirs(_cachedir, exist_ok=True)]. *)
Definition make_root (d : Disk) : Disk :=
  match d with
  | None => Some ∅
  | Some shards => Some shards
  end.

(** [os.makedirs(os.path.join(_cachedir, shard), exist_ok=True)]. *)
Definition make_shard (shard : string) (d : Disk) : Disk :=
  let shards := default ∅ d in
  match shards !! shard with
  | None => Some (<[shard := ∅]> shards)
  | Some _ => Some shards
  end.

(** Creating or replacing a file of an existing shard directory. *)
Definition write_file (shard name : string) (f : File) (d : Disk) : Disk :=
  match d with
  | None => None
  | Some shards =>
      match shards !! shard with
      | None => Some shards
      | Some files => Some (<[shard := <[name := f]> files]> shards)
      end
  end.

(** [os.rename(src, dst)] inside a shard directory. *)
Definition rename_file (shard src dst : string) (d : Disk) : Disk :=
  match d with
  | None => None
  | Some shards =>
      match shards !! shard with
      | None => Some shards
      | Some files =>
          match files !! src with
          | None => Some shards
          | Some f => Some (<[shard := <[dst := f]> (delete src files)]> shards)
          end
      end
  end.

(** [shutil.rmtree(_cachedir, ignore_errors=True)] removes what the file
    system lets it remove and reports no error: a root that is a symbolic
    link, missing permissions or a busy file leave entries behind, and
    the call returns all the same.  What is left is the file system's
    decision: [None] when the whole tree is gone; the call only ever
    removes. *)
Class FileSystem := {
  rmtree : Disk -> Disk;
  rmtree_only_removes :
    forall (d : Disk) (shard name : string) (file : File),
      lookup_file (rmtree d) shard name = Some file ->
      lookup_file d shard name = Some file
}.

(** ** The cache operations of [TSFCKernel] *)

Section Interface.
Context `{Externals} `{FileSystem}.

(** [comm or COMM_WORLD]: a communicator is false when it is null. *)
Definition comm_or_world (comm : option Comm) (w : World) : Comm :=
  match comm with
  | Some c => if py2f c =? COMM_NULL_py2f then COMM_WORLD w else c
  | None => COMM_WORLD w
  end.

(** What rank 0 reads: the bytes of the entry, or [None] when the file
    is missing or its decompression raises [zlib.error], the one
    exception that [_read_from_disk] catches; any other exception of the
    read leaves the function. *)
Definition read_entry (d : Disk) (key : string) : result (option Bytes) :=
  match lookup_file d (shard_of key) (disk_key_of key) with
  | None => Ok None
  | Some (Gzip b) => Ok (Some b)
  | Some CorruptGzip => Ok None
  | Some NotGzip => Raise OSError
  | Some Truncated => Raise EOFError
  end.

(** [pickle.loads(val)]: a new object. *)
Definition pickle_loads (val : Bytes) : M TSFCKernel :=
  match val with
  | Garbage => raise UnpicklingError
  | PickleOf p =>
      let! i := fresh_obj in
      ret {| obj_id := i; _key := p_key p; _initialized := p_initialized p;
             kernels := p_kernels p |}
  end.

Definition pickle_dump (val : TSFCKernel) : Bytes :=
  PickleOf {| p_key := _key val; p_initialized := _initialized val;
              p_kernels := kernels val |}.

(** [cls._cache.setdefault(k, v)]. *)
Definition cache_setdefault (k : string + string * Z) (v : TSFCKernel) : M TSFCKernel :=
  fun w =>
    match _cache w !! k with
    | Some v' => (Ok v', w)
    | None => (Ok v, set_cache (<[k := v]> (_cache w)) w)
    end.

(** Rank 0 reads the file and broadcasts [val]; every other rank
    receives what rank 0 broadcasts, and waits for ever when rank 0
    left with an exception before the broadcast. *)
Definition _read_from_disk (key : string) (comm : Comm) : M TSFCKernel :=
  let! val :=
    (if (rank comm =? 0)%nat then
       let! _ := log (EvDiskRead key) in
       let! val := (fun w => (read_entry (disk w) key, w)) in
       let! _ := log EvBcast in
       ret val
     else
       let! _ := log EvBcast in
       fun w => (match read_entry (disk w) key with
                 | Ok val => Ok val
                 | _ => Blocked
                 end, w)) in
  match val with
  | None => raise KeyError
  | Some bytes =>
      let! obj := pickle_loads bytes in
      cache_setdefault (inl key) obj
  end.

Definition _cache_lookup (key : string * Comm) : M TSFCKernel :=
  let '(key, comm) := key in
  let commkey := py2f comm in
  if commkey =? COMM_NULL_py2f then raise AssertionError
  else
    fun w =>
      match _cache w !! inr (key, commkey) with
      | Some obj => (Ok obj, w)
      | None => _read_from_disk key comm w
      end.

Definition _ensure_cachedir (comm : option Comm) : M unit :=
  fun w =>
    if (rank (comm_or_world comm w) =? 0)%nat
    then (Ok tt, set_disk (make_root (disk w)) w)
    else (Ok tt, w).

Definition tempfile_name (key : string) (pid : nat) : string :=
  (disk_key_of key ++ "_p" ++ Py.str_int (Z.of_nat pid) ++ ".tmp")%string.

(** Stores [val] under the digest; returns the object, whose [_key]
    rank 0 has overwritten.  This is the store on a file system that
    lets it create the directories and write and rename the file, with
    every rank of the group reaching the barrier. *)
Definition _cache_store (key : string * Comm) (val : TSFCKernel) : M TSFCKernel :=
  let '(key, comm) := key in
  let! _ := (fun w => (Ok tt, set_cache (<[inl key := val]> (_cache w)) w)) in
  let! _ := _ensure_cachedir (Some comm) in
  let! val :=
    (if (rank comm =? 0)%nat then
       let val := {| obj_id := obj_id val; _key := KeyAlone key;
                     _initialized := _initialized val; kernels := kernels val |} in
       let! _ := (fun w => (Ok tt, set_cache (<[inl key := val]> (_cache w)) w)) in
       let! _ := log (EvDiskWrite key) in
       let! _ := (fun w =>
                    let tmp := tempfile_name key (pid w) in
                    let d := make_shard (shard_of key) (disk w) in
                    let d := write_file (shard_of key) tmp (Gzip (pickle_dump val)) d in
                    let d := rename_file (shard_of key) tmp (disk_key_of key) d in
                    (Ok tt, set_disk d w)) in
       ret val
     else ret val) in
  let! _ := log EvBarrier in
  ret val.

(** [clear_cache(comm)]. *)
Definition clear_cache (comm : option Comm) : M unit :=
  fun w =>
    if (rank (comm_or_world comm w) =? 0)%nat
    then _ensure_cachedir (Some (comm_or_world comm w)) (set_disk (rmtree (disk w)) w)
    else (Ok tt, w).

(** ** [TSFCKernel.__init__] and the construction [TSFCKernel(...)] *)

Fixpoint mapM {A B} (f : A -> result B) (l : list A) : result (list B) :=
  match l with
  | [] => Ok []
  | x :: l' =>
      let* y := f x in
      let* ys := mapM f l' in
      Ok (y :: ys)
  end.

(** [d[k]], raising [KeyError]. *)
Definition getitem {K V} `{EqDecision K} (d : Py.dict K V) (k : K) : result V :=
  match Py.get d k with
  | Some v => Ok v
  | None => Raise KeyError
  end.

(** The body of the loop over the kernels of [tree]. *)
Definition kernel_info (opts : Py.dict string Py.value)
    (number_map subspace_number_map : Py.dict Z Z) (kernel : TSFCKernelData)
    : result KernelInfo :=
  let* numbers := mapM (getitem number_map) (coefficient_numbers kernel) in
  let* subspace_numbers :=
    mapM (getitem subspace_number_map) (external_data_numbers kernel) in
  Ok {| kernel := {| kernel_code := ast_body kernel; kernel_name := ast_name kernel;
                     kernel_opts := opts; requires_zeroed_output_arguments := true |};
        ki_integral_type := k_integral_type kernel;
        oriented := k_oriented kernel;
        ki_subdomain_id := k_subdomain_id kernel;
        domain_number := k_domain_number kernel;
        coefficient_map := numbers;
        subspace_map := subspace_numbers;
        subspace_parts := external_data_parts kernel;
        needs_cell_facets := false;
        pass_layer_arg := false;
        needs_cell_sizes := k_needs_cell_sizes kernel |}.

Definition __init__ (self : TSFCKernel) (form : Form) (name : string) (parameters : nat)
    (number_map subspace_number_map : Py.dict Z Z) (interface : Interface)
    (coffee diagonal : bool) (idx : option (list (option Z))) : M TSFCKernel :=
  if _initialized self then ret self
  else
    let! parameters := read parameters in
    let parameters := preprocess_parameters parameters in
    let! _ := log (EvLower form name) in
    let! tree := lift (compile_local_form form name parameters interface coffee diagonal) in
    let! opts := read coffee_loc in
    let! kernels := lift (mapM (kernel_info opts number_map subspace_number_map) tree) in
    ret {| obj_id := obj_id self; _key := _key self; _initialized := true;
           kernels := kernels |}.

Definition caught_by_new (e : exn) : bool :=
  match e with
  | KeyError | OSError => true
  | _ => false
  end.

(** [TSFCKernel(form, name, ...)]: pyop2's [Cached.__new__] computes the
    key, looks it up and, on [KeyError] or [IOError], makes, initialises
    and stores a new object; Python then calls [__init__] on the result. *)
Definition new_TSFCKernel (form : Form) (name : string) (parameters : nat)
    (number_map subspace_number_map : Py.dict Z Z) (interface : Interface)
    (coffee diagonal : bool) (idx : option (list (option Z))) : M TSFCKernel :=
  let! coffee_defaults := read coffee_loc in
  let! params := read parameters in
  let! _ := log (EvCacheKey form) in
  let! key := lift (_cache_key coffee_defaults form name params number_map
                               subspace_number_map interface coffee diagonal idx) in
  let make_obj : M TSFCKernel :=
    let! i := fresh_obj in
    __init__ {| obj_id := i; _key := KeyWithComm (fst key) (snd key);
                _initialized := false; kernels := [] |}
             form name parameters number_map subspace_number_map interface
             coffee diagonal idx in
  let! obj :=
    try_except (_cache_lookup key) caught_by_new
      (let! obj := make_obj in _cache_store key obj) in
  __init__ obj form name parameters number_map subspace_number_map interface
           coffee diagonal idx.

End Interface.

(** ** [compile_form] *)

Section CompileForm.
Context `{Externals}.

(** [tuple((k, params[k]) for k in sorted(params))]. *)
Definition tuplify (params : Py.dict string Py.value) : list (string * Py.value) :=
  omap (fun k => match Py.get params k with
                 | Some v => Some (k, v)
                 | None => None
                 end)
       (Py.sorted_keys params).

Fixpoint foldM {A B} (f : B -> A -> M B) (l : list A) (b : B) : M B :=
  match l with
  | [] => ret b
  | x :: l' => let! b' := f b x in foldM f l' b'
  end.

(** [form._cache.setdefault("firedrake_kernels", {})]: the dict is
    returned by reference, so its content is read again where it is used. *)
Definition firedrake_kernels (form : FormObj) : M unit :=
  fun w =>
    match form_caches w !! form_id form with
    | Some _ => (Ok tt, w)
    | None => (Ok tt, set_form_caches (<[form_id form := []]> (form_caches w)) w)
    end.

Definition cache_of (form : FormObj) : M (Py.dict CompileKey (list SplitKernel)) :=
  fun w => (Ok (default [] (form_caches w !! form_id form)), w).

(** [cache.setdefault(key, kernels)]. *)
Definition form_cache_setdefault (form : FormObj) (key : CompileKey)
    (kernels : list SplitKernel) : M (list SplitKernel) :=
  let! cache := cache_of form in
  match Py.get cache key with
  | Some kernels' => ret kernels'
  | None =>
      fun w => (Ok kernels,
                set_form_caches (<[form_id form := Py.set cache key kernels]> (form_caches w)) w)
  end.

(** [dict((n, numbers[c]) for (n, c) in enumerate(items))]. *)
Definition renumber {A} `{EqDecision A} (numbers : Py.dict A Z) (items : list A)
    : result (Py.dict Z Z) :=
  let* pairs := mapM (fun nc => let* g := getitem numbers (snd nc) in Ok (fst nc, g))
                     (Py.enumerate items) in
  Ok (Py.of_pairs pairs).

(** [dict((c, n) for (n, c) in enumerate(items))]. *)
Definition numbering {A} `{EqDecision A} (items : list A) : Py.dict A Z :=
  Py.of_pairs (map (fun nc => (snd nc, fst nc)) (Py.enumerate items)).

(** [name + "".join(map(str, (i for i in idx if i is not None)))]. *)
Definition kernel_prefix (name : string) (idx : list (option Z)) : string :=
  (name ++ Py.join "" (map Py.str_int (omap (fun i => i) idx)))%string.

(** The body of the loop over the blocks [(idx, f)]: the [SplitKernel]s
    it appends to [kernels]. *)
Definition compile_block (form : Form) (name : string) (parameters : nat)
    (interface : Interface) (coffee diagonal : bool)
    (block : list (option Z) * Form) : M (list SplitKernel) :=
  let '(idx, f) := block in
  let coefficient_numbers := numbering (coefficients form) in
  let _subspace_numbers := numbering (extract_subspaces form) in
  let! _ := log (EvRealMangle f) in
  let! f := lift (_real_mangle f) in
  let! number_map := lift (renumber coefficient_numbers (coefficients f)) in
  let! subspace_number_map := lift (renumber _subspace_numbers (extract_subspaces f)) in
  let prefix := kernel_prefix name idx in
  let! obj := new_TSFCKernel f prefix parameters number_map subspace_number_map
                             interface coffee diagonal (Some idx) in
  let kinfos := kernels obj in
  ret (map (fun kinfo => {| indices := idx; kinfo := kinfo |}) kinfos).

Definition compile_form (form : FormObj) (name : string) (parameters : option nat)
    (split : bool) (interface : Interface) (coffee diagonal : bool)
    : M (list SplitKernel) :=
  let! defaults := read form_compiler_loc in
  let! parameters :=
    match parameters with
    | None => alloc (Py.copy defaults)
    | Some user =>
        let! parameters := alloc (Py.copy defaults) in
        let! fresh := read parameters in
        let! entries := read user in
        let! _ := write parameters (Py.update fresh entries) in
        ret parameters
    end in
  let! _ := firedrake_kernels form in
  let! cache := cache_of form in
  let! coffee_defaults := read coffee_loc in
  let! params := read parameters in
  let key : CompileKey := (tuplify coffee_defaults, name, tuplify params, split, diagonal) in
  match Py.get cache key with
  | Some kernels => ret kernels
  | None =>
      let! iterable :=
        (if split then
           let! _ := log (EvSplitForm (form_value form)) in
           lift (split_form (form_value form) diagonal)
         else
           let! a := lift (arguments (form_value form)) in
           let nargs := length a in
           if diagonal then
             if (nargs =? 2)%nat then ret [(repeat None 1, form_value form)]
             else raise AssertionError
           else ret [(repeat None nargs, form_value form)]) in
      let! kernels :=
        foldM (fun kernels block =>
                 let! split_kernels :=
                   compile_block (form_value form) name parameters interface coffee
                                 diagonal block in
                 ret (kernels ++ split_kernels)%list)
              iterable [] in
      form_cache_setdefault form key kernels
  end.

End CompileForm.

(** ** A small concrete setting: stand-ins for the external parts, one
    mesh, a few forms and an initial process state *)

Module Sample.

Fixpoint show_expr (e : Expr) : string :=
  match e with
  | IntValue z => "i" ++ Py.str_int z
  | ArgumentT a => "v_" ++ Py.str_int (Z.of_nat (number a))
  | CoefficientT c => "w_" ++ Py.str_int (Z.of_nat (count c))
  | Operator op es => op ++ "(" ++ Py.join "," (map show_expr es) ++ ")"
  end.

Definition show_integral (i : Integral) : string :=
  integral_type i ++ Py.str_int (subdomain_id i) ++ ":" ++ show_expr (integrand i).

(** The kernel of the batch that starts with integral [i]; it reads every
    coefficient of the form. *)
Definition lower (form : Form) (prefix : string) (i : Integral) : TSFCKernelData :=
  {| ast_name := prefix ++ "_" ++ integral_type i ++ "_integral_" ++ Py.str_int (subdomain_id i);
     ast_body := Py.join "; " (map show_integral (integrals form));
     k_integral_type := integral_type i;
     k_oriented := false;
     k_subdomain_id := subdomain_id i;
     k_domain_number := 0;
     coefficient_numbers := map fst (Py.enumerate (coefficients form));
     external_data_numbers := [];
     external_data_parts := [];
     k_needs_cell_sizes := false |}.

(** All integrals of the sample forms are of one type on one subdomain:
    one batch, one kernel. *)
Definition lower_form (form : Form) (prefix : string) : list TSFCKernelData :=
  match integrals form with
  | [] => []
  | i :: _ => [lower form prefix i]
  end.

(** Modelled from the spec: [split_form] of
    [firedrake/formmanipulation.py], which is not part of the sources at
    hand, on forms over spaces that are not mixed: the form is its own
    single block, with [None] in the index tuple for each argument. *)
Definition split_unmixed (form : Form) (diagonal : bool)
    : result (list (list (option Z) * Form)) :=
  let* a := arguments form in
  Ok [(repeat None (if diagonal then 1%nat else length a), form)].

#[global] Instance externals : Externals := {|
  signature := fun form => md5_hexdigest (Py.join "+" (map show_integral (integrals form)));
  COMM_NULL_py2f := 0;
  preprocess_parameters := fun parameters => parameters;
  compile_local_form := fun form prefix _ _ _ _ => Ok (lower_form form prefix);
  split_form := split_unmixed;
  extract_subspaces := fun _ => []
|}.

(** A file system on which the removal of the tree succeeds. *)
Definition file_system : FileSystem.
Proof.
  refine {| rmtree := fun _ => None |}.
  intros d shard name file E. discriminate E.
Defined.

(** A file system on which nothing can be removed, as when the cache
    root is a symbolic link. *)
Definition stuck_file_system : FileSystem :=
  {| rmtree := fun d => d;
     rmtree_only_removes := fun d shard name file E => E |}.

Definition comm0 : Comm := {| py2f := 1; rank := 0 |}.
Definition comm1 : Comm := {| py2f := 1; rank := 1 |}.
Definition mesh : Mesh := {| mesh_id := 0; comm := comm0 |}.

Definition P1 : FunctionSpace :=
  {| fs_mesh := mesh; ufl_element := {| family := "Lagrange"; degree := 1 |} |}.
Definition R : FunctionSpace :=
  {| fs_mesh := mesh; ufl_element := {| family := "Real"; degree := 0 |} |}.

Definition v : Argument := {| arg_function_space := P1; number := 0 |}.
Definition u : Argument := {| arg_function_space := P1; number := 1 |}.
Definition r : Argument := {| arg_function_space := R; number := 0 |}.
Definition f : Coefficient := {| coeff_function_space := P1; count := 0 |}.

Definition dx (e : Expr) : Integral :=
  {| integral_type := "cell"; subdomain_id := 0; ufl_domain := mesh;
     integrand := e; metadata := [] |}.

(** [inner(grad(u), grad(v))*dx - inner(f, v)*dx]. *)
Definition poisson : Form :=
  {| integrals :=
       [dx (Operator "inner" [Operator "grad" [ArgumentT u]; Operator "grad" [ArgumentT v]]);
        dx (Operator "neg" [Operator "inner" [CoefficientT f; ArgumentT v]])] |}.

(** [f*r*dx] with [r] a test function of the Real space. *)
Definition real_functional : Form :=
  {| integrals := [dx (Operator "product" [CoefficientT f; ArgumentT r])] |}.

(** [u*r*dx]: a Real test function and a trial function of [P1]. *)
Definition real_row : Form :=
  {| integrals := [dx (Operator "product" [ArgumentT u; ArgumentT r])] |}.

Definition coffee_defaults : Py.dict string Py.value :=
  [("optimise", Py.VBool false)].

Definition form_compiler_defaults : Py.dict string Py.value :=
  [("quadrature_degree", Py.VStr "auto"); ("mode", Py.VStr "vanilla");
   ("unroll_indexsum", Py.VInt 3)].

(** A process that has just imported the module: the two global dicts,
    one dict made by the caller, an empty kernel cache, no cache root. *)
Definition caller_parameters : nat := 2.

Definition world0 : World :=
  {| pid := 4242; COMM_WORLD := comm0;
     heap := <[caller_parameters := [("mode", Py.VStr "spectral")]]>
             (<[form_compiler_loc := form_compiler_defaults]>
              (<[coffee_loc := coffee_defaults]> ∅));
     next_loc := 3; _cache := ∅; next_obj := 0; form_caches := ∅;
     trace := []; disk := None |}.

Definition a_kernel_info : KernelInfo :=
  {| kernel := {| kernel_code := "body"; kernel_name := "form_cell_integral_0";
                  kernel_opts := coffee_defaults;
                  requires_zeroed_output_arguments := true |};
     ki_integral_type := "cell"; oriented := false; ki_subdomain_id := 0;
     domain_number := 0; coefficient_map := [0]; subspace_map := [];
     subspace_parts := []; needs_cell_facets := false; pass_layer_arg := false;
     needs_cell_sizes := false |}.

Definition a_digest : string := "900150983cd24fb0d6963f7d28e17f72".

(** A cache root that holds one file, the entry of [a_digest]. *)
Definition disk_with (file : File) : Disk :=
  Some {[ shard_of a_digest := {[ disk_key_of a_digest := file ]} ]}.

Definition world_with (file : File) : World := set_disk (disk_with file) world0.

Definition a_pickle : Pickled :=
  {| p_key := KeyAlone a_digest; p_initialized := true; p_kernels := [a_kernel_info] |}.

(** A kernel object made before the generator changed. *)
Definition stale_kernel_info : KernelInfo :=
  {| kernel := {| kernel_code := "stale body"; kernel_name := "form_cell_integral_0";
                  kernel_opts := coffee_defaults;
                  requires_zeroed_output_arguments := true |};
     ki_integral_type := "cell"; oriented := false; ki_subdomain_id := 0;
     domain_number := 0; coefficient_map := [0]; subspace_map := [];
     subspace_parts := []; needs_cell_facets := false; pass_layer_arg := false;
     needs_cell_sizes := false |}.

Definition stale_obj : TSFCKernel :=
  {| obj_id := 0; _key := KeyAlone a_digest; _initialized := true;
     kernels := [stale_kernel_info] |}.

(** A process that holds [stale_obj] in memory and on disk. *)
Definition world_stale : World :=
  {| pid := 4242; COMM_WORLD := comm0; heap := heap world0; next_loc := 3;
     _cache := {[ inl a_digest := stale_obj ]}; next_obj := 1; form_caches := ∅;
     trace := []; disk := disk_with (Gzip (pickle_dump stale_obj)) |}.

(** Another process on the same file system, and the object it compiles. *)
Definition other_world : World :=
  {| pid := 4343; COMM_WORLD := comm0; heap := heap world0; next_loc := 3;
     _cache := ∅; next_obj := 1; form_caches := ∅; trace := []; disk := None |}.

Definition new_obj : TSFCKernel :=
  {| obj_id := 0; _key := KeyWithComm a_digest comm0; _initialized := true;
     kernels := [a_kernel_info] |}.

Definition poisson_obj : FormObj := {| form_id := 7; form_value := poisson |}.
Definition real_functional_obj : FormObj := {| form_id := 8; form_value := real_functional |}.

(** Two dicts with the same entries, made in different orders. *)
Definition number_map_01 : list (Z * Z) := [(0, 0); (1, 1)].
Definition number_map_10 : list (Z * Z) := [(1, 1); (0, 0)].

Definition parameters_a : list (string * Py.value) :=
  [("mode", Py.VStr "spectral"); ("quadrature_degree", Py.VInt 4)].
Definition parameters_b : list (string * Py.value) :=
  [("quadrature_degree", Py.VInt 4); ("mode", Py.VStr "spectral")].

(** The two builder classes of TSFC. *)
Definition coffee_builder : Interface :=
  BuilderClass "tsfc.kernel_interface.firedrake.KernelBuilder".
Definition loopy_builder : Interface :=
  BuilderClass "tsfc.kernel_interface.firedrake_loopy.KernelBuilder".

End Sample.

(** * The vocabulary of the properties *)

(** Every occurrence of an argument in the integrands. *)
Definition occurring_arguments (form : Form) : list Argument :=
  flat_map (fun i => expr_arguments (integrand i)) (integrals form).

(** Substitution leaves no Real argument when every argument that occurs
    is either mapped to an expression without Real arguments or is not
    Real itself. *)
Definition clears (m : Py.dict Argument Expr) (a : Argument) : Prop :=
  match Py.get m a with
  | Some e' => forall x, In x (expr_arguments e') -> is_real x = false
  | None => is_real a = false
  end.

(** [steps Q w w']: from [w] to [w'] the trace grew by events that
    satisfy [Q], and the dict objects and the caches kept on the forms
    are as they were. *)
Record steps (Q : event -> Prop) (w w' : World) : Prop := {
  steps_trace : exists evs, trace w' = (trace w ++ evs)%list /\ List.Forall Q evs;
  steps_heap : heap w' = heap w;
  steps_next_loc : next_loc w' = next_loc w;
  steps_form_caches : form_caches w' = form_caches w;
  steps_pid : pid w' = pid w;
  steps_comm_world : COMM_WORLD w' = COMM_WORLD w
}.

Definition runs {A} (Q : event -> Prop) (m : M A) : Prop :=
  forall w, steps Q w (snd (m w)).

(** The events of the kernel cache and of lowering, for the form [f]. *)
Definition kernel_event (f : Form) (e : event) : Prop :=
  match e with
  | EvSplitForm _ | EvRealMangle _ => False
  | EvCacheKey f' | EvLower f' _ => f' = f
  | _ => True
  end.

(** The parameters in effect: a copy of the [form_compiler] defaults,
    updated with the caller's entries. *)
Definition effective_parameters (w : World) (parameters : option nat)
    : Py.dict string Py.value :=
  match parameters with
  | None => Py.copy (deref w form_compiler_loc)
  | Some user => Py.update (Py.copy (deref w form_compiler_loc)) (deref w user)
  end.

(** The state in which the key is looked up: the new dict is allocated
    and the form has its ["firedrake_kernels"] dict. *)
Definition entered (form : FormObj) (parameters : option nat) (w : World) : World :=
  {| pid := pid w; COMM_WORLD := COMM_WORLD w;
     heap := <[next_loc w := effective_parameters w parameters]> (heap w);
     next_loc := S (next_loc w); _cache := _cache w; next_obj := next_obj w;
     form_caches :=
       match form_caches w !! form_id form with
       | Some _ => form_caches w
       | None => <[form_id form := []]> (form_caches w)
       end;
     trace := trace w; disk := disk w |}.

Definition compile_key `{Externals} (w : World) (name : string) (parameters : option nat)
    (split diagonal : bool) : CompileKey :=
  (tuplify (deref w coffee_loc), name, tuplify (effective_parameters w parameters),
   split, diagonal).

(** The dict that the form keeps under ["firedrake_kernels"]. *)
Definition kernels_on (form : FormObj) (w : World) : Py.dict CompileKey (list SplitKernel) :=
  default [] (form_caches w !! form_id form).

(** The blocks that are compiled. *)
Definition blocks_of `{Externals} (form : Form) (split diagonal : bool)
    : M (list (list (option Z) * Form)) :=
  if split then
    let! _ := log (EvSplitForm form) in
    lift (split_form form diagonal)
  else
    let! a := lift (arguments form) in
    let nargs := length a in
    if diagonal then
      if (nargs =? 2)%nat then ret [(repeat None 1, form)]
      else raise AssertionError
    else ret [(repeat None nargs, form)].

Definition compile_blocks `{Externals} (form : Form) (name : string) (parameters : nat)
    (interface : Interface) (coffee diagonal : bool)
    (iterable : list (list (option Z) * Form)) : M (list SplitKernel) :=
  foldM (fun kernels block =>
           let! split_kernels :=
             compile_block form name parameters interface coffee diagonal block in
           ret (kernels ++ split_kernels)%list)
        iterable [].

(** A dict object that exists in [w]. *)
Definition allocated (w : World) (l : nat) : Prop := (l < next_loc w)%nat.

Definition any_event (e : event) : Prop := True.

(** The events of compiling a list of blocks: for each block, in order,
    [_real_mangle] is applied to the block as it came from the splitter,
    and the events of the kernel cache and of the lowering that follow
    are about the mangled block. *)
Inductive block_trace : list (list (option Z) * Form) -> list event -> Prop :=
| block_trace_nil : block_trace [] []
| block_trace_cons idx f f' rest blocks evs :
    _real_mangle f = Ok f' ->
    List.Forall (kernel_event f') rest ->
    block_trace blocks evs ->
    block_trace ((idx, f) :: blocks) (EvRealMangle f :: rest ++ evs)%list.

(** The loop over the blocks, step by step, from the state [w] to the
    state [w'] with the kernels it appends: each block [(idx, f)] is
    mangled as it came from the splitter; the two number maps are built
    from the coefficients and the subspaces of the mangled block; and
    the kernel object is constructed (cache key, lookup, lowering) from
    the mangled block and these maps. *)
Inductive blocks_compiled `{Externals} (form : Form) (name : string) (parameters : nat)
    (interface : Interface) (coffee diagonal : bool)
    : list (list (option Z) * Form) -> World -> list SplitKernel -> World -> Prop :=
| blocks_compiled_nil w :
    blocks_compiled form name parameters interface coffee diagonal [] w [] w
| blocks_compiled_cons idx f f' number_map subspace_number_map obj w w1 blocks ks w2 :
    _real_mangle f = Ok f' ->
    renumber (numbering (coefficients form)) (coefficients f') = Ok number_map ->
    renumber (numbering (extract_subspaces form)) (extract_subspaces f')
    = Ok subspace_number_map ->
    new_TSFCKernel f' (kernel_prefix name idx) parameters number_map subspace_number_map
                   interface coffee diagonal (Some idx) (snd (log (EvRealMangle f) w))
    = (Ok obj, w1) ->
    blocks_compiled form name parameters interface coffee diagonal blocks w1 ks w2 ->
    blocks_compiled form name parameters interface coffee diagonal ((idx, f) :: blocks) w
      (map (fun kinfo => {| indices := idx; kinfo := kinfo |}) (kernels obj) ++ ks)%list w2.

(** The characters of the unquoted tokens: digits, the minus sign and
    the letters. *)
Definition token_char (c : ascii) : bool :=
  let n := nat_of_ascii c in
  ((48 <=? n) && (n <=? 57) || (n =? 45) || (65 <=? n) && (n <=? 90)
   || (97 <=? n) && (n <=? 122))%nat.

Fixpoint all_chars (P : ascii -> bool) (s : string) : bool :=
  match s with
  | EmptyString => true
  | String c s' => P c && all_chars P s'
  end.

(** What follows a token: nothing, or a character that is not of a token. *)
Definition ends_token (r : string) : bool :=
  match r with
  | EmptyString => true
  | String c _ => negb (token_char c)
  end.

(** What follows an item: the comma of the separator or the closing bracket. *)
Definition after_item (close : ascii) (r : string) : Prop :=
  exists r0, r = String ","%char r0 \/ r = String close r0.

(** One entry of the [str] of a number map. *)
Definition int_pair_item (kv : Z * Z) : string :=
  (Py.str_int (fst kv) ++ ": " ++ Py.str_int (snd kv))%string.

Definition all_ascii : list ascii := map ascii_of_nat (seq 0 256).

Definition is_quote (q : ascii) : Prop := q = Py.squote \/ q = Py.dquote.

(** The values whose [repr] is an unquoted token. *)
Definition is_atom (v : Py.value) : Prop :=
  match v with
  | Py.VStr _ => False
  | _ => True
  end.

(** The order of [sorted] on items with distinct keys. *)
Definition key_lt {V : Type} (a b : string * V) : Prop :=
  String.ltb (fst a) (fst b) = true.

(** ** The vocabulary of the further properties *)

(** The store after process [pid] has published [file] under [key]:
    the root and the shard directory exist, the file was written under
    its temporary name and renamed into place. *)
Definition published (key : string) (pid : nat) (file : File) (d : Disk) : Disk :=
  rename_file (shard_of key) (tempfile_name key pid) (disk_key_of key)
    (write_file (shard_of key) (tempfile_name key pid) file
       (make_shard (shard_of key) (make_root d))).

(** The object as rank 0 pickles it: [_key] is the digest alone. *)
Definition with_digest_key (key : string) (val : TSFCKernel) : TSFCKernel :=
  {| obj_id := obj_id val; _key := KeyAlone key; _initialized := _initialized val;
     kernels := kernels val |}.

(** [pickle.loads(pickle.dumps(val))] as the object number [i]. *)
Definition reloaded (i : nat) (val : TSFCKernel) : TSFCKernel :=
  {| obj_id := i; _key := _key val; _initialized := _initialized val;
     kernels := kernels val |}.

(** A call that did not return: it raised, or it waits for ever. *)
Definition failed {A} (r : result A) : Prop :=
  match r with
  | Ok _ => False
  | _ => True
  end.

(** What [__init__] computes for a new object: the lowering of the form
    and, from the kernels of the tree, the [KernelInfo]s. *)
Definition kernel_infos `{Externals} (w : World) (form : Form) (name : string)
    (parameters : nat) (number_map subspace_number_map : Py.dict Z Z)
    (interface : Interface) (coffee diagonal : bool) : result (list KernelInfo) :=
  let* tree := compile_local_form form name (preprocess_parameters (deref w parameters))
                                  interface coffee diagonal in
  mapM (kernel_info (deref w coffee_loc) number_map subspace_number_map) tree.

(** The state after the events [evs] have been recorded. *)
Definition logged (evs : list event) (w : World) : World :=
  {| pid := pid w; COMM_WORLD := COMM_WORLD w; heap := heap w;
     next_loc := next_loc w; _cache := _cache w; next_obj := next_obj w;
     form_caches := form_caches w; trace := trace w ++ evs; disk := disk w |}.

(** [globals] is [tuple(number_map[c] for c in locals)]. *)
Definition unwinds (number_map : Py.dict Z Z) (locals globals : list Z) : Prop :=
  Forall2 (fun n g => Py.get number_map n = Some g) locals globals.

(** The [KernelInfo] made from the kernel [k] of the tree. *)
Definition wraps (opts : Py.dict string Py.value) (number_map subspace_number_map : Py.dict Z Z)
    (k : TSFCKernelData) (ki : KernelInfo) : Prop :=
  kernel_name (kernel ki) = ast_name k
  /\ kernel_code (kernel ki) = ast_body k
  /\ kernel_opts (kernel ki) = opts
  /\ unwinds number_map (coefficient_numbers k) (coefficient_map ki)
  /\ unwinds subspace_number_map (external_data_numbers k) (subspace_map ki)
  /\ subspace_parts ki = external_data_parts k.

(** The kernels of a list of blocks: one group for each block, in the
    order of the blocks, every kernel of a group carrying the index
    tuple of its block. *)
Definition grouped (blocks : list (list (option Z) * Form)) (kernels : list SplitKernel)
    : Prop :=
  exists groups,
    Forall2 (fun block group => List.Forall (fun sk => indices sk = fst block) group)
            blocks groups
    /\ kernels = concat groups.

(** A process in which two callers hold dicts with the same entries,
    filled in different orders. *)
Definition world_two_callers : World :=
  snd (alloc Sample.parameters_b
         (snd (write Sample.caller_parameters Sample.parameters_a Sample.world0))).

Definition second_caller_parameters : nat := 3.

(** The form without integrals. *)
Definition empty_form_obj : FormObj := {| form_id := 9; form_value := {| integrals := [] |} |}.

(** The characters of a hexadecimal digest: a digit or a letter from a to f. *)
Definition hex_char (c : ascii) : bool :=
  let n := nat_of_ascii c in
  ((48 <=? n) && (n <=? 57) || (97 <=? n) && (n <=? 102))%nat.

(** A computation that leaves the entries of the kernel cache under the
    (digest, communicator) keys, the keys that [_cache_lookup] probes, as
    they are. *)
Definition keeps_probed_keys {A} (m : M A) : Prop :=
  forall w k, _cache (snd (m w)) !! inr k = _cache w !! inr k.

(** * Properties *)

(** ** The monads *)

Lemma mapM_in {A B} (f : A -> result B) (l : list A) (l' : list B) (y : B) :
  mapM f l = Ok l' -> In y l' -> exists x, In x l /\ f x = Ok y.
Proof.
  revert l'. induction l as [|x l IH]; intros l' Hm Hy; simpl in Hm.
  - inversion Hm; subst. destruct Hy.
  - destruct (f x) as [b| |] eqn:Hfx; simpl in Hm; try discriminate.
    destruct (mapM f l) as [bs| |] eqn:Hl; simpl in Hm; try discriminate.
    inversion Hm; subst. destruct Hy as [->|Hy].
    + exists x. split; [now left | exact Hfx].
    + destruct (IH bs eq_refl Hy) as (x' & Hin & Hx'). exists x'. split; [now right | exact Hx'].
Qed.

(** ** [TSFCKernel.__init__]: the two constant flags *)

Lemma kernel_info_flags opts number_map subspace_number_map kernel ki :
  kernel_info opts number_map subspace_number_map kernel = Ok ki ->
  needs_cell_facets ki = false /\ pass_layer_arg ki = false.
Proof.
  unfold kernel_info. intros Hk.
  destruct (mapM (getitem number_map) (coefficient_numbers kernel)); simpl in Hk; try discriminate.
  destruct (mapM (getitem subspace_number_map) (external_data_numbers kernel));
    simpl in Hk; try discriminate.
  inversion Hk; subst. simpl. split; reflexivity.
Qed.

(** C9. Whatever the form, the parameters, the number maps, the
    interface and the backend, and whatever kernels the lowering returns,
    every [KernelInfo] that [__init__] puts into a not yet initialised
    object has [needs_cell_facets] and [pass_layer_arg] equal to [False]. *)
Theorem init_flags_are_false `{Externals} (self : TSFCKernel) (form : Form)
    (name : string) (parameters : nat) (number_map subspace_number_map : Py.dict Z Z)
    (interface : Interface) (coffee diagonal : bool) (idx : option (list (option Z)))
    (w w' : World) (obj : TSFCKernel) (ki : KernelInfo) :
  _initialized self = false ->
  __init__ self form name parameters number_map subspace_number_map interface
           coffee diagonal idx w = (Ok obj, w') ->
  In ki (kernels obj) ->
  needs_cell_facets ki = false /\ pass_layer_arg ki = false.
Proof.
  intros Hinit Hrun Hin. unfold __init__ in Hrun. rewrite Hinit in Hrun.
  unfold mbind, read, log, lift, ret in Hrun. simpl in Hrun.
  destruct (compile_local_form form name _ interface coffee diagonal) as [tree| |];
    try discriminate.
  destruct (mapM _ tree) as [ks| |] eqn:Hks; try discriminate.
  inversion Hrun; subst; clear Hrun. simpl in Hin.
  destruct (mapM_in _ _ _ _ Hks Hin) as (k & _ & Hk).
  eapply kernel_info_flags; eauto.
Qed.

Lemma init_flags_are_false_witness :
  exists obj w',
    __init__ {| obj_id := 0; _key := KeyAlone Sample.a_digest; _initialized := false;
                kernels := [] |}
             Sample.poisson "form" form_compiler_loc [(0, 0)] [] NoInterface
             false false None Sample.world0 = (Ok obj, w')
    /\ Forall (fun ki => needs_cell_facets ki = false /\ pass_layer_arg ki = false)
              (kernels obj).
Proof.
  eexists. eexists. split; [vm_compute; reflexivity|].
  apply List.Forall_forall. intros ki Hin.
  apply (@init_flags_are_false Sample.externals
           {| obj_id := 0; _key := KeyAlone Sample.a_digest; _initialized := false;
              kernels := [] |}
           Sample.poisson "form" form_compiler_loc [(0, 0)] [] NoInterface
           false false None Sample.world0 _ _ ki eq_refl
           ltac:(vm_compute; reflexivity) Hin).
Defined.

(** ** Real-space mangling *)

(** Induction on expressions, with the operands of an operator covered. *)
Lemma Expr_nested_ind (P : Expr -> Prop) :
  (forall z, P (IntValue z)) ->
  (forall a, P (ArgumentT a)) ->
  (forall c, P (CoefficientT c)) ->
  (forall op es, List.Forall P es -> P (Operator op es)) ->
  forall e, P e.
Proof.
  intros P_int P_arg P_coeff P_op. fix IH 1. intros [z|a|c|op es].
  - apply P_int.
  - apply P_arg.
  - apply P_coeff.
  - apply P_op. induction es as [|e' es IHes]; constructor; [apply IH | exact IHes].
Qed.

Lemma in_insert_by {A} (key : A -> nat) (x y : A) (l : list A) :
  In x (insert_by key y l) <-> x = y \/ In x l.
Proof.
  induction l as [|z l IH]; simpl.
  - intuition congruence.
  - destruct (key y <? key z)%nat; simpl; rewrite ?IH; intuition congruence.
Qed.

Lemma in_sort_by {A} (key : A -> nat) (x : A) (l : list A) :
  In x (sort_by key l) <-> In x l.
Proof.
  induction l as [|y l IH]; simpl; [reflexivity|].
  rewrite in_insert_by, IH. intuition congruence.
Qed.

Lemma arguments_complete (form : Form) (a : list Argument) (x : Argument) :
  arguments form = Ok a -> In x (occurring_arguments form) -> In x a.
Proof.
  unfold arguments. intros Ha Hx.
  destruct (decide _); [|discriminate]. inversion Ha; subst.
  apply in_sort_by. apply list_elem_of_In, elem_of_remove_dups, list_elem_of_In. exact Hx.
Qed.

Lemma replace_expr_no_real (m : Py.dict Argument Expr) (e : Expr) :
  (forall a, In a (expr_arguments e) -> clears m a) ->
  forall x, In x (expr_arguments (replace_expr m e)) -> is_real x = false.
Proof.
  induction e as [z|a|c|op es IH] using Expr_nested_ind; intros Hm x Hx; simpl in *.
  - destruct Hx.
  - specialize (Hm a (or_introl eq_refl)). unfold clears in Hm.
    destruct (Py.get m a) as [e'|]; [now apply Hm|].
    simpl in Hx. destruct Hx as [<-|[]]. exact Hm.
  - destruct Hx.
  - apply in_flat_map in Hx. destruct Hx as (e' & He' & Hx).
    apply in_map_iff in He'. destruct He' as (e0 & <- & He0).
    rewrite List.Forall_forall in IH. apply (IH e0 He0); [|exact Hx].
    intros a Ha. apply Hm. apply in_flat_map. exists e0. split; assumption.
Qed.

Lemma replace_no_real (m : Py.dict Argument Expr) (form : Form) :
  (forall a, In a (occurring_arguments form) -> clears m a) ->
  forall x, In x (occurring_arguments (replace form m)) -> is_real x = false.
Proof.
  unfold occurring_arguments, replace. simpl. intros Hm x Hx.
  apply in_flat_map in Hx. destruct Hx as (i' & Hi' & Hx).
  apply in_map_iff in Hi'. destruct Hi' as (i & <- & Hi). simpl in Hx.
  apply (replace_expr_no_real m (integrand i)); [|exact Hx].
  intros a Ha. apply Hm. apply in_flat_map. exists i. split; assumption.
Qed.

(** C7. A form whose only argument is in the Real space is passed on as
    the form with the literal 1 substituted for that argument.  A form
    whose two arguments are a Real test function and a trial function
    that is not Real is passed on with 1 for the first and a test
    function on the space of the second; no argument of a Real space
    occurs in the form that is passed on. *)
Theorem real_mangle_substitutes (form : Form) :
  (forall a0,
      arguments form = Ok [a0] -> is_real a0 = true ->
      _real_mangle form = Ok (replace form [(a0, IntValue 1)]))
  /\
  (forall a0 a1,
      arguments form = Ok [a0; a1] -> is_real a0 = true -> is_real a1 = false ->
      _real_mangle form =
        Ok (replace form [(a0, IntValue 1);
                          (a1, ArgumentT (TestFunction (arg_function_space a1)))])
      /\ forall form' x,
          _real_mangle form = Ok form' ->
          In x (occurring_arguments form') -> is_real x = false).
Proof.
  split.
  - intros a0 Ha Hr. unfold _real_mangle, real_replacements. rewrite Ha. simpl.
    rewrite !Hr. simpl.
    destruct (decide ([true] = [true; false])) as [E|_]; [discriminate E|]. reflexivity.
  - intros a0 a1 Ha Hr0 Hr1.
    assert (Hne : a0 <> a1) by (intros ->; congruence).
    assert (Hrun : _real_mangle form =
                   Ok (replace form [(a0, IntValue 1);
                                     (a1, ArgumentT (TestFunction (arg_function_space a1)))])).
    { unfold _real_mangle, real_replacements. rewrite Ha. simpl.
      rewrite !Hr0, !Hr1. simpl.
      destruct (decide ([true; false] = [true; false])) as [_|E]; [|now destruct E].
      simpl. destruct (decide (a0 = a1)); [contradiction|]. reflexivity. }
    split; [exact Hrun|].
    intros form' x Hform' Hx. rewrite Hrun in Hform'. inversion Hform'; subst form'.
    revert x Hx. apply replace_no_real. intros a Hin.
    pose proof (arguments_complete form _ a Ha Hin) as Hcases.
    unfold clears. simpl in Hcases |- *.
    destruct Hcases as [<-|[<-|[]]].
    + destruct (decide (a0 = a0)); [|congruence]. simpl. intros x [].
    + destruct (decide (a0 = a1)); [contradiction|].
      destruct (decide (a1 = a1)); [|congruence].
      simpl. intros x [<-|[]]. exact Hr1.
Qed.

Lemma real_mangle_substitutes_witness :
  _real_mangle Sample.real_functional
  = Ok (replace Sample.real_functional [(Sample.r, IntValue 1)])
  /\ _real_mangle Sample.real_row
     = Ok (replace Sample.real_row
             [(Sample.r, IntValue 1);
              (Sample.u, ArgumentT (TestFunction (arg_function_space Sample.u)))])
  /\ forall x,
       In x (occurring_arguments
               (replace Sample.real_row
                  [(Sample.r, IntValue 1);
                   (Sample.u, ArgumentT (TestFunction (arg_function_space Sample.u)))])) ->
       is_real x = false.
Proof.
  split; [|split].
  - apply (proj1 (real_mangle_substitutes Sample.real_functional) Sample.r);
      vm_compute; reflexivity.
  - apply (proj2 (real_mangle_substitutes Sample.real_row) Sample.r Sample.u);
      vm_compute; reflexivity.
  - intros x.
    apply (proj2 (proj2 (real_mangle_substitutes Sample.real_row) Sample.r Sample.u
                        ltac:(vm_compute; reflexivity) eq_refl eq_refl)).
    vm_compute; reflexivity.
Defined.

(** ** What a run leaves alone *)

Lemma steps_refl Q w : steps Q w w.
Proof.
  split; try reflexivity. exists []. split; [now rewrite app_nil_r | constructor].
Qed.

Lemma steps_trans Q w1 w2 w3 : steps Q w1 w2 -> steps Q w2 w3 -> steps Q w1 w3.
Proof.
  intros [(e1 & T1 & F1) H1 N1 C1 P1 W1] [(e2 & T2 & F2) H2 N2 C2 P2 W2].
  split; try congruence.
  exists (e1 ++ e2)%list. split.
  - rewrite T2, T1. now rewrite <- app_assoc.
  - apply List.Forall_app. split; assumption.
Qed.

Lemma steps_weaken (Q Q' : event -> Prop) w w' :
  (forall e, Q e -> Q' e) -> steps Q w w' -> steps Q' w w'.
Proof.
  intros HQ [(e & T & F) ? ? ? ? ?]. split; try assumption.
  exists e. split; [exact T|]. eapply List.Forall_impl; eauto.
Qed.

Lemma runs_ret {A} Q (a : A) : runs Q (ret a).
Proof. intros w. apply steps_refl. Qed.

Lemma runs_raise {A} Q e : runs Q (@raise A e).
Proof. intros w. apply steps_refl. Qed.

Lemma runs_lift {A} Q (r : result A) : runs Q (lift r).
Proof. intros w. apply steps_refl. Qed.

Lemma runs_read Q l : runs Q (read l).
Proof. intros w. apply steps_refl. Qed.

Lemma runs_pure {A} Q (g : World -> result A) : runs Q (fun w => (g w, w)).
Proof. intros w. apply steps_refl. Qed.

Lemma runs_bind {A B} Q (m : M A) (k : A -> M B) :
  runs Q m -> (forall a, runs Q (k a)) -> runs Q (mbind m k).
Proof.
  intros Hm Hk w. unfold mbind. specialize (Hm w).
  destruct (m w) as [[a|e|] w1]; simpl in *; try exact Hm.
  eapply steps_trans; [exact Hm | apply Hk].
Qed.

Lemma runs_try {A} Q (m : M A) caught (handler : M A) :
  runs Q m -> runs Q handler -> runs Q (try_except m caught handler).
Proof.
  intros Hm Hh w. unfold try_except. specialize (Hm w).
  destruct (m w) as [[a|e|] w1]; simpl in *; try exact Hm.
  destruct (caught e); [|exact Hm].
  eapply steps_trans; [exact Hm | apply Hh].
Qed.

Lemma runs_log (Q : event -> Prop) e : Q e -> runs Q (log e).
Proof.
  intros He w. split; try reflexivity. exists [e]. split; [reflexivity|].
  constructor; [exact He | constructor].
Qed.

Lemma runs_fresh_obj Q : runs Q fresh_obj.
Proof.
  intros w. split; try reflexivity. exists []. split; [simpl; now rewrite app_nil_r | constructor].
Qed.

Lemma steps_set_cache Q c w : steps Q w (set_cache c w).
Proof.
  split; try reflexivity. exists []. split; [simpl; now rewrite app_nil_r | constructor].
Qed.

Lemma steps_set_disk Q d w : steps Q w (set_disk d w).
Proof.
  split; try reflexivity. exists []. split; [simpl; now rewrite app_nil_r | constructor].
Qed.

Lemma runs_weaken {A} (Q Q' : event -> Prop) (m : M A) :
  (forall e, Q e -> Q' e) -> runs Q m -> runs Q' m.
Proof. intros HQ Hm w. eapply steps_weaken; eauto. Qed.

Ltac runs_step :=
  first [ apply runs_ret | apply runs_raise | apply runs_lift | apply runs_read
        | apply runs_fresh_obj | apply runs_pure
        | apply runs_log; simpl; solve [auto]
        | apply runs_bind; [|intros ?] ].

Section Runs.
Context `{Externals}.

Lemma runs_pickle_loads Q val : runs Q (pickle_loads val).
Proof. destruct val; unfold pickle_loads; repeat runs_step. Qed.

Lemma runs_cache_setdefault Q k v : runs Q (cache_setdefault k v).
Proof.
  intros w. unfold cache_setdefault. destruct (_cache w !! k); simpl;
    [apply steps_refl | apply steps_set_cache].
Qed.

Lemma runs_read_from_disk f key comm : runs (kernel_event f) (_read_from_disk key comm).
Proof.
  unfold _read_from_disk. apply runs_bind.
  - destruct (rank comm =? 0)%nat; repeat runs_step.
  - intros [bytes|]; [|runs_step].
    apply runs_bind; [apply runs_pickle_loads | intros; apply runs_cache_setdefault].
Qed.

Lemma runs_cache_lookup f key : runs (kernel_event f) (_cache_lookup key).
Proof.
  destruct key as [key comm]. unfold _cache_lookup.
  destruct (py2f comm =? COMM_NULL_py2f); [runs_step|].
  intros w. destruct (_cache w !! inr (key, py2f comm)); simpl;
    [apply steps_refl | apply runs_read_from_disk].
Qed.

Lemma runs_ensure_cachedir Q comm : runs Q (_ensure_cachedir comm).
Proof.
  intros w. unfold _ensure_cachedir.
  destruct (rank (comm_or_world comm w) =? 0)%nat; simpl;
    [apply steps_set_disk | apply steps_refl].
Qed.

Lemma runs_cache_store f key val : runs (kernel_event f) (_cache_store key val).
Proof.
  destruct key as [key comm]. unfold _cache_store.
  apply runs_bind; [intros w; apply steps_set_cache | intros _].
  apply runs_bind; [apply runs_ensure_cachedir | intros _].
  apply runs_bind; [|intros ?; repeat runs_step].
  destruct (rank comm =? 0)%nat; [|runs_step].
  apply runs_bind; [intros w; apply steps_set_cache | intros _].
  apply runs_bind; [runs_step | intros _].
  apply runs_bind; [intros w; apply steps_set_disk | intros _]. runs_step.
Qed.

Lemma runs_init self f name parameters nm snm interface coffee diagonal idx :
  runs (kernel_event f)
       (__init__ self f name parameters nm snm interface coffee diagonal idx).
Proof.
  unfold __init__. destruct (_initialized self); repeat runs_step.
Qed.

Lemma runs_new_TSFCKernel f name parameters nm snm interface coffee diagonal idx :
  runs (kernel_event f)
       (new_TSFCKernel f name parameters nm snm interface coffee diagonal idx).
Proof.
  unfold new_TSFCKernel. repeat runs_step.
  - apply runs_try; [apply runs_cache_lookup|].
    apply runs_bind; [|intros ?; apply runs_cache_store].
    apply runs_bind; [runs_step | intros ?; apply runs_init].
  - apply runs_init.
Qed.

End Runs.

(** ** The kernel cache: lookups, corrupt entries, clearing *)

Section Cache.
Context `{Externals}.

(** A lookup that misses the in-memory table reads the disk. *)
Lemma cache_lookup_miss key comm w :
  py2f comm <> COMM_NULL_py2f ->
  _cache w !! inr (key, py2f comm) = None ->
  _cache_lookup (key, comm) w = _read_from_disk key comm w.
Proof.
  intros Hnull Hmiss. unfold _cache_lookup.
  destruct (Z.eqb_spec (py2f comm) COMM_NULL_py2f); [contradiction|].
  now rewrite Hmiss.
Qed.

(** No operation of the cache ever stores under a (digest, communicator)
    key: lookups and stores only add digest keys. *)
Lemma read_from_disk_pair_keys key comm w k :
  _cache (snd (_read_from_disk key comm w)) !! inr k = _cache w !! inr k.
Proof.
  unfold _read_from_disk, mbind, log, ret, raise.
  destruct (rank comm =? 0)%nat; simpl;
    destruct (read_entry (disk w) key) as [[[p|]|]| |]; simpl; try reflexivity;
    unfold cache_setdefault; simpl;
    match goal with
    | |- context [?c !! inl key] => destruct (c !! inl key) eqn:E
    end; simpl; try reflexivity; rewrite lookup_insert_ne by discriminate; reflexivity.
Qed.

Lemma cache_lookup_pair_keys key w k :
  _cache (snd (_cache_lookup key w)) !! inr k = _cache w !! inr k.
Proof.
  destruct key as [key comm]. unfold _cache_lookup.
  destruct (py2f comm =? COMM_NULL_py2f); [reflexivity|].
  destruct (_cache w !! inr (key, py2f comm)); [reflexivity|].
  apply read_from_disk_pair_keys.
Qed.

(** After a lookup that missed the in-memory table, whatever it found,
    the next lookup of the same key reads the disk again. *)
Lemma lookup_twice_reads_twice key comm w :
  py2f comm <> COMM_NULL_py2f ->
  _cache w !! inr (key, py2f comm) = None ->
  _cache_lookup (key, comm) (snd (_cache_lookup (key, comm) w))
  = _read_from_disk key comm (snd (_cache_lookup (key, comm) w)).
Proof.
  intros Hnull Hmiss. apply cache_lookup_miss; [exact Hnull|].
  rewrite cache_lookup_pair_keys. exact Hmiss.
Qed.

(** The decompression failure that [_read_from_disk] handles: when the
    in-memory table misses and reading the file of the digest raises
    [zlib.error], the lookup raises [KeyError] on every rank, touches
    neither the table nor the disk, and the [try] of the constructor
    runs its handler, the fresh compilation. *)
Lemma corrupt_entry_is_a_miss (key : string) (comm : Comm) (w : World) :
  py2f comm <> COMM_NULL_py2f ->
  _cache w !! inr (key, py2f comm) = None ->
  lookup_file (disk w) (shard_of key) (disk_key_of key) = Some CorruptGzip ->
  exists w',
    _cache_lookup (key, comm) w = (Raise KeyError, w')
    /\ _cache w' = _cache w /\ disk w' = disk w
    /\ forall handler,
        try_except (_cache_lookup (key, comm)) caught_by_new handler w = handler w'.
Proof.
  intros Hnull Hmiss Hfile.
  assert (Hrun : exists w', _cache_lookup (key, comm) w = (Raise KeyError, w')
                            /\ _cache w' = _cache w /\ disk w' = disk w).
  { rewrite cache_lookup_miss by assumption.
    unfold _read_from_disk, mbind, log, ret, raise, read_entry.
    destruct (rank comm =? 0)%nat; simpl; rewrite Hfile; simpl;
      eexists; (split; [reflexivity|]); split; reflexivity. }
  destruct Hrun as (w' & Hrun & Hc & Hd). exists w'. repeat split; try assumption.
  intros handler. unfold try_except. rewrite Hrun. reflexivity.
Qed.

End Cache.

Lemma corrupt_entry_is_a_miss_at_sample :
  exists w',
    _cache_lookup (Sample.a_digest, Sample.comm1) (Sample.world_with CorruptGzip)
    = (Raise KeyError, w')
    /\ _cache w' = _cache (Sample.world_with CorruptGzip)
    /\ disk w' = disk (Sample.world_with CorruptGzip).
Proof.
  destruct (@corrupt_entry_is_a_miss Sample.externals Sample.a_digest Sample.comm1
              (Sample.world_with CorruptGzip)) as (w' & Hrun & Hmem & Hdisk & _).
  - vm_compute. discriminate.
  - vm_compute. reflexivity.
  - vm_compute. reflexivity.
  - exists w'. auto.
Qed.

(** C4. Not every file that fails to decompress is treated as absent:
    [_read_from_disk] catches [zlib.error] alone.  Reading an entry that
    was cut off before its end raises [EOFError]; rank 0 leaves the
    lookup with it before the broadcast, so the other ranks of the group
    wait in theirs, and the constructor, which falls back to compiling
    on [KeyError] and [IOError] only, raises it too: nothing is lowered. *)
Theorem truncated_entry_is_fatal :
  let key := digest Sample.coffee_defaults Sample.poisson "form"
                    [("mode", Py.VStr "spectral")] [(0, 0)] [] NoInterface true false None in
  let w := set_disk (Some {[ shard_of key := {[ disk_key_of key := Truncated ]} ]})
                    Sample.world0 in
  let run := new_TSFCKernel Sample.poisson "form" Sample.caller_parameters [(0, 0)] []
                            NoInterface true false None w in
  _cache_key Sample.coffee_defaults Sample.poisson "form" (deref w Sample.caller_parameters)
             [(0, 0)] [] NoInterface true false None = Ok (key, Sample.comm0)
  /\ lookup_file (disk w) (shard_of key) (disk_key_of key) = Some Truncated
  /\ fst (_cache_lookup (key, Sample.comm0) w) = Raise EOFError
  /\ fst (_cache_lookup (key, Sample.comm1) w) = Blocked
  /\ caught_by_new EOFError = false
  /\ fst run = Raise EOFError
  /\ trace (snd run) = [EvCacheKey Sample.poisson; EvDiskRead key]
  /\ _cache (snd run) = ∅.
Proof. vm_compute. repeat split; reflexivity. Qed.

(** C3. The entry found on disk is put into the in-memory table under the
    digest alone, while the table is probed with the pair of the digest
    and the communicator handle: the next lookup of the same pair misses
    the table and reads the disk once more. *)
Theorem disk_hit_is_read_again :
  let key := (Sample.a_digest, Sample.comm0) in
  let w0 := Sample.world_with (Gzip (PickleOf Sample.a_pickle)) in
  let first := _cache_lookup key w0 in
  let second := _cache_lookup key (snd first) in
  let loaded := {| obj_id := 0; _key := KeyAlone Sample.a_digest; _initialized := true;
                   kernels := [Sample.a_kernel_info] |} in
  fst first = Ok loaded
  /\ _cache (snd first) !! inl Sample.a_digest = Some loaded
  /\ _cache (snd first) !! inr (Sample.a_digest, py2f Sample.comm0) = None
  /\ trace (snd first) = [EvDiskRead Sample.a_digest; EvBcast]
  /\ fst second = Ok loaded
  /\ trace (snd second)
     = [EvDiskRead Sample.a_digest; EvBcast; EvDiskRead Sample.a_digest; EvBcast].
Proof. vm_compute. repeat split; reflexivity. Qed.

(** C6, as the claim states it, fails twice over.  A process holds an
    entry in memory, clears the cache, another process on the same file
    system publishes the digest again, and the next lookup of the first
    process returns the entry its table held before the clear.  And on a
    file system that does not let the tree be removed, [clear_cache]
    returns normally with the entry still on disk. *)
Lemma lookup_after_clear_returns_old_entry :
  let key := (Sample.a_digest, Sample.comm0) in
  let cleared :=
    snd (@clear_cache Sample.externals Sample.file_system None Sample.world_stale) in
  let published :=
    snd (_cache_store key Sample.new_obj (set_disk (disk cleared) Sample.other_world)) in
  let after := _cache_lookup key (set_disk (disk published) cleared) in
  let stuck := @clear_cache Sample.externals Sample.stuck_file_system None Sample.world_stale in
  _cache Sample.world_stale !! inl Sample.a_digest = Some Sample.stale_obj
  /\ disk cleared = Some ∅
  /\ lookup_file (disk published) (shard_of Sample.a_digest) (disk_key_of Sample.a_digest)
     = Some (Gzip (PickleOf Sample.a_pickle))
  /\ fst after = Ok Sample.stale_obj
  /\ fst stuck = Ok tt
  /\ lookup_file (disk (snd stuck)) (shard_of Sample.a_digest) (disk_key_of Sample.a_digest)
     = Some (Gzip (pickle_dump Sample.stale_obj)).
Proof. vm_compute. repeat split; reflexivity. Qed.

Lemma lookup_make_root (d : option (gmap string (gmap string File))) (shard name : string) :
  lookup_file (make_root d) shard name = lookup_file d shard name.
Proof. destruct d; reflexivity. Qed.

(** C6, amended. [clear_cache] returns normally and leaves the in-memory
    table as it was.  On the root process the cache root exists
    afterwards and holds what the removal of the tree has left, so no
    entry that was not there before; when the removal succeeds, the root
    is an empty directory.  On any other rank nothing changes. *)
Theorem clear_cache_drops_the_disk_store `{Externals} `{FileSystem}
    (comm : option Comm) (w : World) :
  exists w',
    clear_cache comm w = (Ok tt, w')
    /\ _cache w' = _cache w
    /\ (rank (comm_or_world comm w) = 0%nat ->
        disk w' = make_root (rmtree (disk w))
        /\ disk w' <> None
        /\ (forall shard name file,
              lookup_file (disk w') shard name = Some file ->
              lookup_file (disk w) shard name = Some file)
        /\ (rmtree (disk w) = None ->
            disk w' = Some ∅
            /\ forall shard name, lookup_file (disk w') shard name = None))
    /\ (rank (comm_or_world comm w) <> 0%nat -> w' = w).
Proof.
  unfold clear_cache, _ensure_cachedir.
  destruct (Nat.eqb_spec (rank (comm_or_world comm w)) 0) as [Hroot|Hother].
  - assert (Hsame : comm_or_world (Some (comm_or_world comm w))
                                  (set_disk (rmtree (disk w)) w) = comm_or_world comm w).
    { unfold comm_or_world. simpl.
      destruct comm as [c|]; [destruct (py2f c =? COMM_NULL_py2f) eqn:E|]; simpl;
        rewrite ?E; try reflexivity;
        now destruct (py2f (COMM_WORLD w) =? COMM_NULL_py2f). }
    rewrite Hsame, Hroot. eexists. split; [reflexivity|]. cbn [snd set_disk _cache disk].
    split; [reflexivity|]. split; [|intros Hne; now destruct Hne]. intros _.
    split; [reflexivity|]. split; [now destruct (rmtree (disk w))|]. split.
    + intros shard name file. rewrite lookup_make_root. apply rmtree_only_removes.
    + intros Hgone. rewrite Hgone. split; reflexivity.
  - eexists. split; [reflexivity|]. split; [reflexivity|].
    split; [intros Hroot; contradiction | reflexivity].
Qed.

Lemma clear_cache_drops_the_disk_store_witness :
  exists w',
    @clear_cache Sample.externals Sample.file_system None Sample.world_stale = (Ok tt, w')
    /\ _cache w' = _cache Sample.world_stale
    /\ disk w' = Some ∅
    /\ forall shard name, lookup_file (disk w') shard name = None.
Proof.
  destruct (@clear_cache_drops_the_disk_store Sample.externals Sample.file_system None
              Sample.world_stale)
    as (w' & Hrun & Hmem & Hroot & _).
  exists w'. split; [exact Hrun|]. split; [exact Hmem|].
  apply Hroot; reflexivity.
Defined.

(** ** [compile_form] *)

Section CompileFormFacts.
Context `{Externals}.

Lemma deref_entered form parameters w l :
  allocated w l -> deref (entered form parameters w) l = deref w l.
Proof.
  unfold allocated, deref, entered. simpl. intros Hl.
  rewrite lookup_insert_ne by lia. reflexivity.
Qed.

Lemma deref_entered_new form parameters w :
  deref (entered form parameters w) (next_loc w) = effective_parameters w parameters.
Proof. unfold deref, entered. simpl. now rewrite lookup_insert_eq. Qed.

(** Entering gives a form that has no dict yet an empty one. *)
Lemma cache_entered form parameters w :
  kernels_on form (entered form parameters w) = kernels_on form w.
Proof.
  unfold kernels_on, entered. simpl.
  destruct (form_caches w !! form_id form) eqn:E; [now rewrite E|].
  now rewrite lookup_insert_eq.
Qed.

(** [compile_form] unfolded: enter, look the key up, and on a miss split,
    compile the blocks and store the result on the form. *)
Lemma compile_form_unfold form name parameters split interface coffee diagonal w :
  allocated w coffee_loc -> allocated w form_compiler_loc ->
  (forall user, parameters = Some user -> allocated w user) ->
  compile_form form name parameters split interface coffee diagonal w
  = let w1 := entered form parameters w in
    let key := compile_key w name parameters split diagonal in
    match Py.get (default [] (form_caches w1 !! form_id form)) key with
    | Some kernels => (Ok kernels, w1)
    | None =>
        mbind (blocks_of (form_value form) split diagonal)
              (fun iterable =>
                 mbind (compile_blocks (form_value form) name (next_loc w) interface
                                       coffee diagonal iterable)
                       (form_cache_setdefault form key)) w1
    end.
Proof.
  intros Hc Hf Hu. unfold compile_form, compile_key.
  assert (Hstate :
    forall {A} (k : nat -> M A),
      mbind (read form_compiler_loc)
            (fun defaults =>
               mbind match parameters with
                     | None => alloc (Py.copy defaults)
                     | Some user =>
                         let! parameters := alloc (Py.copy defaults) in
                         let! fresh := read parameters in
                         let! entries := read user in
                         let! _ := write parameters (Py.update fresh entries) in
                         ret parameters
                     end
                     (fun p => mbind (firedrake_kernels form) (fun _ => k p))) w
      = k (next_loc w) (entered form parameters w)).
  { intros A k. unfold mbind, read, alloc, write, ret, firedrake_kernels. simpl.
    destruct parameters as [user|]; simpl.
    - specialize (Hu user eq_refl). unfold allocated in Hu.
      unfold entered, effective_parameters, set_form_caches, deref. simpl.
      rewrite lookup_insert_eq. rewrite lookup_insert_ne by lia. simpl.
      rewrite insert_insert_eq.
      destruct (form_caches w !! form_id form); reflexivity.
    - unfold entered, effective_parameters, set_form_caches. simpl.
      destruct (form_caches w !! form_id form); reflexivity. }
  rewrite Hstate. cbv zeta.
  unfold mbind at 1, cache_of at 1. simpl.
  unfold mbind at 1, read at 1. simpl.
  unfold mbind at 1, read at 1. simpl.
  rewrite deref_entered by assumption. rewrite deref_entered_new.
  destruct (Py.get _ _); reflexivity.
Qed.

End CompileFormFacts.

Section CompileFormRuns.
Context `{Externals}.

Lemma runs_blocks_of form split diagonal : runs any_event (blocks_of form split diagonal).
Proof.
  unfold blocks_of. destruct split.
  - apply runs_bind; [apply runs_log; exact I | intros; apply runs_lift].
  - apply runs_bind; [apply runs_lift | intros a].
    destruct diagonal; [destruct (length a =? 2)%nat|]; runs_step.
Qed.

Lemma kernel_event_any f e : kernel_event f e -> any_event e.
Proof. intros _. exact I. Qed.

Lemma runs_compile_block form name parameters interface coffee diagonal block :
  runs any_event (compile_block form name parameters interface coffee diagonal block).
Proof.
  destruct block as [idx f]. unfold compile_block.
  apply runs_bind; [apply runs_log; exact I | intros _].
  apply runs_bind; [apply runs_lift | intros f'].
  apply runs_bind; [apply runs_lift | intros nm].
  apply runs_bind; [apply runs_lift | intros snm].
  apply runs_bind; [|intros; apply runs_ret].
  eapply runs_weaken; [apply kernel_event_any | apply runs_new_TSFCKernel].
Qed.

Lemma runs_foldM {A B} Q (g : B -> A -> M B) (l : list A) (b : B) :
  (forall b x, runs Q (g b x)) -> runs Q (foldM g l b).
Proof.
  intros Hg. revert b. induction l as [|x l IH]; intros b; simpl.
  - apply runs_ret.
  - apply runs_bind; [apply Hg | intros b'; apply IH].
Qed.

Lemma runs_compile_blocks form name parameters interface coffee diagonal iterable :
  runs any_event (compile_blocks form name parameters interface coffee diagonal iterable).
Proof.
  unfold compile_blocks. apply runs_foldM. intros kernels block.
  apply runs_bind; [apply runs_compile_block | intros; apply runs_ret].
Qed.

Lemma get_set {K V} `{EqDecision K} (d : Py.dict K V) (k k' : K) (v : V) :
  Py.get (Py.set d k v) k' = if decide (k = k') then Some v else Py.get d k'.
Proof.
  induction d as [|[k0 v0] d IH]; simpl.
  - destruct (decide (k = k')); reflexivity.
  - destruct (decide (k0 = k)) as [->|Hne]; simpl.
    + destruct (decide (k = k')); reflexivity.
    + destruct (decide (k0 = k')) as [->|Hne'].
      * destruct (decide (k = k')); [congruence | reflexivity].
      * exact IH.
Qed.

Lemma get_not_in {K V} `{EqDecision K} (d : Py.dict K V) (k : K) :
  k ∉ Py.keys d -> Py.get d k = None.
Proof.
  induction d as [|[k0 v0] d IH]; simpl; [reflexivity|]. intros Hk.
  apply not_elem_of_cons in Hk. destruct Hk as [Hne Hk].
  destruct (decide (k0 = k)); [congruence|]. apply IH. exact Hk.
Qed.

(** The entries of the caller win over the defaults. *)
Lemma get_update {K V} `{EqDecision K} (d u : Py.dict K V) (k : K) :
  Py.wf_dict u ->
  Py.get (Py.update d u) k
  = match Py.get u k with
    | Some v => Some v
    | None => Py.get d k
    end.
Proof.
  unfold Py.update, Py.wf_dict. revert d.
  induction u as [|[k1 v1] u IH]; intros d Hwf; simpl; [reflexivity|].
  inversion Hwf as [|? ? Hnotin Hwf']; subst. rewrite (IH _ Hwf').
  destruct (decide (k1 = k)) as [->|Hne].
  - rewrite (get_not_in u k Hnotin). rewrite get_set.
    destruct (decide (k = k)); [reflexivity | congruence].
  - destruct (Py.get u k); [reflexivity|]. rewrite get_set.
    destruct (decide (k1 = k)); [congruence | reflexivity].
Qed.

(** What a call of [compile_form] does to the state. *)
Lemma compile_form_effect form name parameters split interface coffee diagonal w r w' :
  allocated w coffee_loc -> allocated w form_compiler_loc ->
  (forall user, parameters = Some user -> allocated w user) ->
  compile_form form name parameters split interface coffee diagonal w = (r, w') ->
  heap w' = <[next_loc w := effective_parameters w parameters]> (heap w)
  /\ next_loc w' = S (next_loc w)
  /\ (forall kernels,
        r = Ok kernels ->
        exists cache,
          form_caches w' !! form_id form = Some cache
          /\ Py.get cache (compile_key w name parameters split diagonal) = Some kernels).
Proof.
  intros Hc Hf Hu Hrun. rewrite compile_form_unfold in Hrun by assumption.
  cbv zeta in Hrun.
  set (w1 := entered form parameters w) in *.
  set (key := compile_key w name parameters split diagonal) in *.
  assert (Hcache : exists cache, form_caches w1 !! form_id form = Some cache).
  { unfold w1, entered. simpl. destruct (form_caches w !! form_id form) eqn:E.
    - eexists; exact E.
    - rewrite lookup_insert_eq. eexists; reflexivity. }
  destruct Hcache as (cache & Hcache). rewrite Hcache in Hrun. simpl in Hrun.
  destruct (Py.get cache key) as [ks|] eqn:Hget.
  - inversion Hrun; subst. repeat split; try reflexivity.
    intros kernels [= <-]. exists cache. split; assumption.
  - unfold mbind at 1 in Hrun.
    pose proof (runs_blocks_of (form_value form) split diagonal w1) as S1.
    destruct (blocks_of (form_value form) split diagonal w1) as [[iterable|e|] w2];
      simpl in S1.
    2,3: inversion Hrun; subst; destruct S1 as [_ Hh Hn _ _ _];
         rewrite Hh, Hn; repeat split; try reflexivity; intros ? [=].
    unfold mbind at 1 in Hrun.
    pose proof (runs_compile_blocks (form_value form) name (next_loc w) interface coffee
                                    diagonal iterable w2) as S2.
    destruct (compile_blocks (form_value form) name (next_loc w) interface coffee
                             diagonal iterable w2) as [[ks|e|] w3]; simpl in S2.
    2,3: inversion Hrun; subst; destruct S1 as [_ Hh1 Hn1 _ _ _];
         destruct S2 as [_ Hh2 Hn2 _ _ _];
         rewrite Hh2, Hn2, Hh1, Hn1; repeat split; try reflexivity; intros ? [=].
    destruct S1 as [_ Hh1 Hn1 Hc1 _ _]. destruct S2 as [_ Hh2 Hn2 Hc2 _ _].
    unfold form_cache_setdefault, mbind, cache_of in Hrun. simpl in Hrun.
    rewrite Hc2, Hc1, Hcache in Hrun. simpl in Hrun. rewrite Hget in Hrun.
    unfold ret in Hrun. inversion Hrun; subst. simpl.
    rewrite Hh2, Hn2, Hh1, Hn1. repeat split; try reflexivity.
    intros kernels [= <-]. eexists. split; [rewrite Hc2, Hc1; apply lookup_insert_eq|].
    rewrite get_set. destruct (decide (key = key)); [reflexivity | congruence].
Qed.

End CompileFormRuns.

Section CompileFormClaims.
Context `{Externals}.

(** C10. Whatever [compile_form] does afterwards, and however it ends,
    every dict that existed before the call, the caller's among them, is
    as it was; the parameters in effect are a new dict, the copy of the
    [form_compiler] defaults updated with the caller's entries, in which
    the caller's value wins for a key that both define. *)
Theorem compile_form_keeps_caller_parameters (form : FormObj) (name : string)
    (user : nat) (split : bool) (interface : Interface) (coffee diagonal : bool)
    (w w' : World) (r : result (list SplitKernel)) :
  allocated w coffee_loc -> allocated w form_compiler_loc -> allocated w user ->
  Py.wf_dict (deref w user) ->
  compile_form form name (Some user) split interface coffee diagonal w = (r, w') ->
  (forall l, allocated w l -> heap w' !! l = heap w !! l)
  /\ deref w' user = deref w user
  /\ ~ allocated w (next_loc w)
  /\ deref w' (next_loc w)
     = Py.update (Py.copy (deref w form_compiler_loc)) (deref w user)
  /\ forall k,
      Py.get (deref w' (next_loc w)) k
      = match Py.get (deref w user) k with
        | Some v => Some v
        | None => Py.get (deref w form_compiler_loc) k
        end.
Proof.
  intros Hc Hf Hu Hwf Hrun.
  destruct (compile_form_effect form name (Some user) split interface coffee diagonal
              w r w' Hc Hf) as (Hheap & _ & _); [now intros ? [= <-] | exact Hrun |].
  assert (Hold : forall l, allocated w l -> heap w' !! l = heap w !! l).
  { intros l Hl. unfold allocated in Hl. rewrite Hheap.
    rewrite lookup_insert_ne by lia. reflexivity. }
  assert (Hnew : deref w' (next_loc w)
                 = Py.update (Py.copy (deref w form_compiler_loc)) (deref w user)).
  { unfold deref at 1. rewrite Hheap, lookup_insert_eq. reflexivity. }
  split; [exact Hold|]. split; [unfold deref; now rewrite Hold|].
  split; [unfold allocated; lia|]. split; [exact Hnew|].
  intros k. rewrite Hnew. apply get_update. exact Hwf.
Qed.


End CompileFormClaims.

Lemma compile_form_keeps_caller_parameters_witness :
  let run := compile_form Sample.poisson_obj "form" (Some Sample.caller_parameters) true
                          NoInterface false false Sample.world0 in
  deref (snd run) Sample.caller_parameters = [("mode", Py.VStr "spectral")]
  /\ deref (snd run) (next_loc Sample.world0)
     = [("quadrature_degree", Py.VStr "auto"); ("mode", Py.VStr "spectral");
        ("unroll_indexsum", Py.VInt 3)].
Proof.
  destruct (@compile_form_keeps_caller_parameters Sample.externals Sample.poisson_obj
              "form" Sample.caller_parameters true NoInterface false false
              Sample.world0 _ _
              ltac:(vm_compute; lia) ltac:(vm_compute; lia) ltac:(vm_compute; lia)
              ltac:(vm_compute; repeat constructor; set_solver)
              (surjective_pairing _))
    as (_ & Hkept & _ & Hnew & _).
  cbv zeta. rewrite Hkept, Hnew. split; vm_compute; reflexivity.
Defined.


(** ** Where the Real-space substitution happens *)

Section MangleAfterSplit.
Context `{Externals}.

Lemma compile_block_trace form name parameters interface coffee diagonal idx f w ks w1 :
  compile_block form name parameters interface coffee diagonal (idx, f) w = (Ok ks, w1) ->
  exists f' rest,
    _real_mangle f = Ok f'
    /\ trace w1 = (trace w ++ EvRealMangle f :: rest)%list
    /\ List.Forall (kernel_event f') rest.
Proof.
  unfold compile_block. unfold mbind at 1. unfold log at 1. cbn [fst snd].
  unfold mbind at 1. unfold lift at 1.
  destruct (_real_mangle f) as [f'| |] eqn:Hf; try discriminate.
  unfold mbind at 1. unfold lift at 1.
  destruct (renumber _ (coefficients f')) as [nm| |]; try discriminate.
  unfold mbind at 1. unfold lift at 1.
  destruct (renumber _ (extract_subspaces f')) as [snm| |]; try discriminate.
  unfold mbind at 1.
  match goal with
  | |- context [new_TSFCKernel ?a ?b ?c ?d ?e ?g ?h ?i ?j ?w0] =>
      pose proof (runs_new_TSFCKernel a b c d e g h i j w0) as Hsteps;
      destruct (new_TSFCKernel a b c d e g h i j w0) as [[obj|e'|] w2]
  end; try discriminate.
  unfold ret. intros [= <- <-]. destruct Hsteps as [(rest & Ht & Hq) _ _ _ _ _].
  simpl in Ht. exists f', rest. split; [reflexivity|]. split; [|exact Hq].
  rewrite Ht. rewrite <- app_assoc. reflexivity.
Qed.

Lemma foldM_block_trace form name parameters interface coffee diagonal blocks :
  forall acc w ks w',
    foldM (fun kernels block =>
             let! split_kernels :=
               compile_block form name parameters interface coffee diagonal block in
             ret (kernels ++ split_kernels)%list)
          blocks acc w = (Ok ks, w') ->
    exists evs, trace w' = (trace w ++ evs)%list /\ block_trace blocks evs.
Proof.
  induction blocks as [|[idx f] blocks IH]; intros acc w ks w' Hrun; cbn [foldM] in Hrun.
  - unfold ret in Hrun. inversion Hrun; subst. exists [].
    split; [now rewrite app_nil_r | constructor].
  - unfold mbind at 1 in Hrun. unfold mbind at 1 in Hrun.
    destruct (compile_block form name parameters interface coffee diagonal (idx, f) w)
      as [[sk|e|] w1] eqn:Hblock; try discriminate.
    unfold ret at 1 in Hrun.
    destruct (compile_block_trace _ _ _ _ _ _ _ _ _ _ _ Hblock) as (f' & rest & Hf & Ht & Hq).
    destruct (IH _ _ _ _ Hrun) as (evs & Ht' & Hb).
    exists (EvRealMangle f :: rest ++ evs)%list. split.
    + rewrite Ht', Ht. rewrite <- app_assoc. reflexivity.
    + econstructor; eassumption.
Qed.

Lemma compile_block_run form name parameters interface coffee diagonal idx f w ks w1 :
  compile_block form name parameters interface coffee diagonal (idx, f) w = (Ok ks, w1) ->
  exists f' number_map subspace_number_map obj,
    _real_mangle f = Ok f'
    /\ renumber (numbering (coefficients form)) (coefficients f') = Ok number_map
    /\ renumber (numbering (extract_subspaces form)) (extract_subspaces f')
       = Ok subspace_number_map
    /\ new_TSFCKernel f' (kernel_prefix name idx) parameters number_map subspace_number_map
                      interface coffee diagonal (Some idx) (snd (log (EvRealMangle f) w))
       = (Ok obj, w1)
    /\ ks = map (fun kinfo => {| indices := idx; kinfo := kinfo |}) (kernels obj).
Proof.
  unfold compile_block. unfold mbind at 1. unfold log at 1. cbn [fst snd].
  unfold mbind at 1. unfold lift at 1.
  destruct (_real_mangle f) as [f'| |] eqn:Hf; try discriminate.
  unfold mbind at 1. unfold lift at 1.
  destruct (renumber _ (coefficients f')) as [nm| |] eqn:Hnm; try discriminate.
  unfold mbind at 1. unfold lift at 1.
  destruct (renumber _ (extract_subspaces f')) as [snm| |] eqn:Hsnm; try discriminate.
  unfold mbind at 1.
  match goal with
  | |- context [new_TSFCKernel ?a ?b ?c ?d ?e ?g ?h ?i ?j ?w0] =>
      destruct (new_TSFCKernel a b c d e g h i j w0) as [[obj|e'|] w2] eqn:Hnew
  end; try discriminate.
  unfold ret. intros [= <- <-]. exists f', nm, snm, obj.
  repeat match goal with |- _ /\ _ => split end; try reflexivity; assumption.
Qed.

Lemma foldM_blocks_compiled form name parameters interface coffee diagonal blocks :
  forall acc w ks w',
    foldM (fun kernels block =>
             let! split_kernels :=
               compile_block form name parameters interface coffee diagonal block in
             ret (kernels ++ split_kernels)%list)
          blocks acc w = (Ok ks, w') ->
    exists ks',
      blocks_compiled form name parameters interface coffee diagonal blocks w ks' w'
      /\ ks = (acc ++ ks')%list.
Proof.
  induction blocks as [|[idx f] blocks IH]; intros acc w ks w' Hrun; cbn [foldM] in Hrun.
  - unfold ret in Hrun. inversion Hrun; subst. exists [].
    split; [constructor | now rewrite app_nil_r].
  - unfold mbind at 1 in Hrun. unfold mbind at 1 in Hrun.
    destruct (compile_block form name parameters interface coffee diagonal (idx, f) w)
      as [[sk|e|] w1] eqn:Hblock; try discriminate.
    unfold ret at 1 in Hrun.
    destruct (compile_block_run _ _ _ _ _ _ _ _ _ _ _ Hblock)
      as (f' & nm & snm & obj & Hf & Hnm & Hsnm & Hnew & ->).
    destruct (IH _ _ _ _ Hrun) as (ks' & Hrest & ->).
    eexists. split; [econstructor; eassumption|]. now rewrite <- app_assoc.
Qed.

(** C8, amended. A call of [compile_form] that is not served from the
    cache on the form and returns has split the form first, as the
    caller gave it (without splitting the form is the one block), and
    has then gone through the blocks the splitter returned, in their
    order: each block is mangled, the number maps of its coefficients
    and subspaces are built from the mangled block, and the kernel
    object is constructed, which is where the cache key is derived and
    the block is lowered, from the mangled block and these maps.  The
    trace shows the order: the split, then for each block its mangling
    followed by events of the kernel cache and of the lowering that are
    about the mangled block. *)
Theorem mangle_follows_split (form : FormObj) (name : string)
    (parameters : option nat) (split : bool) (interface : Interface)
    (coffee diagonal : bool) (w w' : World) (kernels : list SplitKernel) :
  allocated w coffee_loc -> allocated w form_compiler_loc ->
  (forall user, parameters = Some user -> allocated w user) ->
  Py.get (kernels_on form w) (compile_key w name parameters split diagonal) = None ->
  compile_form form name parameters split interface coffee diagonal w = (Ok kernels, w') ->
  exists blocks w1 w2 evs,
    (if split
     then split_form (form_value form) diagonal = Ok blocks
          /\ w1 = snd (log (EvSplitForm (form_value form)) (entered form parameters w))
     else map snd blocks = [form_value form] /\ w1 = entered form parameters w)
    /\ blocks_compiled (form_value form) name (next_loc w) interface coffee diagonal
                       blocks w1 kernels w2
    /\ trace w2 = (trace w1 ++ evs)%list
    /\ block_trace blocks evs
    /\ trace w' = trace w2.
Proof.
  intros Hc Hf Hu Hmiss Hrun. rewrite compile_form_unfold in Hrun by assumption.
  cbv zeta in Hrun. fold (kernels_on form (entered form parameters w)) in Hrun.
  rewrite cache_entered, Hmiss in Hrun.
  unfold mbind at 1 in Hrun.
  pose proof (runs_blocks_of (form_value form) split diagonal (entered form parameters w))
    as S1.
  destruct (blocks_of (form_value form) split diagonal (entered form parameters w))
    as [[blocks|e|] w1] eqn:Hblocks; try discriminate. simpl in S1.
  unfold mbind at 1 in Hrun.
  pose proof (runs_compile_blocks (form_value form) name (next_loc w) interface coffee
                                  diagonal blocks w1) as S2.
  unfold compile_blocks in Hrun, S2.
  match type of Hrun with
  | context [foldM ?g blocks [] w1] =>
      destruct (foldM g blocks [] w1) as [[ks|e|] w2] eqn:Hfold
  end; try discriminate. simpl in S2.
  destruct (foldM_block_trace _ _ _ _ _ _ _ _ _ _ _ Hfold) as (evs & Ht2 & Hb).
  destruct (foldM_blocks_compiled _ _ _ _ _ _ _ _ _ _ _ Hfold) as (ks' & Hcompiled & Hks).
  simpl in Hks. subst ks'.
  assert (Hlast : kernels = ks /\ trace w' = trace w2).
  { unfold form_cache_setdefault, mbind, cache_of, ret in Hrun. simpl in Hrun.
    destruct S1 as [_ _ _ Hc1 _ _]. destruct S2 as [_ _ _ Hc2 _ _].
    rewrite Hc2, Hc1 in Hrun. fold (kernels_on form (entered form parameters w)) in Hrun.
    rewrite cache_entered, Hmiss in Hrun. inversion Hrun; subst. split; reflexivity. }
  destruct Hlast as [-> Ht3].
  exists blocks, w1, w2, evs.
  split; [|repeat match goal with |- _ /\ _ => split end; assumption].
  unfold blocks_of in Hblocks. destruct split.
  - unfold mbind, log, lift in Hblocks. simpl in Hblocks.
    destruct (split_form (form_value form) diagonal) as [bs| |];
      inversion Hblocks; subst. split; reflexivity.
  - unfold mbind, lift in Hblocks.
    destruct (arguments (form_value form)); try discriminate.
    destruct diagonal; [destruct (length a =? 2)%nat|];
      inversion Hblocks; subst; split; reflexivity.
Qed.

End MangleAfterSplit.

(** C8, as the claim states it, fails: the splitter is given the form
    with its Real test function still in place, and the substitution is
    made afterwards, on the block the splitter returned. *)
Lemma split_sees_the_unmangled_form :
  let run := compile_form Sample.real_functional_obj "form" None true NoInterface
                          false false Sample.world0 in
  let mangled := replace Sample.real_functional [(Sample.r, IntValue 1)] in
  (exists kernels, fst run = Ok kernels)
  /\ firstn 3 (trace (snd run))
     = [EvSplitForm Sample.real_functional; EvRealMangle Sample.real_functional;
        EvCacheKey mangled]
  /\ _real_mangle Sample.real_functional = Ok mangled
  /\ mangled <> Sample.real_functional
  /\ In Sample.r (occurring_arguments Sample.real_functional)
  /\ is_real Sample.r = true.
Proof.
  cbv zeta. split; [eexists; vm_compute; reflexivity|].
  split; [vm_compute; reflexivity|]. split; [vm_compute; reflexivity|].
  split; [vm_compute; discriminate|]. split; [vm_compute; auto | reflexivity].
Qed.

Lemma mangle_follows_split_witness :
  let run := compile_form Sample.real_functional_obj "form" None true NoInterface
                          false false Sample.world0 in
  exists kernels blocks w1 w2 evs,
    fst run = Ok kernels
    /\ split_form Sample.real_functional false = Ok blocks
    /\ blocks_compiled Sample.real_functional "form" (next_loc Sample.world0) NoInterface
                       false false blocks w1 kernels w2
    /\ trace w2 = (trace w1 ++ evs)%list
    /\ block_trace blocks evs
    /\ trace (snd run) = trace w2.
Proof.
  cbv zeta.
  destruct (compile_form Sample.real_functional_obj "form" None true NoInterface
                         false false Sample.world0) as [r w'] eqn:Hrun.
  assert (Hok : exists kernels, r = Ok kernels).
  { apply (f_equal fst) in Hrun. vm_compute in Hrun. subst r. eexists. reflexivity. }
  destruct Hok as (kernels & ->).
  destruct (@mangle_follows_split Sample.externals Sample.real_functional_obj "form" None
              true NoInterface false false Sample.world0 w' kernels
              ltac:(vm_compute; lia) ltac:(vm_compute; lia)
              ltac:(intros ? [=]) ltac:(vm_compute; reflexivity) Hrun)
    as (blocks & w1 & w2 & evs & [Hsplit _] & Hcompiled & Ht & Hb & Hlast).
  exists kernels, blocks, w1, w2, evs.
  repeat match goal with |- _ /\ _ => split end; try assumption. reflexivity.
Defined.

(** ** Strings: cancellation and tokens *)

#[local] Arguments String.append !_ _ / : simpl nomatch.

Lemma append_nil_r (s : string) : (s ++ "")%string = s.
Proof. induction s as [|c s IH]; simpl; congruence. Qed.

Lemma append_assoc (a b c : string) : ((a ++ b) ++ c)%string = (a ++ (b ++ c))%string.
Proof. induction a as [|x a IH]; simpl; congruence. Qed.

Lemma append_length (a b : string) :
  String.length (a ++ b) = (String.length a + String.length b)%nat.
Proof. induction a as [|x a IH]; simpl; congruence. Qed.

Lemma append_inv_head (s a b : string) : (s ++ a)%string = (s ++ b)%string -> a = b.
Proof. induction s as [|c s IH]; simpl; [auto | intros [= E]; auto]. Qed.

Lemma append_inv_tail (t a b : string) : (a ++ t)%string = (b ++ t)%string -> a = b.
Proof.
  revert b. induction a as [|x a IH]; intros [|y b] E; simpl in E.
  - reflexivity.
  - apply (f_equal String.length) in E. simpl in E. rewrite append_length in E. lia.
  - apply (f_equal String.length) in E. simpl in E. rewrite append_length in E. lia.
  - injection E as -> E. f_equal. apply IH. exact E.
Qed.

(** A token is read off the front of a string in one way only. *)
Lemma token_unique (a b r r' : string) :
  all_chars token_char a = true -> all_chars token_char b = true ->
  ends_token r = true -> ends_token r' = true ->
  (a ++ r)%string = (b ++ r')%string -> a = b /\ r = r'.
Proof.
  revert b. induction a as [|x a IH]; intros [|y b] Ha Hb Hr Hr' E; simpl in *.
  - auto.
  - subst r. simpl in Hr. apply andb_true_iff in Hb. destruct Hb as [Hy _].
    rewrite Hy in Hr. discriminate.
  - subst r'. simpl in Hr'. apply andb_true_iff in Ha. destruct Ha as [Hx _].
    rewrite Hx in Hr'. discriminate.
  - injection E as -> E. apply andb_true_iff in Ha, Hb.
    destruct Ha as [_ Ha]. destruct Hb as [_ Hb].
    destruct (IH b Ha Hb Hr Hr' E) as [-> ->]. auto.
Qed.

Lemma uint_token (d : Decimal.uint) : all_chars token_char (NilEmpty.string_of_uint d) = true.
Proof. induction d; simpl; try rewrite IHd; reflexivity. Qed.

Lemma str_int_token (z : Z) : all_chars token_char (Py.str_int z) = true.
Proof.
  unfold Py.str_int, NilZero.string_of_int, NilZero.string_of_uint.
  destruct (Z.to_int z) as [d|d]; destruct d; simpl; rewrite ?uint_token; reflexivity.
Qed.

Lemma to_int_nonnil (z : Z) : Z.to_int z <> Decimal.Pos Decimal.Nil /\ Z.to_int z <> Decimal.Neg Decimal.Nil.
Proof.
  destruct z as [|p|p]; simpl; split; try discriminate; intros [= E];
    apply (DecimalPos.Unsigned.to_uint_nonnil p); exact E.
Qed.

Lemma str_int_parse (z : Z) : NilZero.int_of_string (Py.str_int z) = Some (Z.to_int z).
Proof.
  unfold Py.str_int. destruct (to_int_nonnil z). now apply NilZero.isi.
Qed.

Lemma str_int_inj (x y : Z) : Py.str_int x = Py.str_int y -> x = y.
Proof.
  intros E. apply DecimalZ.to_int_inj.
  pose proof (str_int_parse x) as Hx. rewrite E, str_int_parse in Hx. congruence.
Qed.

(** An int followed by a separator is read in one way only. *)
Lemma str_int_delimited (x y : Z) (r r' : string) :
  ends_token r = true -> ends_token r' = true ->
  (Py.str_int x ++ r)%string = (Py.str_int y ++ r')%string -> x = y /\ r = r'.
Proof.
  intros Hr Hr' E.
  destruct (token_unique _ _ _ _ (str_int_token x) (str_int_token y) Hr Hr' E) as [Ei Er].
  split; [now apply str_int_inj | exact Er].
Qed.

Lemma str_opt_int_token (o : option Z) : all_chars token_char (Py.str_opt_int o) = true.
Proof. destruct o; simpl; [apply str_int_token | reflexivity]. Qed.

Lemma str_int_not_word (z : Z) (s : string) :
  NilZero.int_of_string s = None -> Py.str_int z <> s.
Proof. intros Hs E. rewrite <- E, str_int_parse in Hs. discriminate. Qed.

Lemma str_opt_int_inj (x y : option Z) : Py.str_opt_int x = Py.str_opt_int y -> x = y.
Proof.
  destruct x as [x|], y as [y|]; simpl; intros E.
  - f_equal. now apply str_int_inj.
  - now apply str_int_not_word in E.
  - symmetry in E. now apply str_int_not_word in E.
  - reflexivity.
Qed.

Lemma str_opt_int_delimited (x y : option Z) (r r' : string) :
  ends_token r = true -> ends_token r' = true ->
  (Py.str_opt_int x ++ r)%string = (Py.str_opt_int y ++ r')%string -> x = y /\ r = r'.
Proof.
  intros Hr Hr' E.
  destruct (token_unique _ _ _ _ (str_opt_int_token x) (str_opt_int_token y) Hr Hr' E)
    as [Ei Er].
  split; [now apply str_opt_int_inj | exact Er].
Qed.

Lemma token_not_delimiter (a r r' : string) (c : ascii) :
  all_chars token_char a = true -> a <> EmptyString -> token_char c = false ->
  (a ++ r)%string <> String c r'.
Proof.
  destruct a as [|x a]; [congruence|]. simpl. intros Ha _ Hc [= -> _].
  apply andb_true_iff in Ha. destruct Ha as [Hx _]. congruence.
Qed.

Lemma str_int_nonempty (z : Z) : Py.str_int z <> EmptyString.
Proof. now apply str_int_not_word. Qed.

Lemma str_opt_int_nonempty (o : option Z) : Py.str_opt_int o <> EmptyString.
Proof. destruct o; simpl; [apply str_int_nonempty | discriminate]. Qed.

(** ** Items joined by [", "] and closed by a bracket *)

Section Join.
Context {A : Type} (item : A -> string) (close : ascii).

Hypothesis close_not_comma : close <> ","%char.
Hypothesis item_delimited :
  forall x y r r',
    after_item close r -> after_item close r' ->
    (item x ++ r)%string = (item y ++ r')%string -> x = y /\ r = r'.
Hypothesis item_not_close : forall x r r', (item x ++ r)%string <> String close r'.

Lemma join_cons_append (x : A) (l : list A) (R : string) :
  (Py.join ", " (map item (x :: l)) ++ R)%string
  = (item x ++ match l with
               | [] => R
               | _ => ", " ++ (Py.join ", " (map item l) ++ R)
               end)%string.
Proof.
  destruct l as [|y l]; [reflexivity|].
  change (Py.join ", " (map item (x :: y :: l)))
    with (item x ++ ", " ++ Py.join ", " (map item (y :: l)))%string.
  rewrite !append_assoc. reflexivity.
Qed.

Lemma join_delimited (l l' : list A) (r r' : string) :
  (Py.join ", " (map item l) ++ String close r)%string
  = (Py.join ", " (map item l') ++ String close r')%string ->
  l = l' /\ r = r'.
Proof.
  revert l'. induction l as [|x l IH]; intros [|y l'] E.
  - simpl in E. injection E as ->. auto.
  - rewrite join_cons_append in E. simpl in E. symmetry in E.
    now apply item_not_close in E.
  - rewrite join_cons_append in E. simpl in E. now apply item_not_close in E.
  - rewrite !join_cons_append in E.
    apply item_delimited in E.
    + destruct E as [-> E]. destruct l as [|x' l], l' as [|y' l'].
      * injection E as ->. auto.
      * simpl in E. injection E as Ec. now destruct close_not_comma.
      * simpl in E. injection E as Ec. symmetry in Ec. now destruct close_not_comma.
      * apply append_inv_head in E. destruct (IH _ E) as [-> ->]. auto.
    + destruct l; [eexists; right; reflexivity | eexists; left; simpl; reflexivity].
    + destruct l'; [eexists; right; reflexivity | eexists; left; simpl; reflexivity].
Qed.

End Join.

Lemma after_item_ends_token (close : ascii) (r : string) :
  token_char close = false -> after_item close r -> ends_token r = true.
Proof. intros Hc (r0 & [-> | ->]); simpl; [reflexivity | now rewrite Hc]. Qed.

(** ** [str] of the number maps and of the split index *)

Lemma int_pair_item_delimited (x y : Z * Z) (r r' : string) :
  after_item "}" r -> after_item "}" r' ->
  (int_pair_item x ++ r)%string = (int_pair_item y ++ r')%string -> x = y /\ r = r'.
Proof.
  intros Hr Hr' E. unfold int_pair_item in E. rewrite !append_assoc in E.
  apply str_int_delimited in E; try reflexivity.
  destruct E as [Ek E]. simpl in E. injection E as E.
  apply str_int_delimited in E; try (eapply after_item_ends_token; eauto; reflexivity).
  destruct E as [Ev Er]. destruct x, y; simpl in *; subst. auto.
Qed.

Lemma str_int_dict_inj (d d' : list (Z * Z)) :
  Py.str_int_dict d = Py.str_int_dict d' -> d = d'.
Proof.
  unfold Py.str_int_dict. simpl. intros [= E].
  change (fun kv : Z * Z => (Py.str_int (fst kv) ++ ": " ++ Py.str_int (snd kv))%string)
    with int_pair_item in E.
  apply (join_delimited int_pair_item "}") in E; [tauto | discriminate | |].
  - apply int_pair_item_delimited.
  - intros x r r'. unfold int_pair_item. rewrite append_assoc.
    apply token_not_delimiter; [apply str_int_token | apply str_int_nonempty | reflexivity].
Qed.

Lemma str_tuple_inj (t t' : list (option Z)) : Py.str_tuple t = Py.str_tuple t' -> t = t'.
Proof.
  assert (Hdelim : forall x y r r',
             after_item ")" r -> after_item ")" r' ->
             (Py.str_opt_int x ++ r)%string = (Py.str_opt_int y ++ r')%string ->
             x = y /\ r = r').
  { intros x y r r' Hr Hr'.
    apply str_opt_int_delimited; eapply after_item_ends_token; eauto; reflexivity. }
  assert (Hclose : forall x r r', (Py.str_opt_int x ++ r)%string <> String ")" r').
  { intros x r r'. apply token_not_delimiter;
      [apply str_opt_int_token | apply str_opt_int_nonempty | reflexivity]. }
  assert (Hlong : forall x y l,
             ("(" ++ Py.join ", " (map Py.str_opt_int (x :: y :: l)) ++ ")")%string
             = String "(" (Py.str_opt_int x ++ ", "
                           ++ (Py.join ", " (map Py.str_opt_int (y :: l)) ++ ")"))%string).
  { intros x y l.
    rewrite (join_cons_append Py.str_opt_int x (y :: l) ")"). reflexivity. }
  destruct t as [|x [|x2 t]], t' as [|y [|y2 t']]; unfold Py.str_tuple;
    rewrite ?Hlong; simpl; intros E; try reflexivity; injection E as E.
  - symmetry in E. now apply Hclose in E.
  - symmetry in E. now apply Hclose in E.
  - now apply Hclose in E.
  - apply Hdelim in E; [destruct E as [-> _]; reflexivity | |];
      eexists; left; reflexivity.
  - apply Hdelim in E; [destruct E as [_ E]; discriminate E | |];
      eexists; left; reflexivity.
  - now apply Hclose in E.
  - apply Hdelim in E; [destruct E as [_ E]; discriminate E | |];
      eexists; left; reflexivity.
  - apply Hdelim in E; [| eexists; left; reflexivity | eexists; left; reflexivity].
    destruct E as [-> E]. injection E as E.
    change ((Py.join ", " (map Py.str_opt_int (x2 :: t)) ++ String ")" "")%string
            = (Py.join ", " (map Py.str_opt_int (y2 :: t')) ++ String ")" "")%string) in E.
    apply (join_delimited Py.str_opt_int ")") in E;
      [destruct E as [E _]; now rewrite E | discriminate | exact Hdelim | exact Hclose].
Qed.

Lemma str_idx_inj (idx idx' : option (list (option Z))) :
  str_idx idx = str_idx idx' -> idx = idx'.
Proof.
  destruct idx as [t|], idx' as [t'|]; simpl; intros E.
  - f_equal. now apply str_tuple_inj.
  - destruct t as [|x [|y t]]; discriminate E.
  - destruct t' as [|x [|y t']]; discriminate E.
  - reflexivity.
Qed.

Lemma str_bool_inj (b b' : bool) : Py.str_bool b = Py.str_bool b' -> b = b'.
Proof. destruct b, b'; simpl; congruence. Qed.

(** ** [repr] of strings and of parameter values *)

Lemma in_all_ascii (c : ascii) : In c all_ascii.
Proof.
  unfold all_ascii. apply in_map_iff. exists (nat_of_ascii c).
  split; [apply ascii_nat_embedding|]. apply in_seq. pose proof (nat_ascii_bounded c). lia.
Qed.

Lemma hex2_inj (c c' : ascii) : Py.hex2 c = Py.hex2 c' -> c = c'.
Proof.
  assert (Hall : forallb (fun a => forallb (fun b =>
                    implb (String.eqb (Py.hex2 a) (Py.hex2 b)) (Ascii.eqb a b))
                    all_ascii) all_ascii = true) by (vm_compute; reflexivity).
  intros E. rewrite forallb_forall in Hall. specialize (Hall c (in_all_ascii c)).
  rewrite forallb_forall in Hall. specialize (Hall c' (in_all_ascii c')).
  rewrite E, String.eqb_refl in Hall. simpl in Hall. now apply Ascii.eqb_eq.
Qed.

Lemma hex2_delimited (c c' : ascii) (R R' : string) :
  (Py.hex2 c ++ R)%string = (Py.hex2 c' ++ R')%string -> c = c' /\ R = R'.
Proof.
  intros E. assert (E' := E). unfold Py.hex2 in E'. simpl in E'.
  injection E' as E1 E2 ER. split; [|exact ER].
  apply hex2_inj. unfold Py.hex2. now rewrite E1, E2.
Qed.

(** The six ways [repr] writes a character. *)
Lemma repr_char_cases (q c : ascii) :
  (Py.repr_char q c = String Py.backslash (String c EmptyString)
   /\ (c = q \/ c = Py.backslash))
  \/ (Py.repr_char q c = "\t"%string /\ c = ascii_of_nat 9)
  \/ (Py.repr_char q c = "\n"%string /\ c = ascii_of_nat 10)
  \/ (Py.repr_char q c = "\r"%string /\ c = ascii_of_nat 13)
  \/ (Py.repr_char q c = String c EmptyString /\ c <> q /\ c <> Py.backslash)
  \/ (Py.repr_char q c = ("\x" ++ Py.hex2 c)%string).
Proof.
  unfold Py.repr_char.
  destruct (Ascii.eqb_spec c q) as [Hq|Hq]; [left; simpl; auto|].
  destruct (Ascii.eqb_spec c Py.backslash) as [Hb|Hb]; [left; simpl; auto|]. simpl.
  destruct (Ascii.eqb_spec c (ascii_of_nat 9)); [right; left; auto|].
  destruct (Ascii.eqb_spec c (ascii_of_nat 10)); [right; right; left; auto|].
  destruct (Ascii.eqb_spec c (ascii_of_nat 13)); [right; right; right; left; auto|].
  destruct (Py.printable c); [right; right; right; right; left; auto|].
  right; right; right; right; right. reflexivity.
Qed.

Ltac quote_cases H :=
  destruct H as [-> | ->]; unfold Py.squote, Py.dquote, Py.backslash in *.

(** A character is read off the front of a string in one way only. *)
Lemma repr_char_delimited (q c c' : ascii) (R R' : string) :
  is_quote q ->
  (Py.repr_char q c ++ R)%string = (Py.repr_char q c' ++ R')%string ->
  c = c' /\ R = R'.
Proof.
  intros Hq E.
  destruct (repr_char_cases q c) as [[Hc Hk]|[[Hc Hk]|[[Hc Hk]|[[Hc Hk]|[[Hc Hk]|Hc]]]]];
  destruct (repr_char_cases q c') as [[Hc' Hk']|[[Hc' Hk']|[[Hc' Hk']|[[Hc' Hk']|[[Hc' Hk']|Hc']]]]];
    rewrite Hc, Hc' in E; clear Hc Hc'; simpl in E;
    try discriminate E;
    try (apply hex2_delimited in E; exact E);
    try (injection E as E1 E2; subst; split; reflexivity);
    try (injection E as E1 E2; subst; quote_cases Hq;
         solve [ destruct Hk as [Hk|Hk]; discriminate Hk
               | destruct Hk' as [Hk'|Hk']; discriminate Hk'
               | destruct Hk as [_ Hk]; now destruct Hk
               | destruct Hk' as [_ Hk']; now destruct Hk' ]);
    try (injection E as E1; subst; quote_cases Hq;
         solve [ destruct Hk as [_ Hk]; now destruct Hk
               | destruct Hk' as [_ Hk']; now destruct Hk' ]);
    try (injection E as ER; subst; split; reflexivity).
  injection E as E1 E2 ER. split; [|exact ER].
  apply hex2_inj. unfold Py.hex2. now rewrite E1, E2.
Qed.

Lemma repr_char_not_quote (q c : ascii) (R R' : string) :
  is_quote q -> (Py.repr_char q c ++ R)%string <> String q R'.
Proof.
  intros Hq E.
  destruct (repr_char_cases q c) as [[Hc Hk]|[[Hc Hk]|[[Hc Hk]|[[Hc Hk]|[[Hc Hk]|Hc]]]]];
    rewrite Hc in E; simpl in E; injection E as E1 E2; quote_cases Hq;
    try discriminate E1. 
  all: destruct Hk as [Hk _]; now destruct Hk.
Qed.

Lemma repr_body_delimited (q : ascii) (s s' R R' : string) :
  is_quote q ->
  (Py.repr_body q s ++ String q R)%string = (Py.repr_body q s' ++ String q R')%string ->
  s = s' /\ R = R'.
Proof.
  intros Hq. revert s'. induction s as [|c s IH]; intros [|c' s'] E; simpl in E.
  - injection E as ->. auto.
  - rewrite append_assoc in E. symmetry in E. now apply repr_char_not_quote in E.
  - rewrite append_assoc in E. now apply repr_char_not_quote in E.
  - rewrite !append_assoc in E. apply repr_char_delimited in E; [|exact Hq].
    destruct E as [-> E]. destruct (IH _ E) as [-> ->]. auto.
Qed.

Lemma quote_of_is_quote (s : string) : is_quote (Py.quote_of s).
Proof.
  unfold Py.quote_of, is_quote.
  destruct (Py.contains Py.squote s && negb (Py.contains Py.dquote s)); auto.
Qed.

(** A quoted string needs nothing after it to be read in one way only. *)
Lemma repr_str_delimited (s s' R R' : string) :
  (Py.repr_str s ++ R)%string = (Py.repr_str s' ++ R')%string -> s = s' /\ R = R'.
Proof.
  unfold Py.repr_str. simpl. rewrite !append_assoc. simpl. intros E.
  injection E as Eq E. rewrite <- Eq in E.
  apply repr_body_delimited in E; [exact E | apply quote_of_is_quote].
Qed.

Lemma atom_token (v : Py.value) : is_atom v -> all_chars token_char (Py.repr v) = true.
Proof.
  destruct v as [|[]|z|s]; simpl; intros Hv; try reflexivity;
    [apply str_int_token | destruct Hv].
Qed.

Lemma atom_nonempty (v : Py.value) : is_atom v -> Py.repr v <> EmptyString.
Proof.
  destruct v as [|[]|z|s]; simpl; intros Hv;
    first [discriminate | apply str_int_nonempty | destruct Hv].
Qed.

Lemma atom_inj (v v' : Py.value) :
  is_atom v -> is_atom v' -> Py.repr v = Py.repr v' -> v = v'.
Proof.
  destruct v as [|[]|z|s], v' as [|[]|z'|s']; simpl; intros Hv Hv' E;
    try reflexivity; try contradiction; try discriminate E;
    try (now apply str_int_not_word in E);
    try (symmetry in E; now apply str_int_not_word in E).
  f_equal. now apply str_int_inj.
Qed.

Lemma repr_str_head (s : string) :
  exists q rest, Py.repr_str s = String q rest /\ token_char q = false.
Proof.
  unfold Py.repr_str. eexists. eexists. split; [reflexivity|].
  destruct (quote_of_is_quote s) as [-> | ->]; reflexivity.
Qed.

(** A value followed by the closing parenthesis of its tuple. *)
Lemma repr_delimited (v v' : Py.value) (R R' : string) :
  (Py.repr v ++ String ")" R)%string = (Py.repr v' ++ String ")" R')%string ->
  v = v' /\ R = R'.
Proof.
  intros E.
  assert (Hmixed : forall a s X Y,
             is_atom a -> (Py.repr a ++ X)%string <> (Py.repr_str s ++ Y)%string).
  { intros a s X Y Ha. destruct (repr_str_head s) as (q & rest & -> & Hqf).
    simpl.
    apply token_not_delimiter; [now apply atom_token | now apply atom_nonempty | exact Hqf]. }
  assert (Hkind : forall u, is_atom u \/ exists s, u = Py.VStr s).
  { intros [| b | z | s]; simpl; eauto. }
  destruct (Hkind v) as [Ha | (s & ->)], (Hkind v') as [Ha' | (s' & ->)].
  - apply token_unique in E; try (now apply atom_token); try reflexivity.
    destruct E as [Er [= ->]]. split; [now apply atom_inj | reflexivity].
  - exfalso. exact (Hmixed v s' _ _ Ha E).
  - exfalso. symmetry in E. exact (Hmixed v' s _ _ Ha' E).
  - simpl in E. apply repr_str_delimited in E. destruct E as [-> [= ->]]. auto.
Qed.

Lemma repr_item_delimited (x y : string * Py.value) (R R' : string) :
  (Py.repr_item x ++ R)%string = (Py.repr_item y ++ R')%string -> x = y /\ R = R'.
Proof.
  unfold Py.repr_item. rewrite !append_assoc. intros E.
  apply append_inv_head in E. apply repr_str_delimited in E. destruct E as [Ek E].
  apply append_inv_head in E.
  apply (repr_delimited (snd x) (snd y) R R') in E. destruct E as [Ev ER].
  destruct x, y; simpl in *; subst; auto.
Qed.

Lemma str_items_inj (l l' : list (string * Py.value)) :
  Py.str_items l = Py.str_items l' -> l = l'.
Proof.
  unfold Py.str_items. simpl. intros [= E].
  apply (join_delimited Py.repr_item "]") in E; [tauto | discriminate | |].
  - intros x y r r' _ _. apply repr_item_delimited.
  - intros x r r'. unfold Py.repr_item. simpl. discriminate.
Qed.

(** ** Sorting the items of a dict *)

Lemma ltb_trans (a b c : string) :
  String.ltb a b = true -> String.ltb b c = true -> String.ltb a c = true.
Proof.
  unfold String.ltb. intros Hab Hbc.
  destruct (String.compare a b) eqn:Eab; try discriminate.
  destruct (String.compare b c) eqn:Ebc; try discriminate.
  apply String_as_OT.cmp_lt in Eab, Ebc.
  pose proof (String_as_OT.lt_trans _ _ _ Eab Ebc) as Hac.
  apply String_as_OT.cmp_lt in Hac. unfold String_as_OT.cmp in Hac. now rewrite Hac.
Qed.

Lemma ltb_irrefl (a : string) : String.ltb a a = false.
Proof.
  unfold String.ltb. pose proof (String.compare_antisym a a) as E.
  destruct (String.compare a a); simpl in E; try discriminate; reflexivity.
Qed.

Lemma ltb_total (a b : string) :
  a <> b -> String.ltb a b = false -> String.ltb b a = true.
Proof.
  unfold String.ltb. intros Hne Hab. rewrite String.compare_antisym.
  destruct (String.compare a b) eqn:E; simpl; try reflexivity; try discriminate.
  apply String.compare_eq_iff in E. contradiction.
Qed.

Lemma ltb_asym (a b : string) : String.ltb a b = true -> String.ltb b a = true -> False.
Proof.
  intros Hab Hba. pose proof (ltb_trans _ _ _ Hab Hba) as E.
  rewrite ltb_irrefl in E. discriminate.
Qed.

Section SortedItems.
Context {V : Type}.

Lemma in_insert_item (x y : string * V) (l : list (string * V)) :
  In x (Py.insert_item y l) <-> x = y \/ In x l.
Proof.
  induction l as [|z l IH]; simpl.
  - intuition congruence.
  - destruct (String.ltb (fst y) (fst z)); simpl; [|rewrite IH]; intuition congruence.
Qed.

Lemma in_sorted_items (x : string * V) (d : list (string * V)) :
  In x (Py.sorted_items d) <-> In x d.
Proof.
  induction d as [|y d IH]; simpl; [reflexivity|].
  rewrite in_insert_item, IH. intuition congruence.
Qed.

Lemma insert_item_sorted (x : string * V) (l : list (string * V)) :
  StronglySorted key_lt l ->
  (forall y, In y l -> fst y <> fst x) ->
  StronglySorted key_lt (Py.insert_item x l).
Proof.
  induction 1 as [|z l Hs IH Hz]; intros Hfresh; simpl.
  - constructor; constructor.
  - destruct (String.ltb (fst x) (fst z)) eqn:Hxz.
    + constructor; [constructor; assumption|]. constructor; [exact Hxz|].
      rewrite List.Forall_forall in Hz |- *. intros y Hy.
      unfold key_lt. eapply ltb_trans; [exact Hxz | apply Hz; exact Hy].
    + constructor.
      * apply IH. intros y Hy. apply Hfresh. now right.
      * rewrite List.Forall_forall in Hz |- *. intros y Hy.
        apply in_insert_item in Hy. destruct Hy as [-> | Hy]; [|now apply Hz].
        unfold key_lt. apply ltb_total; [|exact Hxz].
        intros E. apply (Hfresh z); [now left | now symmetry].
Qed.

Lemma sorted_items_sorted (d : list (string * V)) :
  Py.wf_dict d -> StronglySorted key_lt (Py.sorted_items d).
Proof.
  unfold Py.wf_dict, Py.keys. induction d as [|x d IH]; simpl; intros Hwf.
  - constructor.
  - apply NoDup_cons in Hwf. destruct Hwf as [Hx Hwf].
    apply insert_item_sorted; [now apply IH|].
    intros y Hy E. apply Hx. rewrite <- E. apply list_elem_of_In.
    apply in_map. now apply in_sorted_items.
Qed.

(** Two strictly sorted lists with the same elements are equal. *)
Lemma sorted_unique (l1 l2 : list (string * V)) :
  StronglySorted key_lt l1 -> StronglySorted key_lt l2 ->
  (forall x, In x l1 <-> In x l2) -> l1 = l2.
Proof.
  intros H1. revert l2. induction H1 as [|a l1 Hs1 IH Ha]; intros l2 H2 Hin.
  - destruct l2 as [|b l2]; [reflexivity|]. destruct (proj2 (Hin b) (or_introl eq_refl)).
  - destruct H2 as [|b l2 Hs2 Hb]; [destruct (proj1 (Hin a) (or_introl eq_refl))|].
    rewrite List.Forall_forall in Ha, Hb.
    assert (Hab : a = b).
    { destruct (proj1 (Hin a) (or_introl eq_refl)) as [E|Hal2]; [now symmetry|].
      destruct (proj2 (Hin b) (or_introl eq_refl)) as [E|Hbl1]; [exact E|].
      exfalso. exact (ltb_asym _ _ (Ha b Hbl1) (Hb a Hal2)). }
    subst b. f_equal. apply IH; [exact Hs2|].
    intros x. split; intros Hx.
    + destruct (proj1 (Hin x) (or_intror Hx)) as [E|Hx2]; [|exact Hx2].
      subst x. specialize (Ha a Hx). unfold key_lt in Ha. rewrite ltb_irrefl in Ha. discriminate.
    + destruct (proj2 (Hin x) (or_intror Hx)) as [E|Hx1]; [|exact Hx1].
      subst x. specialize (Hb a Hx). unfold key_lt in Hb. rewrite ltb_irrefl in Hb. discriminate.
Qed.

Lemma get_in (d : list (string * V)) (k : string) (v : V) :
  Py.wf_dict d -> (Py.get d k = Some v <-> In (k, v) d).
Proof.
  unfold Py.wf_dict, Py.keys. induction d as [|[k0 v0] d IH]; simpl; intros Hwf.
  - split; [discriminate | tauto].
  - apply NoDup_cons in Hwf. destruct Hwf as [Hk0 Hwf].
    destruct (decide (k0 = k)) as [->|Hne].
    + split; [intros [= ->]; now left|].
      intros [[= ->]|Hin]; [reflexivity|].
      exfalso. apply Hk0. apply list_elem_of_In.
      change k with (fst (k, v)). now apply in_map.
    + rewrite (IH Hwf). split; [now right|]. intros [[= E _]|Hin]; [contradiction | exact Hin].
Qed.

Lemma dict_eq_items (d1 d2 : list (string * V)) :
  Py.wf_dict d1 -> Py.wf_dict d2 ->
  (Py.dict_eq d1 d2 <-> forall x, In x d1 <-> In x d2).
Proof.
  intros H1 H2. unfold Py.dict_eq. split.
  - intros E [k v]. rewrite <- !get_in by assumption. now rewrite E.
  - intros Hin k.
    destruct (Py.get d1 k) as [v|] eqn:G1.
    + symmetry. apply get_in; [exact H2|]. apply Hin. now apply get_in.
    + destruct (Py.get d2 k) as [v|] eqn:G2; [|reflexivity].
      apply get_in in G2; [|exact H2]. apply Hin in G2. apply get_in in G2; [|exact H1].
      congruence.
Qed.

(** [sorted(d.items())] does not depend on the insertion order. *)
Lemma sorted_items_dict_eq (d1 d2 : list (string * V)) :
  Py.wf_dict d1 -> Py.wf_dict d2 -> Py.dict_eq d1 d2 ->
  Py.sorted_items d1 = Py.sorted_items d2.
Proof.
  intros H1 H2 E. apply sorted_unique; try now apply sorted_items_sorted.
  intros x. rewrite !in_sorted_items. now apply dict_eq_items.
Qed.

(** Dicts that differ have different sorted items. *)
Lemma sorted_items_inj (d1 d2 : list (string * V)) :
  Py.wf_dict d1 -> Py.wf_dict d2 ->
  Py.sorted_items d1 = Py.sorted_items d2 -> Py.dict_eq d1 d2.
Proof.
  intros H1 H2 E. apply dict_eq_items; try assumption.
  intros x. rewrite <- (in_sorted_items x d1), <- (in_sorted_items x d2). now rewrite E.
Qed.

End SortedItems.

(** ** The cache key *)

Section CacheKeyClaims.
Context `{Externals}.

(** C1, amended. Two forms with one signature, the same name, parameter
    dicts and coffee defaults that hold the same keys with identical
    values (of the same type: [True] is not [1]), whatever the order in
    which their entries were inserted, and the same number maps (entry
    for entry, in the same order), interface, backend selector, split index
    and diagonal flag have the same digest; [_cache_key] returns it with
    the communicator of each form's first domain. *)
Theorem cache_key_deterministic (cd1 cd2 : list (string * Py.value)) (f1 f2 : Form)
    (name : string) (p1 p2 : list (string * Py.value))
    (number_map subspace_number_map : list (Z * Z)) (interface : Interface)
    (coffee diagonal : bool) (idx : option (list (option Z)))
    (m1 m2 : Mesh) (rest1 rest2 : list Mesh) :
  signature f1 = signature f2 ->
  Py.wf_dict cd1 -> Py.wf_dict cd2 -> Py.dict_eq cd1 cd2 ->
  Py.wf_dict p1 -> Py.wf_dict p2 -> Py.dict_eq p1 p2 ->
  ufl_domains f1 = m1 :: rest1 -> ufl_domains f2 = m2 :: rest2 ->
  exists d,
    _cache_key cd1 f1 name p1 number_map subspace_number_map interface coffee diagonal idx
    = Ok (d, comm m1)
    /\ _cache_key cd2 f2 name p2 number_map subspace_number_map interface coffee diagonal idx
       = Ok (d, comm m2).
Proof.
  intros Hsig Hc1 Hc2 Hc Hp1 Hp2 Hp Hd1 Hd2.
  unfold _cache_key, digest, key_string. rewrite Hd1, Hd2.
  rewrite Hsig, (sorted_items_dict_eq cd1 cd2 Hc1 Hc2 Hc),
    (sorted_items_dict_eq p1 p2 Hp1 Hp2 Hp).
  eexists. split; reflexivity.
Qed.

(** What does reach the hashed string: with the other inputs fixed, a
    change of the parameters (to a dict with other entries), of either
    number map, of the backend selector, of the split index, of the
    diagonal flag or of the type of the interface object changes the
    string that is hashed. *)
Lemma key_string_sensitive (cd : list (string * Py.value)) (form : Form)
    (name : string) (p p' : list (string * Py.value))
    (nm nm' snm snm' : list (Z * Z)) (interface interface' : Interface)
    (coffee coffee' diagonal diagonal' : bool) (idx idx' : option (list (option Z))) :
  (Py.wf_dict p -> Py.wf_dict p' -> ~ Py.dict_eq p p' ->
   key_string cd form name p nm snm interface coffee diagonal idx
   <> key_string cd form name p' nm snm interface coffee diagonal idx)
  /\ (nm <> nm' ->
      key_string cd form name p nm snm interface coffee diagonal idx
      <> key_string cd form name p nm' snm interface coffee diagonal idx)
  /\ (snm <> snm' ->
      key_string cd form name p nm snm interface coffee diagonal idx
      <> key_string cd form name p nm snm' interface coffee diagonal idx)
  /\ (type_name interface <> type_name interface' ->
      key_string cd form name p nm snm interface coffee diagonal idx
      <> key_string cd form name p nm snm interface' coffee diagonal idx)
  /\ (coffee <> coffee' ->
      key_string cd form name p nm snm interface coffee diagonal idx
      <> key_string cd form name p nm snm interface coffee' diagonal idx)
  /\ (idx <> idx' ->
      key_string cd form name p nm snm interface coffee diagonal idx
      <> key_string cd form name p nm snm interface coffee diagonal idx')
  /\ (diagonal <> diagonal' ->
      key_string cd form name p nm snm interface coffee diagonal idx
      <> key_string cd form name p nm snm interface coffee diagonal' idx).
Proof.
  unfold key_string.
  repeat match goal with |- _ /\ _ => split end;
    intros; intros E;
    repeat (apply append_inv_head in E).
  - apply append_inv_tail, str_items_inj in E.
    match goal with Hne : ~ Py.dict_eq p p' |- _ => apply Hne end.
    now apply sorted_items_inj.
  - apply append_inv_tail, str_int_dict_inj in E. contradiction.
  - apply append_inv_tail, str_int_dict_inj in E. contradiction.
  - apply append_inv_tail in E. unfold str_type in E.
    apply append_inv_head, append_inv_tail in E. contradiction.
  - apply append_inv_tail, str_bool_inj in E. contradiction.
  - apply append_inv_tail, str_idx_inj in E. contradiction.
  - apply str_bool_inj in E. contradiction.
Qed.

End CacheKeyClaims.

(** ** The number maps that [compile_form] builds *)

Lemma set_fresh {K V} `{EqDecision K} (d : list (K * V)) (k : K) (v : V) :
  k ∉ Py.keys d -> Py.set d k v = (d ++ [(k, v)])%list.
Proof.
  induction d as [|[k0 v0] d IH]; simpl; intros Hk; [reflexivity|].
  apply not_elem_of_cons in Hk. destruct Hk as [Hne Hk].
  destruct (decide (k0 = k)); [congruence|]. now rewrite IH.
Qed.

Lemma of_pairs_acc {K V} `{EqDecision K} (l acc : list (K * V)) :
  NoDup (Py.keys l) -> (forall k, k ∈ Py.keys l -> k ∉ Py.keys acc) ->
  fold_left (fun d kv => Py.set d (fst kv) (snd kv)) l acc = (acc ++ l)%list.
Proof.
  revert acc. induction l as [|[k v] l IH]; intros acc Hnd Hfresh; simpl.
  - now rewrite app_nil_r.
  - unfold Py.keys in Hnd. simpl in Hnd. apply NoDup_cons in Hnd. destruct Hnd as [Hk Hnd].
    rewrite set_fresh by (apply Hfresh; unfold Py.keys; simpl; left).
    rewrite IH; [now rewrite <- app_assoc | exact Hnd |].
    intros k' Hk'. unfold Py.keys. rewrite map_app. simpl.
    rewrite elem_of_app, list_elem_of_singleton. intros [Hacc | ->].
    + apply (Hfresh k'); [unfold Py.keys; simpl; now right | exact Hacc].
    + contradiction.
Qed.

(** A dict made from pairs with distinct keys lists them in their order. *)
Lemma of_pairs_distinct {K V} `{EqDecision K} (l : list (K * V)) :
  NoDup (Py.keys l) -> Py.of_pairs l = l.
Proof.
  intros Hnd. unfold Py.of_pairs. rewrite of_pairs_acc; [reflexivity | exact Hnd |].
  intros k _. unfold Py.keys. simpl. apply not_elem_of_nil.
Qed.

Lemma mapM_renumber_keys {A} `{EqDecision A} (numbers : list (A * Z))
    (l : list (Z * A)) (pairs : list (Z * Z)) :
  mapM (fun nc => let* g := getitem numbers (snd nc) in Ok (fst nc, g)) l = Ok pairs ->
  map fst pairs = map fst l.
Proof.
  revert pairs. induction l as [|[n c] l IH]; intros pairs Hm; simpl in Hm.
  - inversion Hm. reflexivity.
  - destruct (getitem numbers c) as [g| |]; simpl in Hm; try discriminate.
    destruct (mapM _ l) as [ps| |] eqn:Hl; simpl in Hm; try discriminate.
    inversion Hm; subst. simpl. f_equal. now apply IH.
Qed.

Lemma enumerate_keys {A} (l : list A) :
  map fst (Py.enumerate l) = map Z.of_nat (seq 0 (length l)).
Proof.
  unfold Py.enumerate.
  assert (Hlen : length (map Z.of_nat (seq 0 (length l))) = length l)
    by now rewrite length_map, length_seq.
  revert Hlen. generalize (map Z.of_nat (seq 0 (length l))). clear.
  intros ks. revert l. induction ks as [|k ks IH]; intros [|x l] Hlen; simpl in *;
    try reflexivity; try discriminate.
  f_equal. apply IH. now injection Hlen.
Qed.

(** The local-to-global maps that [compile_form] passes to the key are
    filled in the order of the local numbers 0, 1, 2, ... *)
Lemma renumber_in_key_order {A} `{EqDecision A} (numbers : list (A * Z))
    (items : list A) (number_map : list (Z * Z)) :
  renumber numbers items = Ok number_map ->
  Py.keys number_map = map Z.of_nat (seq 0 (length items)).
Proof.
  unfold renumber. intros Hr.
  destruct (mapM _ (Py.enumerate items)) as [pairs| |] eqn:Hm; simpl in Hr; try discriminate.
  inversion Hr; subst. apply mapM_renumber_keys in Hm. rewrite enumerate_keys in Hm.
  rewrite of_pairs_distinct; [exact Hm|].
  unfold Py.keys. rewrite Hm. apply NoDup_fmap_2; [intros x y; lia | apply NoDup_seq].
Qed.

Lemma sample_wf (d : list (string * Py.value)) :
  (if decide (NoDup (Py.keys d)) then true else false) = true -> Py.wf_dict d.
Proof. unfold Py.wf_dict. destruct (decide (NoDup (Py.keys d))); [auto | discriminate]. Qed.

Lemma parameters_a_eq_b : Py.dict_eq Sample.parameters_a Sample.parameters_b.
Proof.
  intros k. unfold Sample.parameters_a, Sample.parameters_b. simpl.
  repeat case_decide; congruence.
Qed.

Lemma number_maps_eq : Py.dict_eq Sample.number_map_01 Sample.number_map_10.
Proof.
  intros k. unfold Sample.number_map_01, Sample.number_map_10. simpl.
  repeat case_decide; congruence.
Qed.

(** C1, as the claim states it, fails twice over.  The two number maps
    are equal as dicts, only the order in which they were filled
    differs, and the two digests differ.  And two parameter dicts that
    Python takes for equal, [{'flag': True} == {'flag': 1}], print
    differently and have different digests. *)
Lemma digest_depends_on_number_map_order :
  Py.dict_eq Sample.number_map_01 Sample.number_map_10
  /\ Py.str_int_dict Sample.number_map_01 = "{0: 0, 1: 1}"
  /\ Py.str_int_dict Sample.number_map_10 = "{1: 1, 0: 0}"
  /\ _cache_key Sample.coffee_defaults Sample.poisson "form" Sample.parameters_a
                Sample.number_map_01 [] NoInterface false false (Some [None; None])
     = Ok ("24c838888ae7cd1d26616a6df3162d25", Sample.comm0)
  /\ _cache_key Sample.coffee_defaults Sample.poisson "form" Sample.parameters_a
                Sample.number_map_10 [] NoInterface false false (Some [None; None])
     = Ok ("1b6f35c5728494381bd32834e60be136", Sample.comm0)
  /\ Py.dict_py_eq [("flag", Py.VBool true)] [("flag", Py.VInt 1)]
  /\ Py.str_items (Py.sorted_items [("flag", Py.VBool true)]) = "[('flag', True)]"
  /\ Py.str_items (Py.sorted_items [("flag", Py.VInt 1)]) = "[('flag', 1)]"
  /\ _cache_key Sample.coffee_defaults Sample.poisson "form" [("flag", Py.VBool true)]
                Sample.number_map_01 [] NoInterface false false (Some [None; None])
     <> _cache_key Sample.coffee_defaults Sample.poisson "form" [("flag", Py.VInt 1)]
                   Sample.number_map_01 [] NoInterface false false (Some [None; None]).
Proof.
  split; [exact number_maps_eq|].
  repeat match goal with |- _ /\ _ => split end; try (vm_compute; reflexivity).
  - intros k. simpl. destruct (decide ("flag"%string = k)); [reflexivity | exact I].
  - vm_compute. discriminate.
Qed.

Lemma cache_key_deterministic_witness :
  exists d,
    _cache_key Sample.coffee_defaults Sample.poisson "form" Sample.parameters_a
               Sample.number_map_01 [] NoInterface false false (Some [None; None])
    = Ok (d, Sample.comm0)
    /\ _cache_key Sample.coffee_defaults Sample.poisson "form" Sample.parameters_b
                  Sample.number_map_01 [] NoInterface false false (Some [None; None])
       = Ok (d, Sample.comm0).
Proof.
  apply (@cache_key_deterministic Sample.externals
           Sample.coffee_defaults Sample.coffee_defaults Sample.poisson Sample.poisson
           "form" Sample.parameters_a Sample.parameters_b Sample.number_map_01 []
           NoInterface false false (Some [None; None]) Sample.mesh Sample.mesh [] []).
  - reflexivity.
  - apply sample_wf. vm_compute. reflexivity.
  - apply sample_wf. vm_compute. reflexivity.
  - intros k. reflexivity.
  - apply sample_wf. vm_compute. reflexivity.
  - apply sample_wf. vm_compute. reflexivity.
  - exact parameters_a_eq_b.
  - vm_compute. reflexivity.
  - vm_compute. reflexivity.
Defined.

(** C2. The interface does not reach the digest: [_cache_key] hashes
    [str(type(interface))], and the type of every class is one and the
    same, so the two builder classes of TSFC, which generate different
    code, have one digest, as have any two classes, whatever the other
    inputs are. *)
Theorem digest_ignores_the_builder_class :
  Sample.coffee_builder <> Sample.loopy_builder
  /\ str_type Sample.coffee_builder = "<class 'type'>"
  /\ str_type Sample.loopy_builder = "<class 'type'>"
  /\ digest Sample.coffee_defaults Sample.poisson "form" Sample.parameters_a
            Sample.number_map_01 [] Sample.coffee_builder false false (Some [None; None])
     = "64d77ac3ae5e2e85f5eaa0a3ad6dd2e0"
  /\ digest Sample.coffee_defaults Sample.poisson "form" Sample.parameters_a
            Sample.number_map_01 [] Sample.loopy_builder false false (Some [None; None])
     = "64d77ac3ae5e2e85f5eaa0a3ad6dd2e0"
  /\ forall (externals : Externals) (cd : list (string * Py.value)) (form : Form)
        (name : string) (p : list (string * Py.value)) (nm snm : list (Z * Z))
        (class class' : string) (coffee diagonal : bool) (idx : option (list (option Z))),
      @_cache_key externals cd form name p nm snm (BuilderClass class) coffee diagonal idx
      = @_cache_key externals cd form name p nm snm (BuilderClass class') coffee diagonal
                    idx.
Proof.
  split; [discriminate|].
  do 4 (split; [vm_compute; reflexivity|]).
  intros. unfold _cache_key, digest, key_string. reflexivity.
Qed.

(** * Further properties of the interface *)

(** ** [_real_mangle] on every form *)

(** The loop over the arguments maps exactly the Real ones to 1. *)
Lemma real_replacements_get (a : list Argument) (x : Argument) :
  Py.get (real_replacements a (map is_real a)) x
  = if is_real x && bool_decide (x ∈ a) then Some (IntValue 1) else None.
Proof.
  unfold real_replacements.
  assert (Hgen : forall acc,
             Py.get (fold_left
                       (fun (replacements : list (Argument * Expr)) (ar : Argument * bool) =>
                          if snd ar then Py.set replacements (fst ar) (IntValue 1)
                          else replacements)
                       (combine a (map is_real a)) acc) x
             = if is_real x && bool_decide (x ∈ a) then Some (IntValue 1)
               else Py.get acc x).
  { induction a as [|y a IH]; intros acc; simpl.
    - now rewrite andb_false_r.
    - rewrite IH. destruct (decide (x ∈ a)) as [Hin|Hin].
      + rewrite (bool_decide_eq_true_2 _ Hin).
        rewrite (bool_decide_eq_true_2 (x ∈ y :: a)) by (now right).
        destruct (is_real x) eqn:Hx; simpl; [reflexivity|].
        destruct (is_real y) eqn:Hy; [|reflexivity]. rewrite get_set.
        destruct (decide (y = x)); [congruence | reflexivity].
      + rewrite (bool_decide_eq_false_2 _ Hin), andb_false_r.
        destruct (decide (y = x)) as [->|Hne].
        * rewrite (bool_decide_eq_true_2 (x ∈ x :: a)) by (now left).
          rewrite andb_true_r. destruct (is_real x); [|reflexivity].
          rewrite get_set. destruct (decide (x = x)); [reflexivity | congruence].
        * rewrite (bool_decide_eq_false_2 (x ∈ y :: a)), andb_false_r
            by (intros E; apply elem_of_cons in E; destruct E; [congruence | contradiction]).
          destruct (is_real y); [|reflexivity]. rewrite get_set.
          destruct (decide (y = x)); [congruence | reflexivity]. }
  rewrite Hgen. simpl. now destruct (is_real x && bool_decide (x ∈ a)).
Qed.

(** The mapping that [_real_mangle] hands to [ufl.replace]. *)
Lemma real_mangle_mapping (form form' : Form) :
  _real_mangle form = Ok form' ->
  form' = form
  /\ (forall x, In x (occurring_arguments form) -> is_real x = false)
  \/ exists a m,
      arguments form = Ok a /\ form' = replace form m
      /\ forall x, In x a ->
           if is_real x then Py.get m x = Some (IntValue 1)
           else Py.get m x = None
                \/ Py.get m x = Some (ArgumentT (TestFunction (arg_function_space x))).
Proof.
  unfold _real_mangle. destruct (arguments form) as [a| |] eqn:Ha; simpl; try discriminate.
  destruct (existsb (fun r => r) (map is_real a)) eqn:Hany; simpl.
  - intros [= <-]. right. exists a.
    assert (Hget : forall x, In x a ->
               Py.get (real_replacements a (map is_real a)) x
               = if is_real x then Some (IntValue 1) else None).
    { intros x Hx. rewrite real_replacements_get.
      rewrite (bool_decide_eq_true_2 (x ∈ a)) by (now apply list_elem_of_In).
      now rewrite andb_true_r. }
    destruct (decide (map is_real a = [true; false])) as [E|_];
      [destruct (nth_error a 1) as [a1|] eqn:Ha1;
       pose proof Ha1 as Ha1'; simpl in Ha1'; rewrite ?Ha1'|].
    + exists (Py.set (real_replacements a (map is_real a)) a1
                     (ArgumentT (TestFunction (arg_function_space a1)))).
      split; [reflexivity|]. split; [reflexivity|]. intros x Hx.
      rewrite get_set. destruct (decide (a1 = x)) as [->|Hne].
      * assert (Hx1 : is_real x = false).
        { destruct a as [|y0 [|y1 [|? ?]]]; try discriminate E.
          simpl in Ha1, E. injection Ha1 as ->. now injection E. }
        rewrite Hx1. now right.
      * rewrite (Hget x Hx). destruct (is_real x); auto.
    + exists (real_replacements a (map is_real a)).
      split; [reflexivity|]. split; [reflexivity|]. intros x Hx.
      rewrite (Hget x Hx). destruct (is_real x); auto.
    + exists (real_replacements a (map is_real a)).
      split; [reflexivity|]. split; [reflexivity|]. intros x Hx.
      rewrite (Hget x Hx). destruct (is_real x); auto.
  - intros [= <-]. left. split; [reflexivity|]. intros x Hx.
    pose proof (arguments_complete form a x Ha Hx) as Hin.
    destruct (is_real x) eqn:Hr; [|reflexivity].
    assert (Hex : existsb (fun r => r) (map is_real a) = true).
    { apply existsb_exists. exists true. split; [|reflexivity].
      apply in_map_iff. exists x. auto. }
    congruence.
Qed.

Lemma mangled_has_no_real (form form' : Form) (x : Argument) :
  _real_mangle form = Ok form' ->
  In x (occurring_arguments form') -> is_real x = false.
Proof.
  intros Hrun. destruct (real_mangle_mapping form form' Hrun)
    as [[-> Hnone] | (a & m & Ha & -> & Hm)]; [apply Hnone|].
  revert x. apply replace_no_real. intros y Hy.
  specialize (Hm y (arguments_complete form a y Ha Hy)). unfold clears.
  destruct (is_real y) eqn:Hr.
  - rewrite Hm. simpl. intros ? [].
  - destruct Hm as [-> | ->]; [reflexivity|]. simpl. intros ? [<-|[]]. exact Hr.
Qed.

(** X1. Whatever the arguments of the form are, no argument of a Real
    space occurs in a form that [_real_mangle] returns. *)
Theorem real_mangle_leaves_no_real (form form' : Form) (x : Argument) :
  _real_mangle form = Ok form' ->
  In x (occurring_arguments form') -> is_real x = false.
Proof. apply mangled_has_no_real. Qed.

Lemma real_mangle_leaves_no_real_witness :
  List.Forall (fun x => is_real x = false)
    (occurring_arguments
       (replace Sample.real_row
          [(Sample.r, IntValue 1);
           (Sample.u, ArgumentT (TestFunction (arg_function_space Sample.u)))])).
Proof.
  apply List.Forall_forall. intros x.
  apply (real_mangle_leaves_no_real Sample.real_row). vm_compute. reflexivity.
Defined.

(** Where the arguments of a substituted expression come from. *)
Lemma replace_expr_arguments (m : list (Argument * Expr)) (e : Expr) (x : Argument) :
  In x (expr_arguments (replace_expr m e)) ->
  In x (expr_arguments e) /\ Py.get m x = None
  \/ exists a e', In a (expr_arguments e) /\ Py.get m a = Some e'
                  /\ In x (expr_arguments e').
Proof.
  induction e as [z|a|c|op es IH] using Expr_nested_ind; simpl; intros Hx.
  - destruct Hx.
  - destruct (Py.get m a) as [e'|] eqn:Hget.
    + right. exists a, e'. auto.
    + simpl in Hx. destruct Hx as [<-|[]]. left. auto.
  - destruct Hx.
  - apply in_flat_map in Hx. destruct Hx as (e' & He' & Hx).
    apply in_map_iff in He'. destruct He' as (e0 & <- & He0).
    rewrite List.Forall_forall in IH.
    destruct (IH e0 He0 Hx) as [[Hin Hget] | (a & e' & Hin & Hget & Hx')].
    + left. split; [|exact Hget]. apply in_flat_map. eauto.
    + right. exists a, e'. split; [|auto]. apply in_flat_map. eauto.
Qed.

Lemma replace_arguments (m : list (Argument * Expr)) (form : Form) (x : Argument) :
  In x (occurring_arguments (replace form m)) ->
  In x (occurring_arguments form) /\ Py.get m x = None
  \/ exists a e', In a (occurring_arguments form) /\ Py.get m a = Some e'
                  /\ In x (expr_arguments e').
Proof.
  unfold occurring_arguments, replace. simpl. intros Hx.
  apply in_flat_map in Hx. destruct Hx as (i' & Hi' & Hx).
  apply in_map_iff in Hi'. destruct Hi' as (i & <- & Hi). simpl in Hx.
  destruct (replace_expr_arguments m _ x Hx) as [[Hin Hget] | (a & e' & Hin & Hget & Hx')].
  - left. split; [|exact Hget]. apply in_flat_map. eauto.
  - right. exists a, e'. split; [|auto]. apply in_flat_map. eauto.
Qed.

(** [form.arguments()] succeeds on a form whose arguments all lie in a
    list with pairwise different numbers. *)
Lemma arguments_within (form : Form) (L : list Argument) :
  NoDup (map number L) ->
  (forall x, In x (occurring_arguments form) -> In x L) ->
  exists l, arguments form = Ok l.
Proof.
  intros HL Hsub. unfold arguments.
  change (flat_map (fun i => expr_arguments (integrand i)) (integrals form))
    with (occurring_arguments form).
  destruct (decide (NoDup (map number (remove_dups (occurring_arguments form)))))
    as [_|Hbad]; [eexists; reflexivity|].
  exfalso. apply Hbad. apply NoDup_fmap_2_strong; [|apply NoDup_remove_dups].
  intros x y Hx Hy E.
  apply elem_of_remove_dups, list_elem_of_In, Hsub in Hx.
  apply elem_of_remove_dups, list_elem_of_In, Hsub in Hy.
  clear -HL Hx Hy E. induction L as [|z L IH]; [destruct Hx|].
  simpl in HL. apply NoDup_cons in HL. destruct HL as [Hz HL].
  destruct Hx as [->|Hx], Hy as [->|Hy]; auto.
  - exfalso. apply Hz. rewrite E. apply list_elem_of_In. now apply in_map.
  - exfalso. apply Hz. rewrite <- E. apply list_elem_of_In. now apply in_map.
Qed.

(** A form whose arguments are not Real is passed on as it is. *)
Lemma real_mangle_without_real (form : Form) (l : list Argument) :
  arguments form = Ok l ->
  (forall x, In x (occurring_arguments form) -> is_real x = false) ->
  _real_mangle form = Ok form.
Proof.
  intros Hl Hnone. unfold _real_mangle. rewrite Hl. simpl.
  assert (Hex : existsb (fun r => r) (map is_real l) = false).
  { apply not_true_is_false. intros Hex. apply existsb_exists in Hex.
    destruct Hex as (b & Hb & ->). apply in_map_iff in Hb. destruct Hb as (x & Hx & Hin).
    assert (Hocc : In x (occurring_arguments form)).
    { unfold arguments in Hl.
      change (flat_map (fun i => expr_arguments (integrand i)) (integrals form))
        with (occurring_arguments form) in Hl.
      destruct (decide _); [|discriminate]. inversion Hl; subst.
      apply in_sort_by in Hin.
      apply list_elem_of_In. apply list_elem_of_In in Hin.
      rewrite elem_of_remove_dups in Hin. exact Hin. }
    rewrite (Hnone x Hocc) in Hx. discriminate. }
  rewrite Hex. reflexivity.
Qed.

Lemma arguments_numbers (form : Form) (a : list Argument) :
  arguments form = Ok a ->
  NoDup (map number (remove_dups (occurring_arguments form))).
Proof.
  unfold arguments.
  change (flat_map (fun i => expr_arguments (integrand i)) (integrals form))
    with (occurring_arguments form).
  destruct (decide _); [auto | discriminate].
Qed.

(** X2. Mangling is idempotent: the form that [_real_mangle] returns is
    returned unchanged when it is mangled again. *)
Theorem real_mangle_idempotent (form form' : Form) :
  _real_mangle form = Ok form' -> _real_mangle form' = Ok form'.
Proof.
  intros Hrun.
  assert (Hnone : forall x, In x (occurring_arguments form') -> is_real x = false)
    by (intros x; now apply (mangled_has_no_real form form')).
  assert (Hargs : exists l, arguments form' = Ok l).
  { revert Hrun. unfold _real_mangle.
    destruct (arguments form) as [a| |] eqn:Ha; simpl; try discriminate.
    destruct (existsb (fun r => r) (map is_real a)); simpl;
      [|intros [= <-]; eauto].
    assert (Hget : forall x, In x (occurring_arguments form) ->
               Py.get (real_replacements a (map is_real a)) x
               = if is_real x then Some (IntValue 1) else None).
    { intros x Hx. rewrite real_replacements_get.
      rewrite (bool_decide_eq_true_2 (x ∈ a))
        by (apply list_elem_of_In; now apply (arguments_complete form)).
      now rewrite andb_true_r. }
    assert (Hplain : exists l, arguments (replace form (real_replacements a (map is_real a)))
                               = Ok l).
    { apply (arguments_within _ (remove_dups (occurring_arguments form)));
        [now apply (arguments_numbers form a)|].
      intros x Hx. apply list_elem_of_In, elem_of_remove_dups, list_elem_of_In.
      destruct (replace_arguments _ _ _ Hx) as [[Hin _] | (y & e' & Hin & Hy & Hx')];
        [exact Hin|].
      rewrite (Hget y Hin) in Hy. destruct (is_real y); [|discriminate].
      injection Hy as <-. destruct Hx'. }
    destruct (decide (map is_real a = [true; false])) as [E|_];
      [|intros [= <-]; exact Hplain].
    destruct a as [|a0 [|a1 [|? ?]]]; try discriminate E. simpl nth_error. cbv iota.
    injection E as Hr0 Hr1. intros [= <-].
    change (map is_real [a0; a1]) with [is_real a0; is_real a1] in Hget.
    apply (arguments_within _ [TestFunction (arg_function_space a1)]);
      [simpl; apply NoDup_singleton|].
    intros x Hx. left.
    destruct (replace_arguments _ _ _ Hx) as [[Hin Hx'] | (y & e' & Hin & Hy & Hx')].
    - exfalso. rewrite get_set in Hx'. destruct (decide (a1 = x)); [discriminate|].
      rewrite (Hget x Hin) in Hx'.
      destruct (arguments_complete form _ x Ha Hin) as [<-|[<-|[]]];
        [rewrite Hr0 in Hx'; discriminate | congruence].
    - rewrite get_set in Hy. destruct (decide (a1 = y)) as [<-|Hne].
      + injection Hy as <-. simpl in Hx'. destruct Hx' as [<-|[]]. reflexivity.
      + rewrite (Hget y Hin) in Hy. destruct (is_real y); [|discriminate].
        injection Hy as <-. destruct Hx'. }
  destruct Hargs as (l & Hl). now apply (real_mangle_without_real form' l).
Qed.

Lemma real_mangle_idempotent_witness :
  exists form',
    _real_mangle Sample.real_row = Ok form' /\ _real_mangle form' = Ok form'.
Proof.
  eexists. split; [vm_compute; reflexivity|].
  apply (real_mangle_idempotent Sample.real_row). vm_compute. reflexivity.
Defined.

(** ** The on-disk store *)

Lemma take_drop (n : nat) (s : string) : (str_take n s ++ str_drop n s)%string = s.
Proof.
  revert s. induction n as [|n IH]; intros [|c s]; simpl; try reflexivity.
  now rewrite IH.
Qed.

(** The shard directory and the file name determine the key. *)
Lemma shard_split_inj (key key' : string) :
  shard_of key = shard_of key' -> disk_key_of key = disk_key_of key' -> key = key'.
Proof.
  unfold shard_of, disk_key_of. intros Hs Hd.
  rewrite <- (take_drop 2 key), <- (take_drop 2 key'). now rewrite Hs, Hd.
Qed.

Lemma drop_length (n : nat) (s : string) :
  String.length (str_drop n s) = (String.length s - n)%nat.
Proof. revert s. induction n as [|n IH]; intros [|c s]; simpl; auto. Qed.

Lemma tempfile_name_length (key : string) (pid : nat) :
  (String.length (disk_key_of key) < String.length (tempfile_name key pid))%nat.
Proof.
  unfold tempfile_name. rewrite append_length. simpl. lia.
Qed.

Lemma tempfile_name_neq (key : string) (pid : nat) :
  tempfile_name key pid <> disk_key_of key.
Proof.
  intros E. pose proof (tempfile_name_length key pid) as Hlen. rewrite E in Hlen. lia.
Qed.

Lemma make_shard_make_root (shard : string) (d : Disk) :
  make_shard shard (make_root d) = make_shard shard d.
Proof. destruct d; reflexivity. Qed.

Lemma lookup_make_shard (shard : string) (d : Disk) (shard' name : string) :
  lookup_file (make_shard shard d) shard' name = lookup_file d shard' name.
Proof.
  unfold make_shard, lookup_file.
  destruct d as [shards|]; simpl.
  - destruct (shards !! shard) eqn:Hs; [reflexivity|].
    destruct (decide (shard = shard')) as [<-|Hne].
    + rewrite lookup_insert_eq, Hs. apply lookup_empty.
    + now rewrite lookup_insert_ne.
  - rewrite lookup_empty.
    destruct (decide (shard = shard')) as [<-|Hne].
    + rewrite lookup_insert_eq. apply lookup_empty.
    + rewrite lookup_insert_ne by assumption. now rewrite lookup_empty.
Qed.

Lemma make_shard_exists (shard : string) (d : Disk) :
  exists shards files, make_shard shard d = Some shards /\ shards !! shard = Some files.
Proof.
  unfold make_shard. destruct (default ∅ d !! shard) as [files|] eqn:Hs.
  - eauto.
  - eexists. eexists. split; [reflexivity|]. apply lookup_insert_eq.
Qed.

Lemma lookup_write_file (shard tmp : string) (file : File)
    (shards : gmap string (gmap string File)) (files : gmap string File)
    (shard' name : string) :
  shards !! shard = Some files ->
  lookup_file (write_file shard tmp file (Some shards)) shard' name
  = if decide ((shard', name) = (shard, tmp)) then Some file
    else lookup_file (Some shards) shard' name.
Proof.
  intros Hs. unfold write_file, lookup_file. rewrite Hs.
  destruct (decide (shard = shard')) as [<-|Hne].
  - rewrite lookup_insert_eq, Hs.
    destruct (decide (tmp = name)) as [<-|Hn].
    + rewrite lookup_insert_eq. destruct (decide _); [reflexivity | congruence].
    + rewrite lookup_insert_ne by assumption. destruct (decide _); [congruence | reflexivity].
  - rewrite lookup_insert_ne by assumption. destruct (decide _); [congruence | reflexivity].
Qed.

Lemma lookup_rename_file (shard src dst : string) (file : File) (d : Disk)
    (shard' name : string) :
  lookup_file d shard src = Some file ->
  lookup_file (rename_file shard src dst d) shard' name
  = if decide ((shard', name) = (shard, dst)) then Some file
    else if decide ((shard', name) = (shard, src)) then None
         else lookup_file d shard' name.
Proof.
  unfold rename_file, lookup_file. destruct d as [shards|]; [|discriminate].
  destruct (shards !! shard) as [files|] eqn:Hs; [|discriminate]. intros Hsrc.
  rewrite Hsrc.
  destruct (decide (shard = shard')) as [<-|Hne].
  - rewrite lookup_insert_eq, Hs.
    destruct (decide (dst = name)) as [<-|Hn].
    + rewrite lookup_insert_eq. destruct (decide _); [reflexivity | congruence].
    + rewrite lookup_insert_ne by assumption.
      destruct (decide ((shard, name) = (shard, dst))); [congruence|].
      destruct (decide (src = name)) as [<-|Hn'].
      * rewrite lookup_delete_eq. destruct (decide _); [reflexivity | congruence].
      * rewrite lookup_delete_ne by assumption.
        destruct (decide _); [congruence | reflexivity].
  - rewrite lookup_insert_ne by assumption.
    destruct (decide _); [congruence|]. destruct (decide _); [congruence | reflexivity].
Qed.

(** Reading the store after a publication. *)
Lemma lookup_published (key : string) (pid : nat) (file : File) (d : Disk)
    (shard name : string) :
  lookup_file (published key pid file d) shard name
  = if decide ((shard, name) = (shard_of key, disk_key_of key)) then Some file
    else if decide ((shard, name) = (shard_of key, tempfile_name key pid)) then None
         else lookup_file d shard name.
Proof.
  unfold published. rewrite make_shard_make_root.
  destruct (make_shard_exists (shard_of key) d) as (shards & files & Hm & Hs).
  assert (Hw : lookup_file (write_file (shard_of key) (tempfile_name key pid) file
                              (make_shard (shard_of key) d))
                           (shard_of key) (tempfile_name key pid) = Some file).
  { rewrite Hm, (lookup_write_file _ _ _ _ _ _ _ Hs).
    destruct (decide _); [reflexivity | congruence]. }
  rewrite (lookup_rename_file _ _ _ _ _ _ _ Hw).
  destruct (decide _); [reflexivity|]. destruct (decide _); [reflexivity|].
  rewrite Hm, (lookup_write_file _ _ _ _ _ _ _ Hs).
  destruct (decide _); [congruence|]. rewrite <- Hm. apply lookup_make_shard.
Qed.

Section Store.
Context `{Externals}.

(** What [_cache_store] does on rank 0. *)
Lemma cache_store_root (key : string) (comm : Comm) (val : TSFCKernel) (w : World) :
  rank comm = 0%nat ->
  exists w',
    _cache_store (key, comm) val w = (Ok (with_digest_key key val), w')
    /\ _cache w' = <[inl key := with_digest_key key val]> (_cache w)
    /\ disk w' = published key (pid w) (Gzip (pickle_dump (with_digest_key key val))) (disk w)
    /\ trace w' = (trace w ++ [EvDiskWrite key; EvBarrier])%list
    /\ next_obj w' = next_obj w /\ heap w' = heap w /\ next_loc w' = next_loc w
    /\ form_caches w' = form_caches w /\ pid w' = pid w /\ COMM_WORLD w' = COMM_WORLD w.
Proof.
  intros Hrank. unfold _cache_store, mbind, _ensure_cachedir, log, ret, comm_or_world.
  simpl. rewrite Hrank. simpl.
  destruct (py2f comm =? COMM_NULL_py2f); [destruct (rank (COMM_WORLD w) =? 0)%nat|];
    simpl; rewrite ?Hrank; simpl;
    (eexists; split; [reflexivity|]); simpl;
    rewrite insert_insert_eq, <- ?app_assoc; unfold published;
    rewrite ?make_shard_make_root;
    repeat match goal with |- _ /\ _ => split end; reflexivity.
Qed.

(** What [_cache_store] does on another rank. *)
Lemma cache_store_other (key : string) (comm : Comm) (val : TSFCKernel) (w : World) :
  rank comm <> 0%nat -> py2f comm <> COMM_NULL_py2f ->
  exists w',
    _cache_store (key, comm) val w = (Ok val, w')
    /\ _cache w' = <[inl key := val]> (_cache w)
    /\ disk w' = disk w
    /\ trace w' = (trace w ++ [EvBarrier])%list
    /\ next_obj w' = next_obj w.
Proof.
  intros Hrank Hnull. unfold _cache_store, mbind, _ensure_cachedir, log, ret. simpl.
  destruct (Z.eqb_spec (py2f comm) COMM_NULL_py2f); [contradiction|].
  destruct (Nat.eqb_spec (rank comm) 0); [contradiction|]. simpl.
  eexists. split; [reflexivity|]. simpl. repeat split; reflexivity.
Qed.

(** What a lookup that misses the in-memory probe does, by the file. *)
Lemma read_absent (key : string) (comm : Comm) (w : World) :
  lookup_file (disk w) (shard_of key) (disk_key_of key) = None ->
  exists w',
    _read_from_disk key comm w = (Raise KeyError, w')
    /\ _cache w' = _cache w /\ disk w' = disk w /\ next_obj w' = next_obj w.
Proof.
  intros Hfile. unfold _read_from_disk, mbind, log, ret, raise, read_entry.
  destruct (rank comm =? 0)%nat; simpl; rewrite Hfile; simpl;
    eexists; (split; [reflexivity|]); repeat split; reflexivity.
Qed.

Lemma read_pickle (key : string) (comm : Comm) (w : World) (p : Pickled) :
  lookup_file (disk w) (shard_of key) (disk_key_of key) = Some (Gzip (PickleOf p)) ->
  let loaded := {| obj_id := next_obj w; _key := p_key p;
                   _initialized := p_initialized p; kernels := p_kernels p |} in
  exists w',
    _read_from_disk key comm w
    = (Ok (default loaded (_cache w !! inl key)), w')
    /\ _cache w' = match _cache w !! inl key with
                   | Some _ => _cache w
                   | None => <[inl key := loaded]> (_cache w)
                   end
    /\ disk w' = disk w /\ next_obj w' = S (next_obj w)
    /\ trace w' = (trace w ++ (if (rank comm =? 0)%nat then [EvDiskRead key; EvBcast]
                               else [EvBcast]))%list.
Proof.
  intros Hfile loaded.
  unfold _read_from_disk, mbind, log, ret, raise, read_entry, pickle_loads, fresh_obj,
    cache_setdefault.
  destruct (rank comm =? 0)%nat; simpl; rewrite Hfile; simpl;
    destruct (_cache w !! inl key) eqn:Hmem; simpl;
    eexists; (split; [reflexivity|]); simpl; rewrite <- ?app_assoc;
    repeat split; reflexivity.
Qed.

(** X3. On rank 0 [_cache_store] publishes the object: the entry of the
    digest then holds its pickle, with [_key] set to the digest; the
    temporary file is gone; the entry of every other key of the same
    length is what it was; and the in-memory table holds the object under
    the digest. *)
Theorem store_publishes (key : string) (comm : Comm) (val : TSFCKernel) (w : World) :
  rank comm = 0%nat ->
  let w' := snd (_cache_store (key, comm) val w) in
  let stored := with_digest_key key val in
  fst (_cache_store (key, comm) val w) = Ok stored
  /\ lookup_file (disk w') (shard_of key) (disk_key_of key) = Some (Gzip (pickle_dump stored))
  /\ lookup_file (disk w') (shard_of key) (tempfile_name key (pid w)) = None
  /\ (forall key',
        key' <> key -> String.length key' = String.length key ->
        lookup_file (disk w') (shard_of key') (disk_key_of key')
        = lookup_file (disk w) (shard_of key') (disk_key_of key'))
  /\ _cache w' !! inl key = Some stored.
Proof.
  intros Hrank. destruct (cache_store_root key comm val w Hrank)
    as (w1 & Hrun & Hmem & Hdisk & _).
  rewrite Hrun. simpl. rewrite Hdisk, Hmem. split; [reflexivity|].
  split; [|split; [|split]].
  - rewrite lookup_published. destruct (decide _); [reflexivity | congruence].
  - rewrite lookup_published.
    destruct (decide _) as [E|_]; [|destruct (decide _); [reflexivity | congruence]].
    injection E as E. now apply tempfile_name_neq in E.
  - intros key' Hne Hlen. rewrite lookup_published.
    destruct (decide _) as [E|_].
    { injection E as E1 E2. exfalso. apply Hne. now apply shard_split_inj. }
    destruct (decide _) as [E|_]; [|reflexivity].
    injection E as E1 E2. exfalso.
    pose proof (tempfile_name_length key (pid w)) as Hlt.
    rewrite <- E2 in Hlt. unfold disk_key_of in Hlt. rewrite !drop_length in Hlt. lia.
  - apply lookup_insert_eq.
Qed.

(** X4. On a rank other than 0 [_cache_store] only fills the in-memory
    table and waits at the barrier: it returns the object as it is and
    leaves the disk alone. *)
Theorem store_on_other_rank (key : string) (comm : Comm) (val : TSFCKernel) (w : World) :
  rank comm <> 0%nat -> py2f comm <> COMM_NULL_py2f ->
  let w' := snd (_cache_store (key, comm) val w) in
  fst (_cache_store (key, comm) val w) = Ok val
  /\ disk w' = disk w
  /\ _cache w' = <[inl key := val]> (_cache w)
  /\ trace w' = (trace w ++ [EvBarrier])%list.
Proof.
  intros Hrank Hnull. destruct (cache_store_other key comm val w Hrank Hnull)
    as (w1 & Hrun & Hmem & Hdisk & Htrace & _).
  rewrite Hrun. simpl. auto.
Qed.

(** X5. When the table already holds an object under the digest, a lookup
    that finds the entry on disk unpickles it and then returns the object
    of the table, not the copy it has just loaded; the table stays as it
    is. *)
Theorem lookup_prefers_memory (key : string) (comm : Comm) (w : World)
    (old : TSFCKernel) (p : Pickled) :
  py2f comm <> COMM_NULL_py2f ->
  _cache w !! inr (key, py2f comm) = None ->
  _cache w !! inl key = Some old ->
  lookup_file (disk w) (shard_of key) (disk_key_of key) = Some (Gzip (PickleOf p)) ->
  let w' := snd (_cache_lookup (key, comm) w) in
  fst (_cache_lookup (key, comm) w) = Ok old
  /\ _cache w' = _cache w /\ disk w' = disk w /\ next_obj w' = S (next_obj w).
Proof.
  intros Hnull Hmiss Hold Hfile. rewrite cache_lookup_miss by assumption.
  destruct (read_pickle key comm w p Hfile) as (w1 & Hrun & Hmem & Hdisk & Hnext & _).
  rewrite Hrun. simpl. rewrite Hold in Hmem |- *. simpl. auto.
Qed.

(** X6. Round trip through the disk: what rank 0 stores under a digest, a
    process whose table has nothing for the digest reads back as a new
    object with the same kernels, marked initialised as the stored one,
    with [_key] the digest, and puts it into its table under the digest. *)
Theorem store_lookup_round_trip (key : string) (comm comm' : Comm) (val : TSFCKernel)
    (w reader : World) :
  rank comm = 0%nat ->
  py2f comm' <> COMM_NULL_py2f ->
  _cache reader !! inr (key, py2f comm') = None ->
  _cache reader !! inl key = None ->
  disk reader = disk (snd (_cache_store (key, comm) val w)) ->
  let loaded := reloaded (next_obj reader) (with_digest_key key val) in
  fst (_cache_lookup (key, comm') reader) = Ok loaded
  /\ kernels loaded = kernels val
  /\ _cache (snd (_cache_lookup (key, comm') reader)) = <[inl key := loaded]> (_cache reader).
Proof.
  intros Hrank Hnull Hmiss Hcold Hdisk loaded.
  destruct (cache_store_root key comm val w Hrank) as (w1 & Hrun & _ & Hpub & _).
  rewrite Hrun in Hdisk. cbn [snd] in Hdisk.
  assert (Hfile : lookup_file (disk reader) (shard_of key) (disk_key_of key)
                  = Some (Gzip (pickle_dump (with_digest_key key val)))).
  { rewrite Hdisk, Hpub, lookup_published. destruct (decide _); [reflexivity | congruence]. } rewrite cache_lookup_miss by assumption.
  destruct (read_pickle key comm' reader _ Hfile) as (w2 & Hread & Hmem & _).
  rewrite Hread. simpl. rewrite Hcold in Hmem |- *. simpl. auto.
Qed.

(** X7. An entry whose read fails with an exception other than
    [zlib.error] is not treated as absent: rank 0 leaves the lookup with
    the [OSError] before it has broadcast anything, and every other rank
    of the group stays in the broadcast. *)
Theorem unreadable_entry_splits_the_group (key : string) (comm : Comm) (w : World) :
  py2f comm <> COMM_NULL_py2f ->
  _cache w !! inr (key, py2f comm) = None ->
  lookup_file (disk w) (shard_of key) (disk_key_of key) = Some NotGzip ->
  fst (_cache_lookup (key, comm) w)
  = (if (rank comm =? 0)%nat then Raise OSError else Blocked)
  /\ trace (snd (_cache_lookup (key, comm) w))
     = (trace w ++ (if (rank comm =? 0)%nat then [EvDiskRead key] else [EvBcast]))%list.
Proof.
  intros Hnull Hmiss Hfile. rewrite cache_lookup_miss by assumption.
  unfold _read_from_disk, mbind, log, ret, raise, read_entry.
  destruct (rank comm =? 0)%nat; simpl; rewrite Hfile; simpl; auto.
Qed.

Context `{FileSystem}.

(** What [clear_cache] does on the root process. *)
Lemma clear_cache_root (comm : option Comm) (w : World) :
  rank (comm_or_world comm w) = 0%nat ->
  clear_cache comm w = (Ok tt, set_disk (make_root (rmtree (disk w))) w).
Proof.
  intros Hroot. unfold clear_cache, _ensure_cachedir. rewrite Hroot.
  assert (Hsame : comm_or_world (Some (comm_or_world comm w))
                                (set_disk (rmtree (disk w)) w) = comm_or_world comm w).
  { unfold comm_or_world. simpl.
    destruct comm as [c|]; [destruct (py2f c =? COMM_NULL_py2f) eqn:E|]; simpl;
      rewrite ?E; try reflexivity;
      now destruct (py2f (COMM_WORLD w) =? COMM_NULL_py2f). }
  rewrite Hsame, Hroot. reflexivity.
Qed.

(** X8. After [clear_cache] on the root process, a lookup that misses
    the in-memory probe raises [KeyError], on every rank, for every
    digest whose file the removal of the tree has taken away: for every
    digest when the removal succeeded. *)
Theorem lookup_after_clear_misses (clearing : option Comm) (key : string) (comm : Comm)
    (w : World) :
  rank (comm_or_world clearing w) = 0%nat ->
  py2f comm <> COMM_NULL_py2f ->
  _cache w !! inr (key, py2f comm) = None ->
  lookup_file (rmtree (disk w)) (shard_of key) (disk_key_of key) = None ->
  fst (_cache_lookup (key, comm) (snd (clear_cache clearing w))) = Raise KeyError.
Proof.
  intros Hroot Hnull Hmiss Hgone. rewrite (clear_cache_root clearing w Hroot).
  cbn [snd]. rewrite cache_lookup_miss by assumption.
  destruct (read_absent key comm (set_disk (make_root (rmtree (disk w))) w))
    as (w2 & Hread & _).
  { cbn [set_disk disk]. now rewrite lookup_make_root. }
  now rewrite Hread.
Qed.

End Store.

Lemma store_publishes_witness :
  let w' := snd (_cache_store (Sample.a_digest, Sample.comm0) Sample.new_obj Sample.world0) in
  let stored := with_digest_key Sample.a_digest Sample.new_obj in
  fst (_cache_store (Sample.a_digest, Sample.comm0) Sample.new_obj Sample.world0) = Ok stored
  /\ lookup_file (disk w') (shard_of Sample.a_digest) (disk_key_of Sample.a_digest)
     = Some (Gzip (pickle_dump stored))
  /\ lookup_file (disk w') (shard_of Sample.a_digest)
       (tempfile_name Sample.a_digest (pid Sample.world0)) = None
  /\ (forall key',
        key' <> Sample.a_digest -> String.length key' = String.length Sample.a_digest ->
        lookup_file (disk w') (shard_of key') (disk_key_of key')
        = lookup_file (disk Sample.world0) (shard_of key') (disk_key_of key'))
  /\ _cache w' !! inl Sample.a_digest = Some stored.
Proof.
  apply (@store_publishes Sample.externals Sample.a_digest Sample.comm0 Sample.new_obj
           Sample.world0).
  reflexivity.
Defined.

Lemma store_on_other_rank_witness :
  let w' := snd (_cache_store (Sample.a_digest, Sample.comm1) Sample.new_obj Sample.world0) in
  fst (_cache_store (Sample.a_digest, Sample.comm1) Sample.new_obj Sample.world0)
  = Ok Sample.new_obj
  /\ disk w' = disk Sample.world0
  /\ _cache w' = <[inl Sample.a_digest := Sample.new_obj]> (_cache Sample.world0)
  /\ trace w' = (trace Sample.world0 ++ [EvBarrier])%list.
Proof.
  apply (@store_on_other_rank Sample.externals Sample.a_digest Sample.comm1 Sample.new_obj
           Sample.world0).
  - vm_compute. discriminate.
  - vm_compute. discriminate.
Defined.

Lemma lookup_prefers_memory_witness :
  let w := set_disk (Sample.disk_with (Gzip (PickleOf Sample.a_pickle))) Sample.world_stale in
  let w' := snd (_cache_lookup (Sample.a_digest, Sample.comm0) w) in
  fst (_cache_lookup (Sample.a_digest, Sample.comm0) w) = Ok Sample.stale_obj
  /\ _cache w' = _cache w /\ disk w' = disk w /\ next_obj w' = S (next_obj w).
Proof.
  apply (@lookup_prefers_memory Sample.externals Sample.a_digest Sample.comm0
           (set_disk (Sample.disk_with (Gzip (PickleOf Sample.a_pickle))) Sample.world_stale)
           Sample.stale_obj Sample.a_pickle).
  - vm_compute. discriminate.
  - vm_compute. reflexivity.
  - vm_compute. reflexivity.
  - vm_compute. reflexivity.
Defined.

Lemma store_lookup_round_trip_witness :
  let reader :=
    set_disk (disk (snd (_cache_store (Sample.a_digest, Sample.comm0) Sample.new_obj
                           Sample.world0)))
             Sample.other_world in
  let loaded := reloaded (next_obj reader) (with_digest_key Sample.a_digest Sample.new_obj) in
  fst (_cache_lookup (Sample.a_digest, Sample.comm1) reader) = Ok loaded
  /\ kernels loaded = kernels Sample.new_obj
  /\ _cache (snd (_cache_lookup (Sample.a_digest, Sample.comm1) reader))
     = <[inl Sample.a_digest := loaded]> (_cache reader).
Proof.
  apply (@store_lookup_round_trip Sample.externals Sample.a_digest Sample.comm0 Sample.comm1
           Sample.new_obj Sample.world0).
  - reflexivity.
  - vm_compute. discriminate.
  - vm_compute. reflexivity.
  - vm_compute. reflexivity.
  - reflexivity.
Defined.

Lemma unreadable_entry_splits_the_group_witness :
  fst (_cache_lookup (Sample.a_digest, Sample.comm1) (Sample.world_with NotGzip)) = Blocked
  /\ fst (_cache_lookup (Sample.a_digest, Sample.comm0) (Sample.world_with NotGzip))
     = Raise OSError.
Proof.
  split.
  - apply (@unreadable_entry_splits_the_group Sample.externals Sample.a_digest Sample.comm1
             (Sample.world_with NotGzip)).
    + vm_compute. discriminate.
    + vm_compute. reflexivity.
    + vm_compute. reflexivity.
  - apply (@unreadable_entry_splits_the_group Sample.externals Sample.a_digest Sample.comm0
             (Sample.world_with NotGzip)).
    + vm_compute. discriminate.
    + vm_compute. reflexivity.
    + vm_compute. reflexivity.
Defined.

Lemma lookup_after_clear_misses_witness :
  fst (_cache_lookup (Sample.a_digest, Sample.comm1)
         (snd (@clear_cache Sample.externals Sample.file_system None
                 (Sample.world_with (Gzip (PickleOf Sample.a_pickle))))))
  = Raise KeyError.
Proof.
  apply (@lookup_after_clear_misses Sample.externals Sample.file_system None
           Sample.a_digest Sample.comm1
           (Sample.world_with (Gzip (PickleOf Sample.a_pickle)))).
  - reflexivity.
  - vm_compute. discriminate.
  - vm_compute. reflexivity.
  - reflexivity.
Defined.

(** ** The construction [TSFCKernel(...)] *)

Section Construction.
Context `{Externals}.

Lemma init_of_initialised self form name parameters nm snm interface coffee diagonal idx w :
  _initialized self = true ->
  __init__ self form name parameters nm snm interface coffee diagonal idx w = (Ok self, w).
Proof. intros Hinit. unfold __init__. now rewrite Hinit. Qed.

(** The construction, step by step. *)
Lemma new_TSFCKernel_unfold form name parameters nm snm interface coffee diagonal idx w :
  new_TSFCKernel form name parameters nm snm interface coffee diagonal idx w
  = match _cache_key (deref w coffee_loc) form name (deref w parameters) nm snm
                     interface coffee diagonal idx with
    | Ok key =>
        mbind
          (try_except (_cache_lookup key) caught_by_new
             (mbind
                (mbind fresh_obj
                   (fun i =>
                      __init__ {| obj_id := i; _key := KeyWithComm (fst key) (snd key);
                                  _initialized := false; kernels := [] |}
                               form name parameters nm snm interface coffee diagonal idx))
                (_cache_store key)))
          (fun obj => __init__ obj form name parameters nm snm interface coffee diagonal idx)
          (logged [EvCacheKey form] w)
    | Raise e => (Raise e, logged [EvCacheKey form] w)
    | Blocked => (Blocked, logged [EvCacheKey form] w)
    end.
Proof.
  unfold new_TSFCKernel, mbind at 1 2 3 4, read, log, lift, logged. cbn beta iota.
  now destruct (_cache_key _ _ _ _ _ _ _ _ _ _).
Qed.

Lemma read_absent_root (key : string) (comm : Comm) (w : World) :
  rank comm = 0%nat ->
  lookup_file (disk w) (shard_of key) (disk_key_of key) = None ->
  _read_from_disk key comm w = (Raise KeyError, logged [EvDiskRead key; EvBcast] w).
Proof.
  intros Hrank Hfile. unfold _read_from_disk, mbind, log, ret, raise, read_entry, logged.
  rewrite Hrank. simpl. rewrite Hfile. simpl. now rewrite <- app_assoc.
Qed.

(** What [__init__] does to an object that is not initialised. *)
Lemma init_fresh self form name parameters nm snm interface coffee diagonal idx w :
  _initialized self = false ->
  __init__ self form name parameters nm snm interface coffee diagonal idx w
  = (match compile_local_form form name (preprocess_parameters (deref w parameters))
                              interface coffee diagonal with
     | Ok tree =>
         match mapM (kernel_info (deref w coffee_loc) nm snm) tree with
         | Ok kinfos => Ok {| obj_id := obj_id self; _key := _key self;
                              _initialized := true; kernels := kinfos |}
         | Raise e => Raise e
         | Blocked => Blocked
         end
     | Raise e => Raise e
     | Blocked => Blocked
     end, logged [EvLower form name] w).
Proof.
  intros Hinit. unfold __init__, mbind, read, log, lift, ret, logged. rewrite Hinit.
  simpl. destruct (compile_local_form _ _ _ _ _ _); simpl; try reflexivity.
  unfold deref. simpl. now destruct (mapM _ _).
Qed.

(** A construction that finds nothing, neither in the table nor on disk,
    on rank 0. *)
Lemma new_cold form name parameters nm snm interface coffee diagonal idx w key comm obj :
  _cache_key (deref w coffee_loc) form name (deref w parameters) nm snm
             interface coffee diagonal idx = Ok (key, comm) ->
  rank comm = 0%nat ->
  py2f comm <> COMM_NULL_py2f ->
  _cache w !! inr (key, py2f comm) = None ->
  lookup_file (disk w) (shard_of key) (disk_key_of key) = None ->
  fst (new_TSFCKernel form name parameters nm snm interface coffee diagonal idx w) = Ok obj ->
  exists w1,
    new_TSFCKernel form name parameters nm snm interface coffee diagonal idx w = (Ok obj, w1)
    /\ _initialized obj = true
    /\ _cache w1 = <[inl key := obj]> (_cache w)
    /\ disk w1 = published key (pid w) (Gzip (pickle_dump obj)) (disk w)
    /\ trace w1 = (trace w ++ [EvCacheKey form; EvDiskRead key; EvBcast; EvLower form name;
                               EvDiskWrite key; EvBarrier])%list
    /\ heap w1 = heap w.
Proof.
  intros Hkey Hrank Hnull Hmiss Hfile.
  remember (new_TSFCKernel form name parameters nm snm interface coffee diagonal idx w)
    as run eqn:Hr.
  rewrite new_TSFCKernel_unfold, Hkey in Hr.
  unfold mbind at 1, try_except in Hr.
  rewrite cache_lookup_miss in Hr by assumption.
  rewrite read_absent_root in Hr by assumption.
  cbn [caught_by_new] in Hr. unfold mbind at 1 2, fresh_obj at 1 in Hr.
  cbn beta iota in Hr. rewrite init_fresh in Hr by reflexivity.
  cbn [fst snd obj_id _key] in Hr.
  destruct (compile_local_form _ _ _ _ _ _) as [tree| |]; [|now subst run..].
  destruct (mapM _ _) as [kinfos| |]; [|now subst run..].
  match type of Hr with context [_cache_store (key, comm) ?made ?w3] =>
    destruct (cache_store_root key comm made w3 Hrank)
      as (w4 & Hstore & Hmem & Hdisk & Htrace & _ & Hheap & _)
  end.
  rewrite Hstore in Hr. rewrite init_of_initialised in Hr by reflexivity. subst run.
  cbn [fst]. intros [= <-]. exists w4. split; [reflexivity|]. split; [reflexivity|].
  rewrite Hmem, Hdisk, Htrace, Hheap. simpl. rewrite <- !app_assoc.
  repeat match goal with |- _ /\ _ => split end; reflexivity.
Qed.

Lemma read_absent_logged (key : string) (comm : Comm) (w : World) :
  lookup_file (disk w) (shard_of key) (disk_key_of key) = None ->
  _read_from_disk key comm w
  = (Raise KeyError,
     logged (if (rank comm =? 0)%nat then [EvDiskRead key; EvBcast] else [EvBcast]) w).
Proof.
  intros Hfile. unfold _read_from_disk, mbind, log, ret, raise, read_entry, logged.
  destruct (rank comm =? 0)%nat; simpl; rewrite Hfile; simpl;
    rewrite <- ?app_assoc; reflexivity.
Qed.

(** X9. When the lookup finds nothing, neither in the table nor on
    disk, and the work of [__init__] on the new object fails, in the
    lowering or on a number that a number map lacks, the construction
    raises that exception and has published nothing: [_cache_store] is
    not reached, the in-memory table and the disk are as they were, and
    the trace ends with the lowering. *)
Theorem failed_lowering_publishes_nothing (form : Form) (name : string) (parameters : nat)
    (number_map subspace_number_map : Py.dict Z Z) (interface : Interface)
    (coffee diagonal : bool) (idx : option (list (option Z))) (w : World)
    (key : string) (comm : Comm) (e : exn) :
  _cache_key (deref w coffee_loc) form name (deref w parameters) number_map
             subspace_number_map interface coffee diagonal idx = Ok (key, comm) ->
  py2f comm <> COMM_NULL_py2f ->
  _cache w !! inr (key, py2f comm) = None ->
  lookup_file (disk w) (shard_of key) (disk_key_of key) = None ->
  kernel_infos w form name parameters number_map subspace_number_map interface coffee
               diagonal = Raise e ->
  let run := new_TSFCKernel form name parameters number_map subspace_number_map
                            interface coffee diagonal idx w in
  fst run = Raise e
  /\ _cache (snd run) = _cache w
  /\ disk (snd run) = disk w
  /\ trace (snd run)
     = (trace w ++ EvCacheKey form
          :: (if (rank comm =? 0)%nat then [EvDiskRead key; EvBcast] else [EvBcast])
          ++ [EvLower form name])%list.
Proof.
  intros Hkey Hnull Hmiss Hfile Hfail. cbv zeta.
  remember (new_TSFCKernel form name parameters number_map subspace_number_map
              interface coffee diagonal idx w) as run eqn:Hr.
  rewrite new_TSFCKernel_unfold, Hkey in Hr.
  unfold mbind at 1, try_except in Hr.
  rewrite cache_lookup_miss in Hr by assumption.
  rewrite read_absent_logged in Hr by assumption.
  cbn [caught_by_new] in Hr. unfold mbind at 1 2, fresh_obj at 1 in Hr.
  cbn beta iota in Hr. rewrite init_fresh in Hr by reflexivity.
  unfold kernel_infos, bind in Hfail. unfold deref in Hfail, Hr. cbn [logged heap] in Hr.
  destruct (compile_local_form _ _ _ _ _ _) as [tree| |]; try discriminate.
  - destruct (mapM _ tree) as [kinfos| |]; try discriminate.
    injection Hfail as ->. subst run. cbn [fst snd logged _cache disk trace].
    rewrite <- !app_assoc. repeat split; reflexivity.
  - injection Hfail as ->. subst run. cbn [fst snd logged _cache disk trace].
    rewrite <- !app_assoc. repeat split; reflexivity.
Qed.

(** X10. On rank 0, after a construction that found nothing and
    compiled, a second construction with the same arguments returns the
    very object of the first without lowering again: it computes the
    key, reads the entry from disk, and takes the object the table holds
    under the digest. *)
Theorem second_construction_reuses_the_object (form : Form) (name : string)
    (parameters : nat) (number_map subspace_number_map : Py.dict Z Z)
    (interface : Interface) (coffee diagonal : bool) (idx : option (list (option Z)))
    (w : World) (key : string) (comm : Comm) (obj : TSFCKernel) :
  _cache_key (deref w coffee_loc) form name (deref w parameters) number_map
             subspace_number_map interface coffee diagonal idx = Ok (key, comm) ->
  rank comm = 0%nat ->
  py2f comm <> COMM_NULL_py2f ->
  _cache w !! inr (key, py2f comm) = None ->
  lookup_file (disk w) (shard_of key) (disk_key_of key) = None ->
  fst (new_TSFCKernel form name parameters number_map subspace_number_map
         interface coffee diagonal idx w) = Ok obj ->
  let w1 := snd (new_TSFCKernel form name parameters number_map subspace_number_map
                   interface coffee diagonal idx w) in
  let again := new_TSFCKernel form name parameters number_map subspace_number_map
                 interface coffee diagonal idx w1 in
  trace w1 = (trace w ++ [EvCacheKey form; EvDiskRead key; EvBcast; EvLower form name;
                           EvDiskWrite key; EvBarrier])%list
  /\ fst again = Ok obj
  /\ trace (snd again) = (trace w1 ++ [EvCacheKey form; EvDiskRead key; EvBcast])%list
  /\ disk (snd again) = disk w1.
Proof.
  intros Hkey Hrank Hnull Hmiss Hfile Hfirst.
  destruct (new_cold _ _ _ _ _ _ _ _ _ _ _ _ _ Hkey Hrank Hnull Hmiss Hfile Hfirst)
    as (w1 & Hrun & Hinit & Hmem & Hdisk & Htrace & Hheap).
  rewrite Hrun. cbn [snd]. cbv zeta.
  remember (new_TSFCKernel form name parameters number_map subspace_number_map
              interface coffee diagonal idx w1) as run eqn:Hr.
  rewrite new_TSFCKernel_unfold in Hr. unfold deref in Hr. rewrite Hheap in Hr.
  fold (deref w coffee_loc) in Hr. fold (deref w parameters) in Hr. rewrite Hkey in Hr.
  unfold mbind at 1, try_except in Hr.
  rewrite cache_lookup_miss in Hr;
    [|exact Hnull | cbn [logged _cache]; rewrite Hmem; now rewrite lookup_insert_ne].
  destruct (read_pickle key comm (logged [EvCacheKey form] w1)
              {| p_key := _key obj; p_initialized := _initialized obj;
                 p_kernels := kernels obj |})
    as (w2 & Hread & _ & Hdisk2 & _ & Htrace2).
  { cbn [logged disk]. rewrite Hdisk, lookup_published.
    destruct (decide _); [reflexivity | congruence]. }
  rewrite Hread in Hr. cbn [logged _cache] in Hr. rewrite Hmem, lookup_insert_eq in Hr.
  cbn [default] in Hr. rewrite init_of_initialised in Hr by exact Hinit. subst run.
  cbn [fst snd]. rewrite Htrace2, Hdisk2, Hrank. cbn [logged trace disk].
  rewrite <- app_assoc. auto.
Qed.

End Construction.

Lemma failed_lowering_publishes_nothing_witness :
  let run := new_TSFCKernel Sample.poisson "form" Sample.caller_parameters [] []
                            NoInterface true false None Sample.world0 in
  fst run = Raise KeyError
  /\ _cache (snd run) = _cache Sample.world0
  /\ disk (snd run) = disk Sample.world0.
Proof.
  cbv zeta.
  destruct (@failed_lowering_publishes_nothing Sample.externals Sample.poisson "form"
              Sample.caller_parameters [] [] NoInterface true false None Sample.world0
              (digest Sample.coffee_defaults Sample.poisson "form"
                 [("mode", Py.VStr "spectral")] [] [] NoInterface true false None)
              Sample.comm0 KeyError)
    as (Hrun & Hmem & Hdisk & _).
  - vm_compute. reflexivity.
  - vm_compute. discriminate.
  - vm_compute. reflexivity.
  - vm_compute. reflexivity.
  - vm_compute. reflexivity.
  - auto.
Defined.

Lemma second_construction_reuses_the_object_witness :
  exists obj,
    fst (new_TSFCKernel Sample.poisson "form" Sample.caller_parameters [(0, 0)] []
           NoInterface true false None Sample.world0) = Ok obj
    /\ fst (new_TSFCKernel Sample.poisson "form" Sample.caller_parameters [(0, 0)] []
              NoInterface true false None
              (snd (new_TSFCKernel Sample.poisson "form" Sample.caller_parameters
                      [(0, 0)] [] NoInterface true false None Sample.world0)))
       = Ok obj.
Proof.
  eexists. split; [vm_compute; reflexivity|].
  apply (@second_construction_reuses_the_object Sample.externals Sample.poisson "form"
           Sample.caller_parameters [(0, 0)] [] NoInterface true false None Sample.world0
           (digest Sample.coffee_defaults Sample.poisson "form"
              [("mode", Py.VStr "spectral")] [(0, 0)] [] NoInterface true false None)
           Sample.comm0).
  - vm_compute. reflexivity.
  - reflexivity.
  - vm_compute. discriminate.
  - vm_compute. reflexivity.
  - vm_compute. reflexivity.
  - vm_compute. reflexivity.
Defined.

(** ** [TSFCKernel.__init__]: unwinding the numbering *)

Lemma mapM_Forall2 {A B} (f : A -> result B) (l : list A) (l' : list B) :
  mapM f l = Ok l' -> Forall2 (fun x y => f x = Ok y) l l'.
Proof.
  revert l'. induction l as [|x l IH]; intros l' Hm; simpl in Hm.
  - inversion Hm. constructor.
  - destruct (f x) as [b| |] eqn:Hfx; simpl in Hm; try discriminate.
    destruct (mapM f l) as [bs| |]; simpl in Hm; try discriminate.
    inversion Hm; subst. constructor; [exact Hfx | now apply IH].
Qed.

(** A loop whose body raises nothing but [e] raises [e] as soon as one
    of its items does. *)
Lemma mapM_raises {A B} (f : A -> result B) (e : exn) (l : list A) :
  (forall x, In x l -> f x = Raise e \/ exists y, f x = Ok y) ->
  (exists x, In x l /\ f x = Raise e) ->
  mapM f l = Raise e.
Proof.
  induction l as [|x l IH]; intros Hall (x0 & Hin & Hx0); [destruct Hin|]. simpl.
  destruct (Hall x (or_introl eq_refl)) as [Hx | (y & Hx)]; rewrite Hx; simpl;
    [reflexivity|].
  rewrite IH; [reflexivity | intros x' Hx'; apply Hall; now right |].
  destruct Hin as [->|Hin]; [congruence|]. exists x0. split; assumption.
Qed.

Lemma getitem_cases {K V} `{EqDecision K} (d : Py.dict K V) (k : K) :
  getitem d k = Raise KeyError \/ exists v, getitem d k = Ok v.
Proof. unfold getitem. destruct (Py.get d k); [right; eauto | now left]. Qed.

Lemma getitem_ok {K V} `{EqDecision K} (d : Py.dict K V) (k : K) (v : V) :
  getitem d k = Ok v <-> Py.get d k = Some v.
Proof.
  unfold getitem. destruct (Py.get d k); split; intros E; inversion E; reflexivity.
Qed.

Lemma mapM_getitem_cases {K V} `{EqDecision K} (d : Py.dict K V) (l : list K) :
  mapM (getitem d) l = Raise KeyError \/ exists vs, mapM (getitem d) l = Ok vs.
Proof.
  induction l as [|k l IH]; simpl; [right; eauto|].
  destruct (getitem_cases d k) as [E | (v & E)]; rewrite E; simpl; [now left|].
  destruct IH as [E' | (vs & E')]; rewrite E'; simpl; [now left | right; eauto].
Qed.

Lemma kernel_info_cases opts number_map subspace_number_map k :
  kernel_info opts number_map subspace_number_map k = Raise KeyError
  \/ exists ki, kernel_info opts number_map subspace_number_map k = Ok ki.
Proof.
  unfold kernel_info.
  destruct (mapM_getitem_cases number_map (coefficient_numbers k)) as [E | (vs & E)];
    rewrite E; simpl; [now left|].
  destruct (mapM_getitem_cases subspace_number_map (external_data_numbers k))
    as [E' | (vs' & E')]; rewrite E'; simpl; [now left | right; eauto].
Qed.

Lemma kernel_info_wraps opts number_map subspace_number_map k ki :
  kernel_info opts number_map subspace_number_map k = Ok ki ->
  wraps opts number_map subspace_number_map k ki.
Proof.
  unfold kernel_info. intros Hk.
  destruct (mapM (getitem number_map) (coefficient_numbers k)) as [ns| |] eqn:Hn;
    simpl in Hk; try discriminate.
  destruct (mapM (getitem subspace_number_map) (external_data_numbers k)) as [ss| |] eqn:Hs;
    simpl in Hk; try discriminate.
  inversion Hk; subst. unfold wraps, unwinds. simpl.
  repeat match goal with |- _ /\ _ => split end; try reflexivity.
  - apply mapM_Forall2 in Hn. eapply Forall2_impl; [exact Hn|].
    intros n g. apply getitem_ok.
  - apply mapM_Forall2 in Hs. eapply Forall2_impl; [exact Hs|].
    intros n g. apply getitem_ok.
Qed.

Section Init.
Context `{Externals}.

(** X11. [__init__] fills a not yet initialised object with one
    [KernelInfo] for each kernel of the tree that the lowering returned,
    in the order of the tree; each carries the name and the code of its
    kernel, the [coffee] defaults as options, and the kernel's local
    coefficient and subspace numbers translated through [number_map] and
    [subspace_number_map], entry by entry. *)
Theorem init_unwinds_the_numbering (self : TSFCKernel) (form : Form) (name : string)
    (parameters : nat) (number_map subspace_number_map : Py.dict Z Z)
    (interface : Interface) (coffee diagonal : bool) (idx : option (list (option Z)))
    (w : World) (obj : TSFCKernel) :
  _initialized self = false ->
  fst (__init__ self form name parameters number_map subspace_number_map interface
                coffee diagonal idx w) = Ok obj ->
  exists tree,
    compile_local_form form name (preprocess_parameters (deref w parameters))
                       interface coffee diagonal = Ok tree
    /\ Forall2 (wraps (deref w coffee_loc) number_map subspace_number_map)
               tree (kernels obj)
    /\ _initialized obj = true /\ obj_id obj = obj_id self /\ _key obj = _key self.
Proof.
  intros Hinit. rewrite init_fresh by exact Hinit. cbn [fst].
  destruct (compile_local_form _ _ _ _ _ _) as [tree| |]; try discriminate.
  destruct (mapM _ tree) as [kinfos| |] eqn:Hks; try discriminate.
  intros [= <-]. exists tree. split; [reflexivity|]. simpl.
  split; [|auto]. apply mapM_Forall2 in Hks. eapply Forall2_impl; [exact Hks|].
  intros k ki. apply kernel_info_wraps.
Qed.

(** X12. When a kernel of the tree uses a local coefficient number that
    [number_map] does not define, [__init__] raises [KeyError] after the
    lowering has run, whatever the other kernels are. *)
Theorem init_missing_number_is_a_key_error (self : TSFCKernel) (form : Form)
    (name : string) (parameters : nat) (number_map subspace_number_map : Py.dict Z Z)
    (interface : Interface) (coffee diagonal : bool) (idx : option (list (option Z)))
    (w : World) (tree : list TSFCKernelData) (k : TSFCKernelData) (n : Z) :
  _initialized self = false ->
  compile_local_form form name (preprocess_parameters (deref w parameters))
                     interface coffee diagonal = Ok tree ->
  In k tree -> In n (coefficient_numbers k) -> Py.get number_map n = None ->
  __init__ self form name parameters number_map subspace_number_map interface
           coffee diagonal idx w
  = (Raise KeyError, logged [EvLower form name] w).
Proof.
  intros Hinit Htree Hk Hn Hget. rewrite init_fresh by exact Hinit. rewrite Htree.
  rewrite (mapM_raises _ KeyError); [reflexivity | |].
  - intros k' _. apply kernel_info_cases.
  - exists k. split; [exact Hk|]. unfold kernel_info.
    rewrite (mapM_raises _ KeyError); [reflexivity | |].
    + intros n' _. apply getitem_cases.
    + exists n. split; [exact Hn|]. unfold getitem. now rewrite Hget.
Qed.

End Init.

Lemma init_unwinds_the_numbering_witness :
  exists obj tree,
    fst (__init__ {| obj_id := 0; _key := KeyAlone Sample.a_digest; _initialized := false;
                     kernels := [] |}
                  Sample.poisson "form" form_compiler_loc [(0, 5)] [] NoInterface
                  false false None Sample.world0) = Ok obj
    /\ Forall2 (wraps Sample.coffee_defaults [(0, 5)] []) tree (kernels obj)
    /\ map coefficient_map (kernels obj) = [[5]].
Proof.
  destruct (@init_unwinds_the_numbering Sample.externals
              {| obj_id := 0; _key := KeyAlone Sample.a_digest; _initialized := false;
                 kernels := [] |}
              Sample.poisson "form" form_compiler_loc [(0, 5)] [] NoInterface
              false false None Sample.world0 _ eq_refl
              ltac:(vm_compute; reflexivity))
    as (tree & _ & Hwraps & _).
  eexists. exists tree. split; [vm_compute; reflexivity|]. split; [exact Hwraps|].
  vm_compute. reflexivity.
Defined.

Lemma init_missing_number_is_a_key_error_witness :
  fst (__init__ {| obj_id := 0; _key := KeyAlone Sample.a_digest; _initialized := false;
                   kernels := [] |}
                Sample.poisson "form" form_compiler_loc [(1, 0)] [] NoInterface
                false false None Sample.world0) = Raise KeyError.
Proof.
  rewrite (@init_missing_number_is_a_key_error Sample.externals
             {| obj_id := 0; _key := KeyAlone Sample.a_digest; _initialized := false;
                kernels := [] |}
             Sample.poisson "form" form_compiler_loc [(1, 0)] [] NoInterface
             false false None Sample.world0
             (Sample.lower_form Sample.poisson "form")
             (Sample.lower Sample.poisson "form"
                (Sample.dx (Operator "inner" [Operator "grad" [ArgumentT Sample.u];
                                              Operator "grad" [ArgumentT Sample.v]])))
             0 eq_refl eq_refl).
  - reflexivity.
  - vm_compute. left. reflexivity.
  - vm_compute. left. reflexivity.
  - vm_compute. reflexivity.
Defined.

(** ** [compile_form]: the key of the cache on the form *)

Lemma keys_insert_item {V} (kv : string * V) (l : list (string * V)) :
  map fst (Py.insert_item kv l) = Py.insert_key (fst kv) (map fst l).
Proof.
  induction l as [|kv' l IH]; simpl; [reflexivity|].
  destruct (String.ltb (fst kv) (fst kv')); simpl; [reflexivity | now rewrite IH].
Qed.

Lemma keys_sorted_items {V} (d : list (string * V)) :
  map fst (Py.sorted_items d) = Py.sorted_keys d.
Proof.
  unfold Py.sorted_keys, Py.keys. induction d as [|kv d IH]; simpl; [reflexivity|].
  now rewrite keys_insert_item, IH.
Qed.

(** [tuplify] lists the items of the dict, sorted by key. *)
Lemma tuplify_sorted_items (d : list (string * Py.value)) :
  Py.wf_dict d -> tuplify d = Py.sorted_items d.
Proof.
  intros Hwf. unfold tuplify. rewrite <- keys_sorted_items.
  assert (Hall : forall kv, In kv (Py.sorted_items d) -> Py.get d (fst kv) = Some (snd kv)).
  { intros [k v] Hin. apply (proj1 (in_sorted_items _ _)) in Hin. simpl.
    apply (proj2 (get_in d k v Hwf)). exact Hin. }
  revert Hall. generalize (Py.sorted_items d). intros l.
  induction l as [|[k v] l IH]; intros Hall; [reflexivity|].
  pose proof (Hall (k, v) (or_introl eq_refl)) as Hkv. simpl in Hkv. simpl.
  rewrite Hkv. f_equal.
  apply IH. intros kv Hin. apply Hall. now right.
Qed.

(** X13. [tuplify], which makes the parameter part of the key of the
    cache on the form, gives two dicts the same tuple exactly when they
    have the same entries, whatever the order in which they were filled. *)
Theorem tuplify_separates_dicts (d1 d2 : Py.dict string Py.value) :
  Py.wf_dict d1 -> Py.wf_dict d2 ->
  (tuplify d1 = tuplify d2 <-> Py.dict_eq d1 d2).
Proof.
  intros H1 H2. rewrite !tuplify_sorted_items by assumption. split.
  - now apply sorted_items_inj.
  - now apply sorted_items_dict_eq.
Qed.

Lemma tuplify_separates_dicts_witness :
  tuplify Sample.parameters_a = tuplify Sample.parameters_b
  <-> Py.dict_eq Sample.parameters_a Sample.parameters_b.
Proof.
  apply (tuplify_separates_dicts Sample.parameters_a Sample.parameters_b).
  - apply sample_wf. vm_compute. reflexivity.
  - apply sample_wf. vm_compute. reflexivity.
Defined.

Lemma keys_set {K V} `{EqDecision K} (d : Py.dict K V) (k : K) (v : V) :
  k ∈ Py.keys d -> Py.keys (Py.set d k v) = Py.keys d.
Proof.
  unfold Py.keys. induction d as [|[k0 v0] d IH]; simpl; intros Hk.
  - now apply elem_of_nil in Hk.
  - destruct (decide (k0 = k)) as [->|Hne]; [reflexivity|]. simpl. f_equal.
    apply IH. apply elem_of_cons in Hk. destruct Hk as [->|Hk]; [congruence | exact Hk].
Qed.

Lemma wf_set {K V} `{EqDecision K} (d : Py.dict K V) (k : K) (v : V) :
  Py.wf_dict d -> Py.wf_dict (Py.set d k v).
Proof.
  unfold Py.wf_dict. intros Hwf. destruct (decide (k ∈ Py.keys d)) as [Hin|Hout].
  - now rewrite keys_set.
  - rewrite set_fresh by exact Hout. unfold Py.keys in *. rewrite map_app. simpl.
    apply NoDup_app. split; [exact Hwf|]. split; [|apply NoDup_singleton].
    intros x Hx Hx'. apply list_elem_of_singleton in Hx'. now subst.
Qed.

Lemma wf_update {K V} `{EqDecision K} (d u : Py.dict K V) :
  Py.wf_dict d -> Py.wf_dict (Py.update d u).
Proof.
  unfold Py.update. revert d. induction u as [|[k v] u IH]; intros d Hwf; simpl;
    [exact Hwf|]. apply IH. now apply wf_set.
Qed.

Section FormCache.
Context `{Externals}.

(** X14. The cache on the form is keyed by the entries of the
    parameters, not by the dict object or the order of its entries: a
    call that returned has left its tuple on the form under a key that
    is also the key of any other dict with the same entries, and a call
    with such a dict returns the stored tuple and adds no event. *)
Theorem compile_form_hit_for_an_equal_dict (form : FormObj) (name : string)
    (user user' : nat) (split : bool) (interface interface' : Interface)
    (coffee coffee' diagonal : bool) (w w1 : World) (kernels : list SplitKernel) :
  allocated w coffee_loc -> allocated w form_compiler_loc ->
  allocated w user -> allocated w user' ->
  Py.wf_dict (deref w form_compiler_loc) ->
  Py.wf_dict (deref w user) -> Py.wf_dict (deref w user') ->
  Py.dict_eq (deref w user) (deref w user') ->
  compile_form form name (Some user) split interface coffee diagonal w = (Ok kernels, w1) ->
  compile_key w name (Some user') split diagonal
  = compile_key w name (Some user) split diagonal
  /\ Py.get (kernels_on form w1) (compile_key w name (Some user') split diagonal)
     = Some kernels
  /\ exists w2,
      compile_form form name (Some user') split interface' coffee' diagonal w1
      = (Ok kernels, w2)
      /\ trace w2 = trace w1 /\ _cache w2 = _cache w1 /\ disk w2 = disk w1
      /\ kernels_on form w2 = kernels_on form w1.
Proof.
  intros Hc Hf Hu Hu' Hwf Hwfu Hwfu' Heq Hrun.
  destruct (compile_form_effect form name (Some user) split interface coffee diagonal
              w (Ok kernels) w1 Hc Hf) as (Hheap & Hnext & Hstored);
    [now intros ? [= <-] | exact Hrun |].
  destruct (Hstored kernels eq_refl) as (cache & Hcache & Hget).
  assert (Hsame : forall l, allocated w l -> deref w1 l = deref w l).
  { intros l Hl. unfold allocated in Hl. unfold deref. rewrite Hheap.
    rewrite lookup_insert_ne by lia. reflexivity. }
  assert (Hkeys : compile_key w name (Some user') split diagonal
                  = compile_key w name (Some user) split diagonal).
  { unfold compile_key, effective_parameters. do 3 f_equal.
    rewrite !tuplify_sorted_items by (apply wf_update; exact Hwf).
    apply sorted_items_dict_eq; try (apply wf_update; exact Hwf).
    intros k. rewrite !get_update by assumption. now rewrite (Heq k). }
  assert (Hkey : compile_key w1 name (Some user') split diagonal
                 = compile_key w name (Some user) split diagonal).
  { rewrite <- Hkeys. unfold compile_key, effective_parameters.
    now rewrite (Hsame _ Hc), (Hsame _ Hf), (Hsame _ Hu'). }
  assert (Hon : kernels_on form w1 = cache) by exact (f_equal (default []) Hcache).
  split; [exact Hkeys|]. split; [rewrite Hon, Hkeys; exact Hget|].
  rewrite compile_form_unfold.
  - cbv zeta. rewrite Hkey.
    assert (Hentered : form_caches (entered form (Some user') w1) = form_caches w1).
    { unfold entered. simpl. rewrite Hcache. reflexivity. }
    rewrite Hentered, Hcache. simpl. rewrite Hget.
    eexists. split; [reflexivity|]. cbn [snd].
    rewrite (cache_entered form (Some user') w1). repeat split; reflexivity.
  - unfold allocated in *. lia.
  - unfold allocated in *. lia.
  - intros ? [= <-]. unfold allocated in *. lia.
Qed.

(** X15. Without splitting, [diagonal] asserts that the form has two
    arguments: for any other number the call raises [AssertionError]
    before anything is compiled; only the copy of the parameters and the
    dict on the form have been made. *)
Theorem unsplit_diagonal_wants_two_arguments (form : FormObj) (name : string)
    (parameters : option nat) (interface : Interface) (coffee : bool) (w : World)
    (a : list Argument) :
  allocated w coffee_loc -> allocated w form_compiler_loc ->
  (forall user, parameters = Some user -> allocated w user) ->
  Py.get (kernels_on form w) (compile_key w name parameters false true) = None ->
  arguments (form_value form) = Ok a ->
  length a <> 2%nat ->
  compile_form form name parameters false interface coffee true w
  = (Raise AssertionError, entered form parameters w).
Proof.
  intros Hc Hf Hu Hmiss Ha Hlen. rewrite compile_form_unfold by assumption. cbv zeta.
  fold (kernels_on form (entered form parameters w)). rewrite cache_entered, Hmiss.
  unfold blocks_of, mbind at 1 2, lift. rewrite Ha.
  destruct (Nat.eqb_spec (length a) 2); [contradiction | reflexivity].
Qed.

Lemma compile_block_indices form name parameters interface coffee diagonal idx f w ks w1 :
  compile_block form name parameters interface coffee diagonal (idx, f) w = (Ok ks, w1) ->
  List.Forall (fun sk => indices sk = idx) ks.
Proof.
  unfold compile_block. unfold mbind at 1. unfold log at 1. cbn [fst snd].
  unfold mbind at 1. unfold lift at 1.
  destruct (_real_mangle f) as [f'| |]; try discriminate.
  unfold mbind at 1. unfold lift at 1.
  destruct (renumber _ (coefficients f')) as [nm| |]; try discriminate.
  unfold mbind at 1. unfold lift at 1.
  destruct (renumber _ (extract_subspaces f')) as [snm| |]; try discriminate.
  unfold mbind at 1.
  match goal with
  | |- context [new_TSFCKernel ?a ?b ?c ?d ?e ?g ?h ?i ?j ?w0] =>
      destruct (new_TSFCKernel a b c d e g h i j w0) as [[obj|e'|] w2]
  end; try discriminate.
  unfold ret. intros [= <- <-]. apply List.Forall_forall. intros sk Hin.
  apply in_map_iff in Hin. destruct Hin as (ki & <- & _). reflexivity.
Qed.

Lemma foldM_grouped form name parameters interface coffee diagonal blocks :
  forall acc w ks w',
    foldM (fun kernels block =>
             let! split_kernels :=
               compile_block form name parameters interface coffee diagonal block in
             ret (kernels ++ split_kernels)%list)
          blocks acc w = (Ok ks, w') ->
    exists groups,
      Forall2 (fun block group => List.Forall (fun sk => indices sk = fst block) group)
              blocks groups
      /\ ks = (acc ++ concat groups)%list.
Proof.
  induction blocks as [|[idx f] blocks IH]; intros acc w ks w' Hrun; cbn [foldM] in Hrun.
  - unfold ret in Hrun. inversion Hrun; subst. exists [].
    split; [constructor | simpl; now rewrite app_nil_r].
  - unfold mbind at 1 in Hrun. unfold mbind at 1 in Hrun.
    destruct (compile_block form name parameters interface coffee diagonal (idx, f) w)
      as [[sk|e|] w1] eqn:Hblock; try discriminate.
    unfold ret at 1 in Hrun.
    apply compile_block_indices in Hblock.
    destruct (IH _ _ _ _ Hrun) as (groups & Hg & ->).
    exists (sk :: groups). split; [constructor; assumption|].
    simpl. now rewrite <- app_assoc.
Qed.

(** X16. The tuple that a compiling call of [compile_form] returns is
    made block by block: the kernels of the first block come first, then
    those of the second, and so on, and every [SplitKernel] carries the
    index tuple of its block; without splitting the form is the only
    block and its index tuple is [None] for each argument (for the one
    row of a diagonal). *)
Theorem kernels_grouped_by_block (form : FormObj) (name : string)
    (parameters : option nat) (split : bool) (interface : Interface)
    (coffee diagonal : bool) (w w' : World) (kernels : list SplitKernel) :
  allocated w coffee_loc -> allocated w form_compiler_loc ->
  (forall user, parameters = Some user -> allocated w user) ->
  Py.get (kernels_on form w) (compile_key w name parameters split diagonal) = None ->
  compile_form form name parameters split interface coffee diagonal w = (Ok kernels, w') ->
  exists blocks,
    grouped blocks kernels
    /\ if split then split_form (form_value form) diagonal = Ok blocks
       else exists a,
           arguments (form_value form) = Ok a
           /\ blocks = [(repeat None (if diagonal then 1%nat else length a),
                         form_value form)].
Proof.
  intros Hc Hf Hu Hmiss Hrun. rewrite compile_form_unfold in Hrun by assumption.
  cbv zeta in Hrun. fold (kernels_on form (entered form parameters w)) in Hrun.
  rewrite cache_entered, Hmiss in Hrun.
  unfold mbind at 1 in Hrun.
  pose proof (runs_blocks_of (form_value form) split diagonal (entered form parameters w))
    as S1.
  destruct (blocks_of (form_value form) split diagonal (entered form parameters w))
    as [[blocks|e|] w1] eqn:Hblocks; try discriminate. simpl in S1.
  unfold mbind at 1 in Hrun.
  pose proof (runs_compile_blocks (form_value form) name (next_loc w) interface coffee
                                  diagonal blocks w1) as S2.
  unfold compile_blocks in Hrun, S2.
  match type of Hrun with
  | context [foldM ?g blocks [] w1] =>
      destruct (foldM g blocks [] w1) as [[ks|e|] w2] eqn:Hfold
  end; try discriminate. simpl in S2.
  destruct (foldM_grouped _ _ _ _ _ _ _ _ _ _ _ Hfold) as (groups & Hg & Hks).
  simpl in Hks. subst ks.
  assert (Hkernels : kernels = concat groups).
  { unfold form_cache_setdefault, mbind, cache_of, ret in Hrun. simpl in Hrun.
    destruct S1 as [_ _ _ Hc1 _ _]. destruct S2 as [_ _ _ Hc2 _ _].
    rewrite Hc2, Hc1 in Hrun. fold (kernels_on form (entered form parameters w)) in Hrun.
    rewrite cache_entered, Hmiss in Hrun. now inversion Hrun. }
  exists blocks. split; [exists groups; split; assumption|].
  unfold blocks_of in Hblocks. destruct split.
  - unfold mbind, log, lift in Hblocks. simpl in Hblocks.
    destruct (split_form (form_value form) diagonal); now inversion Hblocks.
  - unfold mbind, lift in Hblocks.
    destruct (arguments (form_value form)) as [a| |]; try discriminate.
    exists a. split; [reflexivity|].
    destruct diagonal; [destruct (length a =? 2)%nat|]; now inversion Hblocks.
Qed.

(** X17. A call of [compile_form] that does not return stores nothing
    on the form: the dict kept on the form is what it was, so the next
    call compiles again. *)
Theorem failed_compile_form_stores_nothing (form : FormObj) (name : string)
    (parameters : option nat) (split : bool) (interface : Interface)
    (coffee diagonal : bool) (w : World) :
  allocated w coffee_loc -> allocated w form_compiler_loc ->
  (forall user, parameters = Some user -> allocated w user) ->
  failed (fst (compile_form form name parameters split interface coffee diagonal w)) ->
  kernels_on form (snd (compile_form form name parameters split interface coffee
                          diagonal w))
  = kernels_on form w.
Proof.
  intros Hc Hf Hu.
  remember (compile_form form name parameters split interface coffee diagonal w)
    as run eqn:Hr.
  rewrite compile_form_unfold in Hr by assumption. cbv zeta in Hr.
  rewrite <- (cache_entered form parameters w).
  destruct (Py.get _ _); [subst run; intros []|].
  unfold mbind at 1 in Hr.
  pose proof (runs_blocks_of (form_value form) split diagonal (entered form parameters w))
    as S1.
  destruct (blocks_of (form_value form) split diagonal (entered form parameters w))
    as [[blocks|e|] w1]; simpl in S1; destruct S1 as [_ _ _ Hc1 _ _];
    try (subst run; intros _; unfold kernels_on; simpl; now rewrite Hc1).
  unfold mbind at 1 in Hr.
  pose proof (runs_compile_blocks (form_value form) name (next_loc w) interface coffee
                                  diagonal blocks w1) as S2.
  destruct (compile_blocks (form_value form) name (next_loc w) interface coffee
                           diagonal blocks w1) as [[ks|e|] w2]; simpl in S2;
    destruct S2 as [_ _ _ Hc2 _ _];
    try (subst run; intros _; unfold kernels_on; simpl; now rewrite Hc2, Hc1).
  unfold form_cache_setdefault, mbind, cache_of, ret in Hr. simpl in Hr.
  destruct (Py.get _ _); subst run; intros [].
Qed.

End FormCache.

Lemma compile_form_hit_for_an_equal_dict_witness :
  let first := compile_form Sample.poisson_obj "form" (Some Sample.caller_parameters) true
                            NoInterface false false world_two_callers in
  exists kernels w2,
    fst first = Ok kernels
    /\ Py.get (kernels_on Sample.poisson_obj (snd first))
              (compile_key world_two_callers "form" (Some second_caller_parameters)
                           true false) = Some kernels
    /\ compile_form Sample.poisson_obj "form" (Some second_caller_parameters) true
                    NoInterface false false (snd first) = (Ok kernels, w2)
    /\ trace w2 = trace (snd first).
Proof.
  cbv zeta.
  destruct (compile_form Sample.poisson_obj "form" (Some Sample.caller_parameters) true
                         NoInterface false false world_two_callers)
    as [r w1] eqn:Hfirst.
  assert (Hok : exists kernels, r = Ok kernels).
  { apply (f_equal fst) in Hfirst. vm_compute in Hfirst. subst r. eexists. reflexivity. }
  destruct Hok as (kernels & ->).
  destruct (@compile_form_hit_for_an_equal_dict Sample.externals Sample.poisson_obj "form"
              Sample.caller_parameters second_caller_parameters true NoInterface
              NoInterface false false false world_two_callers w1 kernels
              ltac:(vm_compute; lia) ltac:(vm_compute; lia)
              ltac:(vm_compute; lia) ltac:(vm_compute; lia)
              ltac:(apply sample_wf; vm_compute; reflexivity)
              ltac:(apply sample_wf; vm_compute; reflexivity)
              ltac:(apply sample_wf; vm_compute; reflexivity)
              parameters_a_eq_b Hfirst)
    as (_ & Hstored & w2 & Hsecond & Htrace & _).
  exists kernels, w2. split; [reflexivity|]. split; [exact Hstored|].
  split; assumption.
Defined.

Lemma unsplit_diagonal_wants_two_arguments_witness :
  compile_form Sample.real_functional_obj "form" None false NoInterface false true
               Sample.world0
  = (Raise AssertionError, entered Sample.real_functional_obj None Sample.world0).
Proof.
  apply (@unsplit_diagonal_wants_two_arguments Sample.externals Sample.real_functional_obj
           "form" None NoInterface false Sample.world0 [Sample.r]).
  - vm_compute. lia.
  - vm_compute. lia.
  - intros ? [=].
  - vm_compute. reflexivity.
  - vm_compute. reflexivity.
  - simpl. lia.
Defined.

Lemma kernels_grouped_by_block_witness :
  let run := compile_form Sample.poisson_obj "form" None true NoInterface false false
                          Sample.world0 in
  exists kernels blocks,
    fst run = Ok kernels
    /\ grouped blocks kernels
    /\ split_form Sample.poisson false = Ok blocks.
Proof.
  cbv zeta.
  destruct (compile_form Sample.poisson_obj "form" None true NoInterface false false
                         Sample.world0) as [r w1] eqn:Hrun.
  assert (Hok : exists kernels, r = Ok kernels).
  { apply (f_equal fst) in Hrun. vm_compute in Hrun. subst r. eexists. reflexivity. }
  destruct Hok as (kernels & ->).
  destruct (@kernels_grouped_by_block Sample.externals Sample.poisson_obj "form" None
              true NoInterface false false Sample.world0 w1 kernels
              ltac:(vm_compute; lia) ltac:(vm_compute; lia)
              ltac:(intros ? [=]) ltac:(vm_compute; reflexivity) Hrun)
    as (blocks & Hgrouped & Hsplit).
  exists kernels, blocks. split; [reflexivity|]. split; assumption.
Defined.

Lemma failed_compile_form_stores_nothing_witness :
  fst (compile_form empty_form_obj "form" None true NoInterface false false Sample.world0)
  = Raise IndexError
  /\ kernels_on empty_form_obj
       (snd (compile_form empty_form_obj "form" None true NoInterface false false
               Sample.world0))
     = kernels_on empty_form_obj Sample.world0.
Proof.
  split; [vm_compute; reflexivity|].
  apply (@failed_compile_form_stores_nothing Sample.externals empty_form_obj "form" None
           true NoInterface false false Sample.world0).
  - vm_compute. lia.
  - vm_compute. lia.
  - intros ? [=].
  - vm_compute. exact I.
Defined.

(** ** The number maps: from the numbers of a block to those of the form *)

Lemma get_fold_set_in {K V} `{EqDecision K} (l acc : list (K * V)) (k : K) (v : V) :
  Py.get (fold_left (fun d kv => Py.set d (fst kv) (snd kv)) l acc) k = Some v ->
  In (k, v) l \/ Py.get acc k = Some v.
Proof.
  revert acc. induction l as [|[k1 v1] l IH]; intros acc; simpl; [now right|].
  intros Hget. destruct (IH _ Hget) as [Hin | Hacc]; [left; now right|].
  rewrite get_set in Hacc. destruct (decide (k1 = k)) as [->|Hne].
  - injection Hacc as ->. left. now left.
  - now right.
Qed.

Lemma get_fold_set_none {K V} `{EqDecision K} (l acc : list (K * V)) (k : K) :
  ~ In k (map fst l) -> Py.get acc k = None ->
  Py.get (fold_left (fun d kv => Py.set d (fst kv) (snd kv)) l acc) k = None.
Proof.
  revert acc. induction l as [|[k1 v1] l IH]; intros acc Hk Hacc; simpl; [exact Hacc|].
  simpl in Hk. apply IH; [tauto|]. rewrite get_set.
  destruct (decide (k1 = k)); [tauto | exact Hacc].
Qed.

Lemma get_first {K V} `{EqDecision K} (d : list (K * V)) (k : K) (v : V) :
  NoDup (Py.keys d) -> In (k, v) d -> Py.get d k = Some v.
Proof.
  unfold Py.keys. induction d as [|[k0 v0] d IH]; simpl; intros Hwf Hin; [destruct Hin|].
  apply NoDup_cons in Hwf. destruct Hwf as [Hk0 Hwf].
  destruct Hin as [[= -> ->]|Hin].
  - destruct (decide (k = k)); [reflexivity | congruence].
  - destruct (decide (k0 = k)) as [->|Hne]; [|now apply IH].
    exfalso. apply Hk0. apply list_elem_of_In. change k with (fst (k, v)). now apply in_map.
Qed.

Lemma in_combine_seq {A} (l : list A) (start n : nat) (c : A) :
  In (Z.of_nat n, c) (combine (map Z.of_nat (seq start (length l))) l)
  <-> (start <= n)%nat /\ nth_error l (n - start) = Some c.
Proof.
  revert start. induction l as [|x l IH]; intros start; simpl.
  - split; [tauto|]. intros [_ Hn]. now destruct (n - start)%nat.
  - rewrite IH. split.
    + intros [[= E ->]|[Hle Hn]].
      * apply Nat2Z.inj in E. subst. split; [lia|]. now rewrite Nat.sub_diag.
      * split; [lia|]. replace (n - start)%nat with (S (n - S start)) by lia. exact Hn.
    + intros [Hle Hn]. destruct (n - start)%nat as [|m] eqn:E.
      * left. injection Hn as ->. f_equal. lia.
      * right. split; [lia|]. replace (n - S start)%nat with m by lia. exact Hn.
Qed.

Lemma in_enumerate {A} (l : list A) (n : nat) (c : A) :
  In (Z.of_nat n, c) (Py.enumerate l) <-> nth_error l n = Some c.
Proof.
  unfold Py.enumerate. rewrite in_combine_seq, Nat.sub_0_r. split; [tauto|].
  intros Hn. split; [lia | exact Hn].
Qed.

Lemma enumerate_index {A} (l : list A) (z : Z) (c : A) :
  In (z, c) (Py.enumerate l) -> exists n, z = Z.of_nat n /\ nth_error l n = Some c.
Proof.
  intros Hin. assert (Hz : In z (map fst (Py.enumerate l)))
    by (change z with (fst (z, c)); now apply in_map).
  rewrite enumerate_keys in Hz. apply in_map_iff in Hz. destruct Hz as (n & <- & _).
  exists n. split; [reflexivity|]. now apply in_enumerate.
Qed.

(** [numbering items] maps an item to a position at which it stands. *)
Lemma get_numbering {A} `{EqDecision A} (items : list A) (c : A) (g : Z) :
  Py.get (numbering items) c = Some g ->
  exists n, g = Z.of_nat n /\ nth_error items n = Some c.
Proof.
  unfold numbering, Py.of_pairs. intros Hget.
  apply get_fold_set_in in Hget. destruct Hget as [Hin | Hnil]; [|discriminate].
  apply in_map_iff in Hin. destruct Hin as ([z c'] & [= <- <-] & Hin).
  now apply enumerate_index.
Qed.

Lemma get_numbering_none {A} `{EqDecision A} (items : list A) (c : A) :
  ~ In c items -> Py.get (numbering items) c = None.
Proof.
  intros Hc. unfold numbering, Py.of_pairs. apply get_fold_set_none; [|reflexivity].
  rewrite map_map. intros Hin. apply in_map_iff in Hin.
  destruct Hin as ([z c'] & E & Hin). simpl in E. subst c'.
  apply enumerate_index in Hin. destruct Hin as (n & _ & Hn).
  apply Hc. eapply nth_error_In. exact Hn.
Qed.

Lemma mapM_renumber_in {A} `{EqDecision A} (numbers : list (A * Z))
    (l : list (Z * A)) (pairs : list (Z * Z)) (z : Z) (c : A) :
  mapM (fun nc => let* g := getitem numbers (snd nc) in Ok (fst nc, g)) l = Ok pairs ->
  In (z, c) l -> exists g, In (z, g) pairs /\ Py.get numbers c = Some g.
Proof.
  revert pairs. induction l as [|[n c0] l IH]; intros pairs Hm Hin; [destruct Hin|].
  simpl in Hm. destruct (getitem numbers c0) as [g| |] eqn:Hg; simpl in Hm; try discriminate.
  destruct (mapM _ l) as [ps| |] eqn:Hl; simpl in Hm; try discriminate.
  inversion Hm; subst. destruct Hin as [[= -> ->]|Hin].
  - exists g. split; [now left | now apply getitem_ok].
  - destruct (IH ps eq_refl Hin) as (g' & Hin' & Hg'). exists g'. split; [now right | exact Hg'].
Qed.

(** X18. The number map that [compile_form] builds for a block
    translates positions: when it could be built, the entry of the
    [n]-th item of the block is a position of the same item among the
    items of the form. *)
Theorem number_map_is_local_to_global {A} `{EqDecision A} (all sub : list A)
    (number_map : Py.dict Z Z) (n : nat) (c : A) :
  renumber (numbering all) sub = Ok number_map ->
  nth_error sub n = Some c ->
  exists g,
    Py.get number_map (Z.of_nat n) = Some (Z.of_nat g) /\ nth_error all g = Some c.
Proof.
  intros Hr Hn. pose proof (renumber_in_key_order _ _ _ Hr) as Hkeys.
  unfold renumber in Hr.
  destruct (mapM _ (Py.enumerate sub)) as [pairs| |] eqn:Hm; simpl in Hr; try discriminate.
  injection Hr as <-.
  assert (Hnd : NoDup (Py.keys pairs)).
  { apply mapM_renumber_keys in Hm. rewrite enumerate_keys in Hm. unfold Py.keys.
    rewrite Hm. apply NoDup_fmap_2; [intros x y; lia | apply NoDup_seq]. }
  rewrite of_pairs_distinct by exact Hnd.
  apply in_enumerate in Hn.
  destruct (mapM_renumber_in _ _ _ _ _ Hm Hn) as (g & Hin & Hg).
  apply get_numbering in Hg. destruct Hg as (g' & -> & Hg').
  exists g'. split; [|exact Hg']. now apply get_first.
Qed.

(** X19. When the block has an item that is not among the items of the
    form, building the number map raises [KeyError]. *)
Theorem number_map_of_a_foreign_item {A} `{EqDecision A} (all sub : list A) (c : A) :
  In c sub -> ~ In c all ->
  renumber (numbering all) sub = Raise KeyError.
Proof.
  intros Hsub Hall. unfold renumber.
  rewrite (mapM_raises _ KeyError); [reflexivity | |].
  - intros [z c'] _. simpl. destruct (getitem_cases (numbering all) c') as [E | (g & E)];
      rewrite E; simpl; [now left | right; eauto].
  - apply In_nth_error in Hsub. destruct Hsub as (n & Hn).
    exists (Z.of_nat n, c). split; [now apply in_enumerate|]. simpl.
    unfold getitem. now rewrite get_numbering_none.
Qed.

Lemma number_map_is_local_to_global_witness :
  exists number_map g,
    renumber (numbering ["a"; "b"; "c"]) ["c"; "a"] = Ok number_map
    /\ Py.get number_map (Z.of_nat 0) = Some (Z.of_nat g)
    /\ nth_error ["a"; "b"; "c"] g = Some "c".
Proof.
  destruct (number_map_is_local_to_global ["a"; "b"; "c"] ["c"; "a"] [(0, 2); (1, 0)] 0 "c")
    as (g & Hget & Hnth).
  - vm_compute. reflexivity.
  - reflexivity.
  - exists [(0, 2); (1, 0)], g. split; [vm_compute; reflexivity|]. split; assumption.
Defined.

Lemma number_map_of_a_foreign_item_witness :
  renumber (numbering [Sample.f])
           (coefficients Sample.poisson
            ++ [{| coeff_function_space := Sample.R; count := 1 |}])
  = Raise KeyError.
Proof.
  apply (number_map_of_a_foreign_item [Sample.f] _
           {| coeff_function_space := Sample.R; count := 1 |}).
  - vm_compute. right. left. reflexivity.
  - vm_compute. intros [E | []]. discriminate.
Defined.

(** ** The digest as a path *)

Lemma hex_digit_hex (x : Z) : hex_char (MD5.hex_digit x) = true.
Proof.
  unfold MD5.hex_digit. generalize (Z.to_nat x). intros n.
  do 16 (destruct n as [|n]; [reflexivity|]). simpl. now destruct n.
Qed.

(** X20. The digest of a cache key is a string of 32 hexadecimal
    digits, so the shard directory has a name of two digits and the file
    one of thirty, and neither holds a path separator. *)
Theorem digest_is_32_hex_digits `{Externals} (coffee_defaults : Py.dict string Py.value)
    (form : Form) (name : string) (parameters : Py.dict string Py.value)
    (number_map subspace_number_map : Py.dict Z Z) (interface : Interface)
    (coffee diagonal : bool) (idx : option (list (option Z))) :
  let key := digest coffee_defaults form name parameters number_map subspace_number_map
                    interface coffee diagonal idx in
  String.length key = 32%nat
  /\ all_chars hex_char key = true
  /\ String.length (shard_of key) = 2%nat
  /\ String.length (disk_key_of key) = 30%nat.
Proof.
  cbv zeta. unfold digest, md5_hexdigest, MD5.hexdigest.
  destruct (MD5.digest_regs _) as [a b c d].
  cbn [MD5.le_bytes app map concat MD5.hex_byte string_of_list_ascii String.length
       all_chars shard_of disk_key_of str_take str_drop].
  rewrite !hex_digit_hex. repeat split; reflexivity.
Qed.

(** ** The key that [_cache_lookup] probes *)

Lemma keeps_bind {A B} (m : M A) (k : A -> M B) :
  keeps_probed_keys m -> (forall a, keeps_probed_keys (k a)) -> keeps_probed_keys (mbind m k).
Proof.
  intros Hm Hk w key. unfold mbind. specialize (Hm w key).
  destruct (m w) as [[a|e|] w1]; simpl in *; try exact Hm.
  now rewrite Hk.
Qed.

Lemma keeps_try {A} (m : M A) caught (handler : M A) :
  keeps_probed_keys m -> keeps_probed_keys handler ->
  keeps_probed_keys (try_except m caught handler).
Proof.
  intros Hm Hh w key. unfold try_except. specialize (Hm w key).
  destruct (m w) as [[a|e|] w1]; simpl in *; try exact Hm.
  destruct (caught e); [|exact Hm]. now rewrite Hh.
Qed.

Lemma keeps_same {A} (m : M A) :
  (forall w, _cache (snd (m w)) = _cache w) -> keeps_probed_keys m.
Proof. intros Hm w key. now rewrite Hm. Qed.

Lemma keeps_foldM {A B} (g : B -> A -> M B) (l : list A) (b : B) :
  (forall b x, keeps_probed_keys (g b x)) -> keeps_probed_keys (foldM g l b).
Proof.
  intros Hg. revert b. induction l as [|x l IH]; intros b; simpl.
  - now apply keeps_same.
  - apply keeps_bind; [apply Hg | intros b'; apply IH].
Qed.

Ltac keeps_step :=
  first [ apply keeps_same; intros ?; reflexivity
        | apply keeps_bind; [|intros ?] ].

Section ProbedKeys.
Context `{Externals}.

Lemma keeps_cache_lookup key : keeps_probed_keys (_cache_lookup key).
Proof. intros w k. apply cache_lookup_pair_keys. Qed.

Lemma keeps_cache_store key val : keeps_probed_keys (_cache_store key val).
Proof.
  destruct key as [key comm]. intros w k.
  unfold _cache_store, mbind, _ensure_cachedir, log, ret, comm_or_world. simpl.
  repeat (match goal with
          | |- context [(?a =? ?b)%nat] => destruct (a =? b)%nat
          | |- context [?a =? ?b] => destruct (a =? b)
          end; simpl);
    rewrite ?lookup_insert_ne by discriminate; reflexivity.
Qed.

Lemma keeps_init self form name parameters nm snm interface coffee diagonal idx :
  keeps_probed_keys (__init__ self form name parameters nm snm interface coffee diagonal idx).
Proof.
  apply keeps_same. intros w. unfold __init__, mbind, read, log, lift, ret.
  destruct (_initialized self); [reflexivity|]. simpl.
  destruct (compile_local_form _ _ _ _ _ _); simpl; try reflexivity.
  destruct (mapM _ _); reflexivity.
Qed.

Lemma keeps_new_TSFCKernel form name parameters nm snm interface coffee diagonal idx :
  keeps_probed_keys
    (new_TSFCKernel form name parameters nm snm interface coffee diagonal idx).
Proof.
  unfold new_TSFCKernel. repeat keeps_step.
  - apply keeps_try; [apply keeps_cache_lookup|].
    apply keeps_bind; [|intros ?; apply keeps_cache_store].
    apply keeps_bind; [keeps_step | intros ?; apply keeps_init].
  - apply keeps_init.
Qed.

Lemma keeps_compile_block form name parameters interface coffee diagonal block :
  keeps_probed_keys (compile_block form name parameters interface coffee diagonal block).
Proof.
  destruct block as [idx f]. unfold compile_block.
  apply keeps_bind; [keeps_step | intros _].
  apply keeps_bind; [keeps_step | intros f'].
  apply keeps_bind; [keeps_step | intros nm].
  apply keeps_bind; [keeps_step | intros snm].
  apply keeps_bind; [apply keeps_new_TSFCKernel | intros obj; keeps_step].
Qed.

(** X21. Nothing that [compile_form] does, whatever its arguments and
    however it ends, stores an object in [TSFCKernel._cache] under a
    (digest, communicator) key, the key that [_cache_lookup] probes: a
    probe that missed before the call misses after it. *)
Theorem compile_form_never_fills_the_probed_key (form : FormObj) (name : string)
    (parameters : option nat) (split : bool) (interface : Interface)
    (coffee diagonal : bool) (w : World) (key : string) (commkey : Z) :
  _cache (snd (compile_form form name parameters split interface coffee diagonal w))
    !! inr (key, commkey)
  = _cache w !! inr (key, commkey).
Proof.
  revert w key commkey.
  assert (Hkeeps : keeps_probed_keys
                     (compile_form form name parameters split interface coffee diagonal)).
  { unfold compile_form. apply keeps_bind; [keeps_step | intros defaults].
    apply keeps_bind.
    { destruct parameters as [user|]; repeat keeps_step. }
    intros p. apply keeps_bind; [|intros _].
    { apply keeps_same. intros w. unfold firedrake_kernels.
      now destruct (form_caches w !! form_id form). }
    apply keeps_bind; [keeps_step | intros cache].
    apply keeps_bind; [keeps_step | intros coffee_defaults].
    apply keeps_bind; [keeps_step | intros params].
    destruct (Py.get _ _); [keeps_step|].
    apply keeps_bind.
    { destruct split; [repeat keeps_step|].
      apply keeps_bind; [keeps_step | intros a].
      destruct diagonal; [destruct (length a =? 2)%nat|]; keeps_step. }
    intros iterable. apply keeps_bind.
    { apply keeps_foldM. intros kernels block.
      apply keeps_bind; [apply keeps_compile_block | intros ?; keeps_step]. }
    intros kernels. unfold form_cache_setdefault.
    apply keeps_bind; [keeps_step | intros cache'].
    destruct (Py.get _ _); keeps_step. }
  intros w key commkey. apply Hkeeps.
Qed.

End ProbedKeys.

(** ** The form without integrals *)

Lemma get_fold_set_some {K V} `{EqDecision K} (l acc : list (K * V)) (k : K) :
  In k (map fst l) ->
  exists v, Py.get (fold_left (fun d kv => Py.set d (fst kv) (snd kv)) l acc) k = Some v.
Proof.
  revert acc. induction l as [|[k1 v1] l IH]; intros acc Hin; [destruct Hin|]. simpl.
  destruct (in_dec (fun x y => decide (x = y)) k (map fst l)) as [Hl|Hl];
    [now apply IH|].
  destruct Hin as [E|Hin]; [|contradiction]. simpl in E. subst k1.
  destruct (Py.get (fold_left (fun d kv => Py.set d (fst kv) (snd kv)) l (Py.set acc k v1)) k)
    as [v|] eqn:Hget; [eauto|].
  exfalso. clear IH. revert acc Hget. induction l as [|[k2 v2] l IH]; intros acc Hget.
  - simpl in Hget. rewrite get_set in Hget. destruct (decide (k = k)); congruence.
  - simpl in Hl, Hget. destruct (decide (k2 = k)) as [->|Hne]; [tauto|].
    assert (Hswap : forall k', Py.get (Py.set (Py.set acc k v1) k2 v2) k'
                               = Py.get (Py.set (Py.set acc k2 v2) k v1) k').
    { intros k'. rewrite !get_set. repeat destruct (decide _); congruence. }
    apply (IH ltac:(tauto) (Py.set acc k2 v2)).
    rewrite <- Hget. clear -Hswap. revert Hswap.
    generalize (Py.set (Py.set acc k v1) k2 v2), (Py.set (Py.set acc k2 v2) k v1).
    induction l as [|[k3 v3] l IH]; intros d1 d2 Hd; simpl; [now rewrite Hd|].
    apply IH. intros k'. rewrite !get_set. destruct (decide _); [reflexivity | apply Hd].
Qed.

Lemma get_numbering_some {A} `{EqDecision A} (items : list A) (c : A) :
  In c items -> exists g, Py.get (numbering items) c = Some g.
Proof.
  intros Hc. unfold numbering, Py.of_pairs. apply get_fold_set_some.
  rewrite map_map. apply In_nth_error in Hc. destruct Hc as (n & Hn).
  apply in_enumerate in Hn. apply in_map_iff. exists (Z.of_nat n, c). split; [reflexivity|].
  exact Hn.
Qed.

(** The number map can be built when every item of the block is an item
    of the form. *)
Lemma renumber_total {A} `{EqDecision A} (all sub : list A) :
  (forall c, In c sub -> In c all) -> exists m, renumber (numbering all) sub = Ok m.
Proof.
  intros Hsub. unfold renumber.
  assert (Hm : exists pairs,
             mapM (fun nc => let* g := getitem (numbering all) (snd nc) in Ok (fst nc, g))
                  (Py.enumerate sub) = Ok pairs).
  { assert (Hall : forall nc, In nc (Py.enumerate sub) -> In (snd nc) all).
    { intros [z c] Hin. apply enumerate_index in Hin. destruct Hin as (n & _ & Hn).
      apply Hsub. eapply nth_error_In. exact Hn. }
    revert Hall. generalize (Py.enumerate sub). intros l.
    induction l as [|[z c] l IH]; intros Hall; simpl; [eauto|].
    destruct (get_numbering_some all c (Hall (z, c) (or_introl eq_refl))) as (g & Hg).
    unfold getitem at 1. rewrite Hg. simpl.
    destruct IH as (ps & Hps); [intros nc Hnc; apply Hall; now right|].
    rewrite Hps. simpl. eauto. }
  destruct Hm as (pairs & Hm). rewrite Hm. simpl. eauto.
Qed.

Section EmptyForm.
Context `{Externals}.

(** X22. A form without integrals cannot be compiled: without
    splitting, [compile_form] gets as far as the cache key of its only
    block, where [form.ufl_domains()[0]] raises [IndexError]; it does not
    return an empty tuple. *)
Theorem empty_form_is_an_index_error (form : FormObj) (name : string)
    (parameters : option nat) (interface : Interface) (coffee : bool) (w : World) :
  allocated w coffee_loc -> allocated w form_compiler_loc ->
  (forall user, parameters = Some user -> allocated w user) ->
  Py.get (kernels_on form w) (compile_key w name parameters false false) = None ->
  integrals (form_value form) = [] ->
  fst (compile_form form name parameters false interface coffee false w) = Raise IndexError.
Proof.
  intros Hc Hf Hu Hmiss Hempty. rewrite compile_form_unfold by assumption. cbv zeta.
  fold (kernels_on form (entered form parameters w)). rewrite cache_entered, Hmiss.
  destruct form as [id [ints]]. simpl in Hempty. subst ints. cbn [form_value].
  set (form := {| integrals := [] |}).
  assert (Hargs : arguments form = Ok []) by reflexivity.
  assert (Hmangle : _real_mangle form = Ok form) by reflexivity.
  destruct (renumber_total (extract_subspaces form) (extract_subspaces form))
    as (snm & Hsnm); [auto|].
  unfold blocks_of, mbind at 1 2, lift at 1. rewrite Hargs. unfold ret at 1.
  unfold mbind at 1. unfold compile_blocks. cbn [foldM length repeat].
  unfold mbind at 1 2. unfold compile_block.
  unfold mbind at 1. unfold log at 1. cbn beta iota.
  unfold mbind at 1. unfold lift at 1. rewrite Hmangle.
  unfold mbind at 1. unfold lift at 1.
  change (renumber (numbering (coefficients form)) (coefficients form)) with (Ok (@nil (Z * Z))).
  cbn beta iota.
  unfold mbind at 1. unfold lift at 1. rewrite Hsnm.
  unfold mbind at 1. rewrite new_TSFCKernel_unfold.
  unfold _cache_key. change (ufl_domains form) with (@nil Mesh). reflexivity.
Qed.

End EmptyForm.

Lemma empty_form_is_an_index_error_witness :
  fst (compile_form empty_form_obj "form" None false NoInterface false false Sample.world0)
  = Raise IndexError.
Proof.
  apply (@empty_form_is_an_index_error Sample.externals empty_form_obj "form" None
           NoInterface false Sample.world0).
  - vm_compute. lia.
  - vm_compute. lia.
  - intros ? [=].
  - vm_compute. reflexivity.
  - reflexivity.
Defined.
